(** * A shallow embedding of [todo.py], the JSON-backed command line to-do list

    The program keeps its tasks as Python dicts in a Python list, read from
    and written to one JSON file.  The embedding keeps that shape: a task is
    a JSON object, a collection is a list of JSON values, and every command
    is a computation over an explicit world (file system, clock, id
    generator, standard output) that either returns, leaves through
    [sys.exit], or dies with an uncaught Python exception. *)

From Stdlib Require Import ZArith Ascii String List Bool Lia.
From Stdlib Require Import Sorting.Sorted Sorting.Permutation.
From stdpp Require Import base option list gmap strings.

Local Open Scope string_scope.
Local Open Scope Z_scope.
Set Warnings "-register-all".

(** ** JSON values as Python sees them after [json.load] *)

(** Numbers are integers: the program itself only ever writes integers
    (epoch seconds).  An object is an association list in insertion order,
    as a Python dict is. *)
Inductive json : Type :=
| JNull
| JBool (b : bool)
| JNum (z : Z)
| JStr (s : string)
| JArr (l : list json)
| JObj (m : list (string * json)).

Module Py.

(** The exceptions the program can die with. *)
Inductive exn : Type :=
| KeyError (k : string)
| TypeError
| AttributeError
| ValueError
| OverflowError
| JSONDecodeError
| UnicodeDecodeError.

(** Outcome of a Python computation: a value, [sys.exit(msg)], or an
    exception nobody catches. *)
Inductive exc (A : Type) : Type :=
| Ok (a : A)
| Exit (msg : string)
| Raise (e : exn).
Arguments Ok {A} a.
Arguments Exit {A} msg.
Arguments Raise {A} e.

Definition ebind {A B} (m : exc A) (f : A -> exc B) : exc B :=
  match m with
  | Ok a => f a
  | Exit s => Exit s
  | Raise e => Raise e
  end.

Declare Scope py_scope.
Delimit Scope py_scope with py.
Notation "x <- m ;; k" := (ebind m (fun x => k))
  (at level 100, m at next level, right associativity) : py_scope.

Definition failed {A} (r : exc A) : bool :=
  match r with Ok _ => false | _ => true end.

(** *** Truthiness, [bool(v)] *)
Definition truthy (v : json) : bool :=
  match v with
  | JNull => false
  | JBool b => b
  | JNum z => negb (z =? 0)
  | JStr s => negb (String.eqb s "")
  | JArr l => match l with [] => false | _ => true end
  | JObj m => match m with [] => false | _ => true end
  end.

(** *** Dicts *)
Fixpoint dict_get (m : list (string * json)) (k : string) : option json :=
  match m with
  | [] => None
  | (k', v) :: m' => if String.eqb k' k then Some v else dict_get m' k
  end.

(** [d[k] = v]: overwrite in place when the key exists, append otherwise. *)
Fixpoint dict_set (m : list (string * json)) (k : string) (v : json)
  : list (string * json) :=
  match m with
  | [] => [(k, v)]
  | (k', v') :: m' =>
      if String.eqb k' k then (k', v) :: m' else (k', v') :: dict_set m' k v
  end.

(** [t[k]] *)
Definition subscript (t : json) (k : string) : exc json :=
  match t with
  | JObj m => match dict_get m k with
              | Some v => Ok v
              | None => Raise (KeyError k)
              end
  | _ => Raise TypeError
  end.

(** [t.get(k, dflt)]; only dicts have the method. *)
Definition get (t : json) (k : string) (dflt : json) : exc json :=
  match t with
  | JObj m => Ok (default dflt (dict_get m k))
  | _ => Raise AttributeError
  end.

(** [t[k] = v] *)
Definition setitem (t : json) (k : string) (v : json) : exc json :=
  match t with
  | JObj m => Ok (JObj (dict_set m k v))
  | _ => Raise TypeError
  end.

(** *** [==] on values read from JSON

    Structural, except that [bool] is an [int] ([True == 1]) and that dicts
    compare without regard to key order. *)
Fixpoint py_eq (a b : json) {struct a} : bool :=
  match a, b with
  | JNull, JNull => true
  | JBool x, JBool y => Bool.eqb x y
  | JNum x, JNum y => x =? y
  | JBool x, JNum y => (if x then 1 else 0) =? y
  | JNum x, JBool y => x =? (if y then 1 else 0)
  | JStr x, JStr y => String.eqb x y
  | JArr xs, JArr ys =>
      (fix go (xs ys : list json) {struct xs} : bool :=
         match xs, ys with
         | [], [] => true
         | x :: xs', y :: ys' => py_eq x y && go xs' ys'
         | _, _ => false
         end) xs ys
  | JObj xs, JObj ys =>
      Nat.eqb (length xs) (length ys) &&
      (fix go (xs : list (string * json)) {struct xs} : bool :=
         match xs with
         | [] => true
         | (k, v) :: xs' =>
             match dict_get ys k with
             | Some w => py_eq v w && go xs'
             | None => false
             end
         end) xs
  | _, _ => false
  end.

(** *** Strings

    A character is a code point below 256; [str] methods are modelled on
    that range. *)
Definition code (c : ascii) : N := N_of_ascii c.

(** [c.isspace()] *)
Definition isspace (c : ascii) : bool :=
  let n := code c in
  ((9 <=? n) && (n <=? 13) || (28 <=? n) && (n <=? 32)
   || (n =? 133) || (n =? 160))%N.

(** [c.lower()] *)
Definition lower_char (c : ascii) : ascii :=
  let n := code c in
  if ((65 <=? n) && (n <=? 90)
      || (192 <=? n) && (n <=? 222) && negb (n =? 215))%N
  then ascii_of_N (n + 32) else c.

Fixpoint lower (s : string) : string :=
  match s with
  | EmptyString => EmptyString
  | String c s' => String (lower_char c) (lower s')
  end.

Fixpoint lstrip (s : string) : string :=
  match s with
  | EmptyString => EmptyString
  | String c s' => if isspace c then lstrip s' else s
  end.

Fixpoint rstrip (s : string) : string :=
  match s with
  | EmptyString => EmptyString
  | String c s' =>
      match rstrip s' with
      | EmptyString => if isspace c then EmptyString else String c EmptyString
      | r => String c r
      end
  end.

(** [s.strip()] *)
Definition strip (s : string) : string := rstrip (lstrip s).

(** [sep.join(parts)] *)
Fixpoint join (sep : string) (parts : list string) : string :=
  match parts with
  | [] => ""
  | [p] => p
  | p :: rest => p ++ sep ++ join sep rest
  end.

(** [s.startswith(p)] *)
Definition str_startswith (s p : string) : bool := String.prefix p s.

(** [q in s] *)
Fixpoint contains (s q : string) : bool :=
  String.prefix q s ||
  match s with
  | EmptyString => false
  | String _ s' => contains s' q
  end.

(** [v.startswith(p)] on an arbitrary value: only [str] has the method. *)
Definition startswith (v : json) (p : string) : exc bool :=
  match v with
  | JStr s => Ok (str_startswith s p)
  | _ => Raise AttributeError
  end.

(** [v.lower()] *)
Definition lower_of (v : json) : exc string :=
  match v with
  | JStr s => Ok (lower s)
  | _ => Raise AttributeError
  end.

End Py.
Import Py.
Local Open Scope py_scope.



(** ** Calendar dates, [datetime.date] *)

Module Calendar.

Record date : Type := Date { year : Z; month : Z; day : Z }.

Definition is_leap (y : Z) : bool :=
  (y mod 4 =? 0) && (negb (y mod 100 =? 0) || (y mod 400 =? 0)).

Definition days_in_month (y m : Z) : Z :=
  match m with
  | 1 | 3 | 5 | 7 | 8 | 10 | 12 => 31
  | 4 | 6 | 9 | 11 => 30
  | 2 => if is_leap y then 29 else 28
  | _ => 0
  end.

(** The dates [datetime.date] can hold: years 1 to 9999. *)
Definition valid_date (d : date) : bool :=
  (1 <=? year d) && (year d <=? 9999) &&
  (1 <=? month d) && (month d <=? 12) &&
  (1 <=? day d) && (day d <=? days_in_month (year d) (month d)).

Definition digit_of (c : ascii) : option Z :=
  let n := Z.of_N (N_of_ascii c) in
  if (48 <=? n) && (n <=? 57) then Some (n - 48) else None.

Definition digit_char (n : Z) : ascii := ascii_of_N (Z.to_N (48 + n mod 10)).

Definition dash : ascii := "-"%char.

(** The date a text in the form [YYYY-MM-DD] stands for, the form
    [isoformat] writes and the program documents in its diagnostic. *)
Definition date_of_iso (s : string) : option date :=
  match s with
  | String y1 (String y2 (String y3 (String y4 (String s1
      (String m1 (String m2 (String s2 (String d1 (String d2 EmptyString))))))))) =>
      match digit_of y1, digit_of y2, digit_of y3, digit_of y4,
            digit_of m1, digit_of m2, digit_of d1, digit_of d2 with
      | Some a, Some b, Some c, Some e, Some f, Some g, Some h, Some i =>
          let d := Date (1000 * a + 100 * b + 10 * c + e) (10 * f + g) (10 * h + i) in
          if Ascii.eqb s1 dash && Ascii.eqb s2 dash && valid_date d
          then Some d else None
      | _, _, _, _, _, _, _, _ => None
      end
  | _ => None
  end.

(** [d.isoformat()] *)
Definition isoformat (d : date) : string :=
  String (digit_char (year d / 1000)) (String (digit_char (year d / 100))
    (String (digit_char (year d / 10)) (String (digit_char (year d))
      (String dash (String (digit_char (month d / 10)) (String (digit_char (month d))
        (String dash (String (digit_char (day d / 10)) (String (digit_char (day d))
          EmptyString))))))))).

(** [d1 < d2] *)
Definition date_ltb (a b : date) : bool :=
  (year a <? year b)
  || (year a =? year b) && ((month a <? month b)
                            || (month a =? month b) && (day a <? day b)).

(** [d + datetime.timedelta(days=1)]; past 9999-12-31 Python raises
    [OverflowError]. *)
Definition next_day (d : date) : option date :=
  if day d <? days_in_month (year d) (month d)
  then Some (Date (year d) (month d) (day d + 1))
  else if month d <? 12 then Some (Date (year d) (month d + 1) 1)
  else if year d <? 9999 then Some (Date (year d + 1) 1 1)
  else None.

(** *** [date.fromisoformat], as of CPython 3.11

    Besides [YYYY-MM-DD] it reads [YYYYMMDD] and the week dates [YYYY-Www],
    [YYYY-Www-D], [YYYYWww] and [YYYYWwwD].  The text must take 7, 8 or 10
    bytes in UTF-8; with 10 bytes, what follows a date without dashes is not
    looked at. *)

(** [d] if the date constructor accepts it. *)
Definition checked (d : date) : option date :=
  if valid_date d then Some d else None.

Fixpoint utf8_length (s : string) : Z :=
  match s with
  | EmptyString => 0
  | String c s' => (if (N_of_ascii c <? 128)%N then 1 else 2) + utf8_length s'
  end.

Definition digits2 (a b : ascii) : option Z :=
  match digit_of a, digit_of b with
  | Some x, Some y => Some (10 * x + y)
  | _, _ => None
  end.

(** The days of the year before the first of month [m], leap day apart. *)
Definition days_before_month (m : Z) : Z :=
  match m with
  | 2 => 31 | 3 => 59 | 4 => 90 | 5 => 120 | 6 => 151 | 7 => 181
  | 8 => 212 | 9 => 243 | 10 => 273 | 11 => 304 | 12 => 334
  | _ => 0
  end.

(** The days before January 1st of year [y]; the divisions are those of C,
    which matters for the year 0 only. *)
Definition days_before_year (y : Z) : Z :=
  let y := y - 1 in
  y * 365 + Z.quot y 4 - Z.quot y 100 + Z.quot y 400.

(** The ordinal of January 1st of year [y]; 0001-01-01 has ordinal 1. *)
Definition first_ordinal (y : Z) : Z := days_before_year y + 1.

(** The day of the week of January 1st of year [y], Monday being 0. *)
Definition first_weekday (y : Z) : Z := Z.rem (first_ordinal y + 6) 7.

(** The date with ordinal [ordinal], for [1 <= ordinal]. *)
Definition ord_to_ymd (ordinal : Z) : date :=
  let n := ordinal - 1 in
  let n400 := n / 146097 in
  let n := n mod 146097 in
  let n100 := n / 36524 in
  let n := n mod 36524 in
  let n4 := n / 1461 in
  let n := n mod 1461 in
  let n1 := n / 365 in
  let n := n mod 365 in
  let y := n400 * 400 + 1 + n100 * 100 + n4 * 4 + n1 in
  if (n1 =? 4) || (n100 =? 4) then Date (y - 1) 12 31
  else
    let leapyear := (n1 =? 3) && (negb (n4 =? 24) || (n100 =? 3)) in
    let m := Z.shiftr (n + 50) 5 in
    let preceding :=
      days_before_month m + (if (2 <? m) && leapyear then 1 else 0) in
    if n <? preceding
    then Date y (m - 1) (n - (preceding - days_in_month y (m - 1)) + 1)
    else Date y m (n - preceding + 1).

(** The date of day [iso_day] of week [iso_week] of the ISO year
    [iso_year].  For the year 0 the ordinal is not positive, and the month
    C computes from it is refused by the date constructor. *)
Definition iso_to_ymd (iso_year iso_week iso_day : Z) : option date :=
  let long_year :=
    (first_weekday iso_year =? 3)
    || (first_weekday iso_year =? 2) && is_leap iso_year in
  if (iso_week <=? 0) || (54 <=? iso_week) || (iso_week =? 53) && negb long_year
  then None
  else if (iso_day <=? 0) || (8 <=? iso_day) then None
  else
    let week1_monday :=
      first_ordinal iso_year - first_weekday iso_year
      + (if 3 <? first_weekday iso_year then 7 else 0) in
    let ordinal := week1_monday + (iso_week - 1) * 7 + iso_day - 1 in
    if ordinal <? 1 then None else Some (ord_to_ymd ordinal).

(** [r] after a dash, when one is expected. *)
Definition after_dash (sep : bool) (r : string) : option string :=
  if sep
  then match r with
       | String c r' => if Ascii.eqb c dash then Some r' else None
       | EmptyString => None
       end
  else Some r.

(** What follows the year: [len] is the length of the whole text in bytes,
    [sep] says whether a dash followed the year. *)
Definition iso_fields (len y : Z) (sep : bool) (r : string) : option date :=
  match r with
  | String c1 (String c2 (String c3 r3)) =>
      if Ascii.eqb c1 "W"
      then match digits2 c2 c3 with
           | Some wk =>
               if (if sep then 8 else 7) <? len
               then match after_dash sep r3 with
                    | Some (String d1 _) =>
                        match digit_of d1 with
                        | Some d => iso_to_ymd y wk d
                        | None => None
                        end
                    | _ => None
                    end
               else iso_to_ymd y wk 1
           | None => None
           end
      else match digits2 c1 c2 with
           | Some m =>
               match after_dash sep (String c3 r3) with
               | Some (String d1 (String d2 _)) =>
                   match digits2 d1 d2 with
                   | Some d => Some (Date y m d)
                   | None => None
                   end
               | _ => None
               end
           | None => None
           end
  | _ => None
  end.

Definition fromisoformat (s : string) : option date :=
  let len := utf8_length s in
  if (len =? 7) || (len =? 8) || (len =? 10)
  then match s with
       | String y1 (String y2 (String y3 (String y4 r))) =>
           match digits2 y1 y2, digits2 y3 y4 with
           | Some a, Some b =>
               match match r with
                     | String c r' =>
                         if Ascii.eqb c dash
                         then iso_fields len (100 * a + b) true r'
                         else iso_fields len (100 * a + b) false r
                     | EmptyString => None
                     end
               with
               | Some d => checked d
               | None => None
               end
           | _, _ => None
           end
       | _ => None
       end
  else None.

End Calendar.
Import Calendar.
Arguments fromisoformat : simpl never.


(** ** The world a command runs in *)

(** What [json.load] makes of a file: the bytes are not UTF-8 text, the
    text is not JSON, or a JSON document.  [json.dump] followed by
    [json.load] is the identity on the values of [json], so a written file
    is identified with the value written. *)
Inductive content : Type :=
| NotText
| NotJson
| Doc (v : json).

(** A row of the table [cmd_list] prints. *)
Record row : Type := Row {
  r_id : json; r_check : bool; r_title : json;
  r_priority : json; r_due : json; r_overdue : bool }.

(** What the program prints, one constructor per [print] call. *)
Inductive event : Type :=
| Added (id title : json)
| Completed (id title : json)
| Reopened (id title : json)
| Deleted (id title : json)
| Updated (id : json) (changed : list string)
| NoChanges
| Removed (n : Z)
| Table (rows : list row)
| ItemsLeft (remaining : nat)
| Exported (n : nat) (path : string)
| Imported (n : nat).

(** [fs]: the files by path.  [saved]: the arguments of the calls of [save],
    oldest first.  [clock], [ticks]: what successive calls of [time.time()]
    return, and how many were made.  [uuids], [draws]: the same for
    [uuid.uuid4().hex[:8]].  [today]: the current date.  [out]: standard
    output. *)
Record world : Type := World {
  fs : gmap string content;
  saved : list (list json);
  clock : nat -> Z;
  ticks : nat;
  uuids : nat -> string;
  draws : nat;
  today : date;
  out : list event }.

Definition STORE_FILE : string := "tasks.json".
Definition PRIORITIES : list string := ["high"; "normal"; "low"].

(** *** Commands: state over [world], failure as in [exc] *)
Definition M (A : Type) : Type := world -> exc A * world.

Definition ret {A} (a : A) : M A := fun w => (Ok a, w).

Definition bind {A B} (m : M A) (f : A -> M B) : M B :=
  fun w =>
    match m w with
    | (Ok a, w') => f a w'
    | (Exit s, w') => (Exit s, w')
    | (Raise e, w') => (Raise e, w')
    end.

Definition lift {A} (r : exc A) : M A := fun w => (r, w).

(** [sys.exit(msg)] *)
Definition sys_exit {A} (msg : string) : M A := fun w => (Exit msg, w).

Declare Scope cmd_scope.
Delimit Scope cmd_scope with cmd.
Notation "x <- m ;; k" := (bind m (fun x => k))
  (at level 100, m at next level, right associativity) : cmd_scope.
Notation "' pat <- m ;; k" := (bind m (fun x => match x with pat => k end))
  (at level 20, pat pattern, m at level 99, k at level 200) : cmd_scope.
Notation "m ;;; k" := (bind m (fun _ => k))
  (at level 100, right associativity) : cmd_scope.

Definition now_ts : M Z :=
  fun w => (Ok (clock w (ticks w)),
            World (fs w) (saved w) (clock w) (S (ticks w)) (uuids w) (draws w)
                  (today w) (out w)).

Definition today_date : M date := fun w => (Ok (today w), w).

Definition short_id : M string :=
  fun w => (Ok (uuids w (draws w)),
            World (fs w) (saved w) (clock w) (ticks w) (uuids w) (S (draws w))
                  (today w) (out w)).

Definition print (e : event) : M unit :=
  fun w => (Ok tt,
            World (fs w) (saved w) (clock w) (ticks w) (uuids w) (draws w)
                  (today w) (out w ++ [e])).

(** [json.dump(items, open(path, "w"))] *)
Definition write_json (path : string) (items : list json) : M unit :=
  fun w => (Ok tt,
            World (<[path := Doc (JArr items)]> (fs w)) (saved w) (clock w)
                  (ticks w) (uuids w) (draws w) (today w) (out w)).

Definition log_save (items : list json) : M unit :=
  fun w => (Ok tt,
            World (fs w) (saved w ++ [items]) (clock w) (ticks w) (uuids w)
                  (draws w) (today w) (out w)).

(** [json.load(open(path))] of a file that exists *)
Definition json_load (c : content) : exc json :=
  match c with
  | NotText => Raise UnicodeDecodeError
  | NotJson => Raise JSONDecodeError
  | Doc v => Ok v
  end.

Definition corrupt_msg : string := "Corrupt tasks.json. Fix or delete the file.".

Definition load : M (list json) := fun w =>
  match fs w !! STORE_FILE with
  | None => (Ok [], w)
  | Some c =>
      match json_load c with
      | Ok (JArr l) => (Ok l, w)
      | Ok _ => (Ok [], w)
      | Raise JSONDecodeError => (Exit corrupt_msg, w)
      | Raise e => (Raise e, w)
      | Exit s => (Exit s, w)
      end
  end.

Definition save (items : list json) : M unit :=
  (log_save items ;;; write_json STORE_FILE items)%cmd.

(** ** Identifier resolution, ranking, overdue test *)

(** [[x for x in l if p(x)]], where [p] may raise. *)
Fixpoint filter_exc {A} (p : A -> exc bool) (l : list A) : exc (list A) :=
  match l with
  | [] => Ok []
  | x :: l' =>
      b <- p x ;;
      r <- filter_exc p l' ;;
      Ok (if b then x :: r else r)
  end.

(** [[f(x) for x in l]], where [f] may raise. *)
Fixpoint map_exc {A B} (f : A -> exc B) (l : list A) : exc (list B) :=
  match l with
  | [] => Ok []
  | x :: l' =>
      y <- f x ;;
      r <- map_exc f l' ;;
      Ok (y :: r)
  end.

(** [next((t for t in items if t["id"].startswith(tid)), None)].  Python
    hands back a reference to the dict inside [items]; the embedding hands
    back the position with the dict, so that the caller's assignments to
    [t] can be written back to that position.  [i] is the position of the
    head of [items] in the whole collection. *)
Fixpoint find_from (i : nat) (items : list json) (tid : string)
  : exc (option (nat * json)) :=
  match items with
  | [] => Ok None
  | t :: rest =>
      v <- subscript t "id" ;;
      b <- startswith v tid ;;
      if b then Ok (Some (i, t)) else find_from (S i) rest tid
  end.

Definition find (items : list json) (tid : string) : exc (option (nat * json)) :=
  find_from 0 items tid.

Definition order : list (string * Z) := [("high", 0); ("normal", 1); ("low", 2)].

Fixpoint assoc (m : list (string * Z)) (k : string) : option Z :=
  match m with
  | [] => None
  | (k', v) :: m' => if String.eqb k' k then Some v else assoc m' k
  end.

(** [order.get(p, 1)]; a list or a dict is unhashable. *)
Definition pri_rank (p : json) : exc Z :=
  match p with
  | JStr s => Ok (default 1 (assoc order s))
  | JArr _ | JObj _ => Raise TypeError
  | _ => Ok 1
  end.

Definition is_overdue (today : date) (due_iso completed : json) : exc bool :=
  if negb (truthy due_iso) || truthy completed then Ok false
  else match due_iso with
       | JStr s => match fromisoformat s with
                   | Some d => Ok (date_ltb d today)
                   | None => Raise ValueError
                   end
       | _ => Raise TypeError
       end.

(** ** Sorting *)

(** [sorted] is specified as a stable sort; the embedding is the stable
    insertion sort on the list decorated with its keys.  With [reverse=True]
    CPython reverses, sorts and reverses again, which keeps equal keys in
    their original order. *)
Section Sorted.
Context {K : Type} (ltb : K -> K -> bool).

Fixpoint insert_key (x : K * json) (l : list (K * json)) : list (K * json) :=
  match l with
  | [] => [x]
  | y :: l' => if ltb (fst y) (fst x) then y :: insert_key x l' else x :: l
  end.

Fixpoint isort (l : list (K * json)) : list (K * json) :=
  match l with
  | [] => []
  | x :: l' => insert_key x (isort l')
  end.

Definition decorate (key : json -> exc K) (items : list json)
  : exc (list (K * json)) :=
  map_exc (fun t => k <- key t ;; Ok (k, t)) items.

Definition sorted (key : json -> exc K) (reverse : bool) (items : list json)
  : exc (list json) :=
  d <- decorate key items ;;
  Ok (map snd (if reverse then rev (isort (rev d)) else isort d)).
End Sorted.

Definition sentinel : string := "9999-99-99".

(** [<] on the key tuples. *)
Definition key_pri_ltb (a b : Z * string * Z) : bool :=
  let '(a1, a2, a3) := a in
  let '(b1, b2, b3) := b in
  (a1 <? b1) || (a1 =? b1) && (String.ltb a2 b2 || String.eqb a2 b2 && (a3 <? b3)).

Definition key_due_ltb (a b : string * Z * Z) : bool :=
  let '(a1, a2, a3) := a in
  let '(b1, b2, b3) := b in
  String.ltb a1 b1 || String.eqb a1 b1 && ((a2 <? b2) || (a2 =? b2) && (a3 <? b3)).

(** [t.get("due") or "9999-99-99"], for a due date that is falsy or a
    text, which is what the program writes.  Python takes any value as the
    key and raises [TypeError] only when the sort has to order a text
    against a number, a list or a dict; the embedding follows it on the
    collections whose due dates are falsy or texts, and on the others stops
    with [TypeError] at the first record that has another due date. *)
Definition due_key (t : json) : exc string :=
  v <- get t "due" JNull ;;
  if truthy v then match v with JStr s => Ok s | _ => Raise TypeError end
  else Ok sentinel.

(** [t["created_at"]] as a number ([bool] is an [int]).  Under the unary
    minus of the two tuple keys anything else is a [TypeError] in Python
    too.  As the bare key of the creation-time sort Python also orders
    texts, and lists, among themselves; the embedding follows it on the
    collections whose creation times are numbers, and on the others stops
    with [TypeError] at the first record that has another one. *)
Definition created_at (t : json) : exc Z :=
  v <- subscript t "created_at" ;;
  match v with
  | JNum z => Ok z
  | JBool b => Ok (if b then 1 else 0)
  | _ => Raise TypeError
  end.

Definition key_priority (t : json) : exc (Z * string * Z) :=
  p <- subscript t "priority" ;;
  r <- pri_rank p ;;
  d <- due_key t ;;
  c <- created_at t ;;
  Ok (r, d, - c).

Definition key_due (t : json) : exc (string * Z * Z) :=
  d <- due_key t ;;
  p <- subscript t "priority" ;;
  r <- pri_rank p ;;
  c <- created_at t ;;
  Ok (d, r, - c).

(** ** The query engine *)

Definition keep_active (t : json) : exc bool :=
  c <- subscript t "completed" ;; Ok (negb (truthy c)).

Definition keep_completed (t : json) : exc bool :=
  c <- subscript t "completed" ;; Ok (truthy c).

Definition keep_matching (ql : string) (t : json) : exc bool :=
  v <- subscript t "title" ;;
  tl <- lower_of v ;;
  Ok (contains tl ql).

Definition keep_overdue (today : date) (t : json) : exc bool :=
  d <- subscript t "due" ;;
  c <- subscript t "completed" ;;
  is_overdue today d c.

(** The three filters of [filtered_sorted], in source order.  [today] is
    what [today_date()] returns during the call. *)
Definition filter_stage (today : date) (items : list json)
    (show q : string) (overdue_only : bool) : exc (list json) :=
  items <- (if String.eqb show "active" then filter_exc keep_active items
            else if String.eqb show "completed" then filter_exc keep_completed items
            else Ok items) ;;
  items <- (if negb (String.eqb q "")
            then filter_exc (keep_matching (lower q)) items
            else Ok items) ;;
  (if overdue_only then filter_exc (keep_overdue today) items
   else Ok items).

(** The [sorted] call chosen by [sort_key]. *)
Definition sort_stage (items : list json) (sort_key : string) : exc (list json) :=
  if String.eqb sort_key "priority"
  then sorted key_pri_ltb key_priority false items
  else if String.eqb sort_key "due"
  then sorted key_due_ltb key_due false items
  else sorted Z.ltb created_at true items.

Definition filtered_sorted (today : date) (items : list json)
    (show q sort_key : string) (reverse overdue_only : bool) : exc (list json) :=
  items <- filter_stage today items show q overdue_only ;;
  items <- sort_stage items sort_key ;;
  Ok (if reverse then rev items else items).

(** ** Commands *)

Local Open Scope cmd_scope.

Definition not_found_msg : string := "Task not found.".
Definition title_msg : string := "Title required.".
Definition priority_msg : string := "Priority must be one of high, normal, low.".
Definition import_missing_msg : string := "Import file not found.".
Definition import_format_msg : string := "Invalid import file format.".

Definition date_msg (s : string) : string :=
  ("Invalid date '" ++ s ++ "'. Use YYYY-MM-DD, 'today', or 'tomorrow'.")%string.

Definition in_priorities (p : string) : bool :=
  existsb (String.eqb p) PRIORITIES.

Definition opt_str (o : option string) : json :=
  match o with Some s => JStr s | None => JNull end.

Definition parse_date (s : option string) : M (option string) :=
  match s with
  | None => ret None
  | Some s =>
      if String.eqb s "" then ret None
      else if String.eqb (lower s) "today" then
        d <- today_date ;; ret (Some (isoformat d))
      else if String.eqb (lower s) "tomorrow" then
        d <- today_date ;;
        match next_day d with
        | Some d' => ret (Some (isoformat d'))
        | None => lift (Raise OverflowError)
        end
      else match fromisoformat s with
           | Some d => ret (Some (isoformat d))
           | None => sys_exit (date_msg s)
           end
  end.

(** [cmd_add]: [title] is the list [args.title], [priority] and [due] are
    [args.priority] and [args.due]. *)
Definition cmd_add (title : list string) (priority : string) (due : option string)
  : M unit :=
  items <- load ;;
  let title := strip (join " " title) in
  if String.eqb title "" then sys_exit title_msg else
  let p := lower priority in
  if negb (in_priorities p) then sys_exit priority_msg else
  due <- parse_date due ;;
  tid <- short_id ;;
  now <- now_ts ;;
  let task := JObj [("id", JStr tid); ("title", JStr title); ("priority", JStr p);
                    ("due", opt_str due); ("completed", JBool false);
                    ("created_at", JNum now); ("completed_at", JNull)] in
  let items := (items ++ [task])%list in
  save items ;;;
  print (Added (JStr tid) (JStr title)).

Definition fmt_date (iso : json) : json :=
  if negb (truthy iso) then JStr "" else iso.

(** The row [cmd_list] builds for one task, its six cells evaluated in
    source order. *)
Definition table_row (today : date) (t : json) : exc row :=
  (i <- subscript t "id" ;;
   c <- subscript t "completed" ;;
   ti <- subscript t "title" ;;
   p <- subscript t "priority" ;;
   d <- subscript t "due" ;;
   d' <- subscript t "due" ;;
   c' <- subscript t "completed" ;;
   o <- is_overdue today d' c' ;;
   Ok (Row i (truthy c) ti p (fmt_date d) o))%py.

Record list_args : Type := ListArgs {
  show : string; query : string; sort : string;
  reverse : bool; overdue : bool }.

(** [cmd_list]; [print_table] is kept as the event [Table]. *)
Definition cmd_list (args : list_args) : M unit :=
  items <- load ;;
  now <- today_date ;;
  items <- lift (filtered_sorted now items (show args) (query args) (sort args)
                                 (reverse args) (overdue args)) ;;
  rows <- lift (map_exc (table_row now) items) ;;
  print (Table rows) ;;;
  again <- load ;;
  left <- lift (filter_exc keep_active again) ;;
  print (ItemsLeft (length left)).

(** The guard [if not t: sys.exit(...)] of the four commands that take an
    id: [t] is [None], or a dict that is empty. *)
Definition resolve (items : list json) (tid : string) : M (nat * json) :=
  r <- lift (find items tid) ;;
  match r with
  | None => sys_exit not_found_msg
  | Some (i, t) => if truthy t then ret (i, t) else sys_exit not_found_msg
  end.

(** [cmd_done].  The two assignments to [t] change the dict inside
    [items]; here they build the new dict, which is written back to its
    position before [save]. *)
Definition cmd_done (tid : string) : M unit :=
  items <- load ;;
  '(i, t) <- resolve items tid ;;
  t <- lift (setitem t "completed" (JBool true)) ;;
  now <- now_ts ;;
  t <- lift (setitem t "completed_at" (JNum now)) ;;
  save (<[i := t]> items) ;;;
  id <- lift (subscript t "id") ;;
  title <- lift (subscript t "title") ;;
  print (Completed id title).

Definition cmd_undo (tid : string) : M unit :=
  items <- load ;;
  '(i, t) <- resolve items tid ;;
  t <- lift (setitem t "completed" (JBool false)) ;;
  t <- lift (setitem t "completed_at" JNull) ;;
  save (<[i := t]> items) ;;;
  id <- lift (subscript t "id") ;;
  title <- lift (subscript t "title") ;;
  print (Reopened id title).

(** [x["id"] != t["id"]] *)
Definition other_id (t : json) (x : json) : exc bool :=
  (a <- subscript x "id" ;;
   b <- subscript t "id" ;;
   Ok (negb (py_eq a b)))%py.

Definition cmd_delete (tid : string) : M unit :=
  items <- load ;;
  '(i, t) <- resolve items tid ;;
  items <- lift (filter_exc (other_id t) items) ;;
  save items ;;;
  id <- lift (subscript t "id") ;;
  title <- lift (subscript t "title") ;;
  print (Deleted id title).

Record edit_args : Type := EditArgs {
  e_id : string;
  e_title : option (list string);
  e_priority : option string;
  e_due : option string;
  e_clear_due : bool }.

(** [if args.title:] and [if args.priority:], the truth of an optional
    argument. *)
Definition given_list (o : option (list string)) : bool :=
  match o with Some (_ :: _) => true | _ => false end.

Definition given_str (o : option string) : bool :=
  match o with Some s => negb (String.eqb s "") | None => false end.

(** [cmd_edit].  Each of the four [if] blocks hands on the dict and the
    list [changed]; an exit inside a block loses the assignments made so
    far, as nothing was saved. *)
Definition cmd_edit (args : edit_args) : M unit :=
  items <- load ;;
  '(i, t) <- resolve items (e_id args) ;;
  let changed := [] in
  '(t, changed) <-
    (if given_list (e_title args) then
       t <- lift (setitem t "title"
                    (JStr (strip (join " " (default [] (e_title args)))))) ;;
       ret (t, changed ++ ["title"])%list
     else ret (t, changed)) ;;
  '(t, changed) <-
    (if given_str (e_priority args) then
       let p := lower (default "" (e_priority args)) in
       if negb (in_priorities p) then sys_exit priority_msg else
       t <- lift (setitem t "priority" (JStr p)) ;;
       ret (t, changed ++ ["priority"])%list
     else ret (t, changed)) ;;
  '(t, changed) <-
    (match e_due args with
     | Some s =>
         d <- parse_date (Some s) ;;
         t <- lift (setitem t "due" (opt_str d)) ;;
         ret (t, changed ++ ["due"])%list
     | None => ret (t, changed)
     end) ;;
  '(t, changed) <-
    (if e_clear_due args then
       t <- lift (setitem t "due" JNull) ;;
       ret (t, changed ++ ["due"])%list
     else ret (t, changed)) ;;
  save (<[i := t]> items) ;;;
  match changed with
  | [] => print NoChanges
  | _ => id <- lift (subscript t "id") ;; print (Updated id changed)
  end.

Definition cmd_clear_completed : M unit :=
  items <- load ;;
  let before := length items in
  items <- lift (filter_exc keep_active items) ;;
  save items ;;;
  print (Removed (Z.of_nat before - Z.of_nat (length items))).

(** [cmd_search] fills in the four attributes the [search] sub-parser does
    not define and hands the namespace, which holds the query, to
    [cmd_list]. *)
Definition cmd_search (q : string) : M unit :=
  let args := ListArgs "all" q "priority" false false in
  cmd_list args.

Definition cmd_export (path : option string) : M unit :=
  items <- load ;;
  let path := if given_str path then default "" path else "tasks_export.json" in
  write_json path items ;;;
  print (Exported (length items) path).

(** [int(v)] on the text of a [str], as CPython 3.11 reads it: white space
    around, a sign, decimal digits with single underscores between them, at
    most 4300 digits.  The white space of [int] is not that of [str.strip]:
    the separators U+001C to U+001F are no white space here. *)
Definition int_space (c : ascii) : bool :=
  let n := code c in
  ((9 <=? n) && (n <=? 13) || (n =? 32) || (n =? 133) || (n =? 160))%N.

Fixpoint int_lstrip (s : string) : string :=
  match s with
  | EmptyString => EmptyString
  | String c s' => if int_space c then int_lstrip s' else s
  end.

Fixpoint int_rstrip (s : string) : string :=
  match s with
  | EmptyString => EmptyString
  | String c s' =>
      match int_rstrip s' with
      | EmptyString => if int_space c then EmptyString else String c EmptyString
      | r => String c r
      end
  end.

Fixpoint digits_value (s : string) (acc : Z) (after_digit : bool) : option Z :=
  match s with
  | EmptyString => if after_digit then Some acc else None
  | String c s' =>
      match digit_of c with
      | Some d => digits_value s' (10 * acc + d) true
      | None => if Ascii.eqb c "_" && after_digit
                then digits_value s' acc false else None
      end
  end.

(** The number of digits in [s]. *)
Fixpoint digit_count (s : string) : Z :=
  match s with
  | EmptyString => 0
  | String c s' => match digit_of c with Some _ => 1 | None => 0 end + digit_count s'
  end.

(** [sys.int_info.default_max_str_digits] *)
Definition max_str_digits : Z := 4300.

Definition int_of_str (s : string) : option Z :=
  let r := int_rstrip (int_lstrip s) in
  if max_str_digits <? digit_count r then None
  else match r with
       | String "+" r => digits_value r 0 false
       | String "-" r => Z.opp <$> digits_value r 0 false
       | r => digits_value r 0 false
       end.

(** [int(v)] *)
Definition py_int (v : json) : exc Z :=
  match v with
  | JNum z => Ok z
  | JBool b => Ok (if b then 1 else 0)
  | JStr s => match int_of_str s with
              | Some z => Ok z
              | None => Raise ValueError
              end
  | _ => Raise TypeError
  end.

(** [v in PRIORITIES] *)
Definition is_priority (v : json) : bool :=
  existsb (fun p => py_eq v (JStr p)) PRIORITIES.

(** The dict literal in the loop of [cmd_import], evaluated in source
    order.  The default of [t.get("created_at", now_ts())] is an argument,
    so the clock is read for every record. *)
Definition import_record (t : json) : M json :=
  tid <- short_id ;;
  title <- lift (get t "title" (JStr "Untitled")) ;;
  p <- lift (get t "priority" JNull) ;;
  priority <- (if is_priority p then
                 p' <- lift (get t "priority" JNull) ;;
                 ret (if truthy p' then p' else JStr "normal")
               else ret (JStr "normal")) ;;
  due <- lift (get t "due" JNull) ;;
  c <- lift (get t "completed" (JBool false)) ;;
  now <- now_ts ;;
  ca <- lift (get t "created_at" (JNum now)) ;;
  created <- lift (py_int ca) ;;
  cat <- lift (get t "completed_at" JNull) ;;
  ret (JObj [("id", JStr tid); ("title", title); ("priority", priority);
             ("due", due); ("completed", JBool (truthy c));
             ("created_at", JNum created); ("completed_at", cat)]).

Fixpoint import_all (data : list json) (items : list json) : M (list json) :=
  match data with
  | [] => ret items
  | t :: rest =>
      r <- import_record t ;;
      import_all rest (items ++ [r])%list
  end.

Definition file_at (path : string) : M (option content) :=
  fun w => (Ok (fs w !! path), w).

Definition cmd_import (path : string) : M unit :=
  f <- file_at path ;;
  match f with
  | None => sys_exit import_missing_msg
  | Some c =>
      data <- lift (json_load c) ;;
      match data with
      | JArr data =>
          items <- load ;;
          items <- import_all data items ;;
          save items ;;;
          print (Imported (length data))
      | _ => sys_exit import_format_msg
      end
  end.

(** One invocation of the program, after [argparse]. *)
Inductive command : Type :=
| Add (title : list string) (priority : string) (due : option string)
| List (args : list_args)
| Done (id : string)
| Undo (id : string)
| Delete (id : string)
| Edit (args : edit_args)
| ClearCompleted
| Search (q : string)
| Export (path : option string)
| Import (path : string).

Definition run (c : command) : M unit :=
  match c with
  | Add title priority due => cmd_add title priority due
  | List args => cmd_list args
  | Done id => cmd_done id
  | Undo id => cmd_undo id
  | Delete id => cmd_delete id
  | Edit args => cmd_edit args
  | ClearCompleted => cmd_clear_completed
  | Search q => cmd_search q
  | Export path => cmd_export path
  | Import path => cmd_import path
  end.

Local Close Scope cmd_scope.

(** ** Task-shaped records and a sample store *)

(** The record of section 6 of the specification: the seven fields with
    their types.  The priority is any string; whether it is one of
    [PRIORITIES] is [valid_priority]. *)
Definition task_shaped (t : json) : bool :=
  match t with
  | JObj m =>
      match dict_get m "id", dict_get m "title", dict_get m "priority",
            dict_get m "due", dict_get m "completed", dict_get m "created_at",
            dict_get m "completed_at" with
      | Some (JStr _), Some (JStr _), Some (JStr _), Some due,
        Some (JBool _), Some (JNum _), Some done_at =>
          match due with
          | JNull => true
          | JStr s => bool_decide (is_Some (date_of_iso s))
          | _ => false
          end
          && match done_at with JNull | JNum _ => true | _ => false end
      | _, _, _, _, _, _, _ => false
      end
  | _ => false
  end.

Definition valid_priority (t : json) : bool :=
  match subscript t "priority" with
  | Ok (JStr p) => in_priorities p
  | _ => false
  end.

(** [file] parses as a JSON array of task-shaped records. *)
Definition task_array (file : content) : bool :=
  match file with
  | Doc (JArr l) => forallb task_shaped l
  | _ => false
  end.

Definition task (id title priority : string) (due : option string)
    (completed : bool) (created : Z) (done_at : option Z) : json :=
  JObj [("id", JStr id); ("title", JStr title); ("priority", JStr priority);
        ("due", opt_str due); ("completed", JBool completed);
        ("created_at", JNum created);
        ("completed_at", match done_at with Some z => JNum z | None => JNull end)].

Definition sample_first : json :=
  task "ab12cd34" "Buy milk" "high" (Some "2024-01-01") false 1700000010 None.

Definition sample_rest : list json :=
  [ task "ab34ef56" "Walk dog" "low" None false 1700000020 None;
    task "cd56ab78" "Read" "normal" (Some "2023-12-01") true 1700000030
         (Some 1700000040) ].

Definition sample_items : list json := sample_first :: sample_rest.

Definition sample_uuids (n : nat) : string :=
  match n with
  | O => "a1b2c3d4"
  | S O => "0f9e8d7c"
  | _ => "deadbeef"
  end.

Definition sample_clock (n : nat) : Z := Z.of_nat n + 1700000100.


(** A world with the given files, a ticking clock and nothing printed. *)
Definition sample_world (files : gmap string content) : world :=
  World files [] sample_clock 0 sample_uuids 0 (Date 2024 1 15) [].

Definition store_with (items : list json) : gmap string content :=
  {[ STORE_FILE := Doc (JArr items) ]}.

(** ** What a command may do to the store, and how it may fail *)

Section Effects.
Context {A : Type}.
Implicit Types m : M A.

(** [m] neither writes a file nor calls [save]. *)
Definition quiet m : Prop :=
  forall w, fs (snd (m w)) = fs w /\ saved (snd (m w)) = saved w.

(** [m] never leaves through [sys.exit]. *)
Definition exitless m : Prop := forall w msg, fst (m w) <> Exit msg.

(** [m] always returns. *)
Definition unfailing m : Prop := forall w, failed (fst (m w)) = false.

(** When [m] leaves through [sys.exit], the message satisfies [P]. *)
Definition exits_only (P : string -> Prop) m : Prop :=
  forall w msg, fst (m w) = Exit msg -> P msg.

(** When [m] leaves through [sys.exit], no file was written and [save]
    was not called. *)
Definition exit_safe m : Prop :=
  forall w msg, fst (m w) = Exit msg ->
                fs (snd (m w)) = fs w /\ saved (snd (m w)) = saved w.

(** The same for every failure, uncaught exceptions included. *)
Definition fail_safe m : Prop :=
  forall w, failed (fst (m w)) = true ->
            fs (snd (m w)) = fs w /\ saved (snd (m w)) = saved w.
End Effects.

(** ** Reading a record *)

(** The record carries a string id. *)
Definition has_id (t : json) : bool :=
  match subscript t "id" with
  | Ok (JStr _) => true
  | _ => false
  end.

(** The id of the record starts with [tid]. *)
Definition id_matches (tid : string) (t : json) : bool :=
  match subscript t "id" with
  | Ok (JStr s) => str_startswith s tid
  | _ => false
  end.

(** [t[k]], with [null] for what [subscript] cannot read. *)
Definition field (t : json) (k : string) : json :=
  match subscript t k with
  | Ok v => v
  | _ => JNull
  end.

(** What [cmd_done] and [cmd_undo] leave of the dict they resolved. *)
Definition mark_done (now : Z) (m : list (string * json)) : json :=
  JObj (dict_set (dict_set m "completed" (JBool true)) "completed_at" (JNum now)).

Definition mark_open (m : list (string * json)) : json :=
  JObj (dict_set (dict_set m "completed" (JBool false)) "completed_at" JNull).

(** ** What an import makes of a record *)

(** [int(t.get("created_at", now))] for the dict [m]. *)
Definition created_of_import (now : Z) (m : list (string * json)) : exc Z :=
  match dict_get m "created_at" with
  | None => Ok now
  | Some v => py_int v
  end.

(** The task of section 4.4 of the specification for the import record [m]:
    the generated id, the title or "Untitled", the priority or "normal", not
    completed unless the record says so, the record's due date and
    completion time. *)
Definition imported_task (tid : string) (created : Z) (m : list (string * json))
  : json :=
  JObj [("id", JStr tid);
        ("title", default (JStr "Untitled") (dict_get m "title"));
        ("priority", match dict_get m "priority" with
                     | Some (JStr p) => if in_priorities p then JStr p
                                        else JStr "normal"
                     | _ => JStr "normal"
                     end);
        ("due", default JNull (dict_get m "due"));
        ("completed", JBool (match dict_get m "completed" with
                             | Some v => truthy v
                             | None => false
                             end));
        ("created_at", JNum created);
        ("completed_at", default JNull (dict_get m "completed_at"))].

(** A record [cmd_import] can convert: an object whose [created_at], when
    present, is accepted by [int]. *)
Definition importable (t : json) : bool :=
  match t with
  | JObj m => match dict_get m "created_at" with
              | Some v => negb (failed (py_int v))
              | None => true
              end
  | _ => false
  end.

(** The world after [n] more ids were drawn and the clock was read [n] more
    times. *)
Definition advance (n : nat) (w : world) : world :=
  World (fs w) (saved w) (clock w) (ticks w + n) (uuids w) (draws w + n)
        (today w) (out w).

(** ** Orders *)

(** [ltb] decides a strict total order. *)
Record strict_total {K : Type} (ltb : K -> K -> bool) : Prop := StrictTotal {
  st_irrefl : forall a, ltb a a = false;
  st_trans : forall a b c, ltb a b = true -> ltb b c = true -> ltb a c = true;
  st_total : forall a b, ltb a b = false -> ltb b a = false -> a = b }.

(** [<] on pairs, as Python compares tuples. *)
Definition lexb {K1 K2 : Type} (ltb1 eqb1 : K1 -> K1 -> bool)
    (ltb2 : K2 -> K2 -> bool) (a b : K1 * K2) : bool :=
  ltb1 (fst a) (fst b) || eqb1 (fst a) (fst b) && ltb2 (snd a) (snd b).

(** The key of [p] is neither before nor after [k]. *)
Definition same_key {K : Type} (ltb : K -> K -> bool) (k : K) (p : K * json) : bool :=
  negb (ltb (fst p) k) && negb (ltb k (fst p)).

(** [a] is not after [b]. *)
Definition not_after {K : Type} (ltb : K -> K -> bool) (a b : K * json) : Prop :=
  ltb (fst b) (fst a) = false.

(** ** The order the specification gives for sort=priority *)

Definition rank_of (t : json) : Z :=
  match pri_rank (field t "priority") with
  | Ok r => r
  | _ => 1
  end.

Definition due_of (t : json) : option date :=
  match field t "due" with
  | JStr s => date_of_iso s
  | _ => None
  end.

Definition created_of (t : json) : Z :=
  match field t "created_at" with
  | JNum z => z
  | _ => 0
  end.

(** Earlier due date first; a task with no due date after every task that
    has one. *)
Definition due_before (a b : option date) : bool :=
  match a, b with
  | Some x, Some y => date_ltb x y
  | Some _, None => true
  | None, _ => false
  end.

(** [a] may stand before [b]: lower rank; or the same rank and an earlier
    due date; or the same rank and due date and [a] not created before
    [b]. *)
Definition priority_order (a b : json) : Prop :=
  rank_of a < rank_of b
  \/ (rank_of a = rank_of b
      /\ (due_before (due_of a) (due_of b) = true
          \/ (due_of a = due_of b /\ created_of b <= created_of a))).

(** The text [YYYY-MM-DD] from its ten characters. *)
Definition iso_text (y1 y2 y3 y4 m1 m2 d1 d2 : ascii) : string :=
  String y1 (String y2 (String y3 (String y4 (String dash
    (String m1 (String m2 (String dash (String d1 (String d2 EmptyString))))))))).

(** The due component of a sort key: the date text, or the sentinel. *)
Definition due_text (t : json) : string :=
  match field t "due" with
  | JStr s => s
  | _ => sentinel
  end.

(** The key [sorted] uses for sort=priority, read off a task-shaped
    record. *)
Definition pri_key (t : json) : Z * string * Z :=
  (rank_of t, due_text t, - created_of t).

(** The key for sort=due. *)
Definition due_sort_key (t : json) : string * Z * Z :=
  (due_text t, rank_of t, - created_of t).

Definition shaped (t : json) : Prop := task_shaped t = true.

(** The record with its priority replaced by "normal" when it is not one
    of [PRIORITIES]. *)
Definition normalize_priority (t : json) : json :=
  match t with
  | JObj m => if valid_priority t then t
              else JObj (dict_set m "priority" (JStr "normal"))
  | _ => t
  end.

Definition fmap_exc {A B} (f : A -> B) (r : exc A) : exc B :=
  match r with
  | Ok a => Ok (f a)
  | Exit s => Exit s
  | Raise e => Raise e
  end.

(** ** What the filters of a listing let through *)

(** [not t["completed"]] holds. *)
Definition open_task (t : json) : Prop :=
  exists c, subscript t "completed" = Ok c /\ truthy c = false.

(** [t["completed"]] holds. *)
Definition completed_task (t : json) : Prop :=
  exists c, subscript t "completed" = Ok c /\ truthy c = true.

(** The title contains the query, both lowered. *)
Definition title_contains (q : string) (t : json) : Prop :=
  exists s, subscript t "title" = Ok (JStr s)
            /\ contains (lower s) (lower q) = true.

(** [ql in t["title"].lower()] for the lowered query, false where the title
    is no text. *)
Definition title_matches (q : string) (t : json) : bool :=
  match subscript t "title" with
  | Ok (JStr s) => contains (lower s) (lower q)
  | _ => false
  end.

(** The task is open and its due date is a date before [now]. *)
Definition overdue_task (now : date) (t : json) : Prop :=
  exists s d, subscript t "due" = Ok (JStr s) /\ fromisoformat s = Some d
              /\ date_ltb d now = true /\ open_task t.

(** ** The orders of the other two sort modes *)

(** [a] may stand before [b] with sort=due: an earlier due date, a missing
    one last; or the same due date and a lower rank; or the same due date
    and rank and [a] not created before [b]. *)
Definition due_order (a b : json) : Prop :=
  due_before (due_of a) (due_of b) = true
  \/ (due_of a = due_of b
      /\ (rank_of a < rank_of b
          \/ (rank_of a = rank_of b /\ created_of b <= created_of a))).

(** [a] was not created before [b]. *)
Definition newest_first (a b : json) : Prop := created_of b <= created_of a.

(** The records created at [c], in the order of the list. *)
Definition created_at_time (c : Z) (l : list json) : list json :=
  List.filter (fun t => created_of t =? c) l.

(** ** Ids, and the records a command removes *)

(** The id of a record, the empty text when it has none. *)
Definition id_of (t : json) : string :=
  match subscript t "id" with
  | Ok (JStr s) => s
  | _ => ""
  end.

(** The record has another id than [s]. *)
Definition id_differs (s : string) (x : json) : bool :=
  negb (String.eqb (id_of x) s).

(** [not t["completed"]], false where the key is missing. *)
Definition is_open (t : json) : bool :=
  match subscript t "completed" with
  | Ok c => negb (truthy c)
  | _ => false
  end.

(** The record has the key [completed]. *)
Definition has_completed (t : json) : bool :=
  match subscript t "completed" with
  | Ok _ => true
  | _ => false
  end.

(** ** The table printer *)

(** [s.ljust(w)] *)
Definition ljust (s : string) (w : nat) : string :=
  s ++ string_of_list_ascii (repeat " "%char (w - String.length s)%nat).

(** ["-" * w] *)
Definition dashes (w : nat) : string :=
  string_of_list_ascii (repeat "-"%char w).

(** [zip] unpacked on [first] followed by [others]: one tuple per
    position, as long as every list has an element there. *)
Fixpoint zip_star (first : list string) (others : list (list string))
  : list (list string) :=
  match first with
  | [] => []
  | x :: first' =>
      match mapM head others with
      | Some hs => (x :: hs) :: zip_star first' (map tail others)
      | None => []
      end
  end.

(** [max(len(str(x)) for x in col)]; [max] of nothing is a [ValueError]. *)
Definition max_len (col : list string) : exc nat :=
  match col with
  | [] => Raise ValueError
  | x :: r => Ok (fold_left Nat.max (map String.length r) (String.length x))
  end.

(** The inner function [line] of [print_table]. *)
Definition line (widths : list nat) (parts : list string) : string :=
  join "  " (zip_with ljust parts widths).

(** [print_table] on cells that are texts; the result is the lines
    printed, in order. *)
Definition print_table (rows : list (list string)) (headers : list string)
  : exc (list string) :=
  let cols := match rows with
              | [] => [headers]
              | _ => zip_star headers rows
              end in
  widths <- map_exc max_len cols ;;
  Ok (line widths headers
      :: line widths (map dashes widths)
      :: map (line widths) rows).

(** Every width has a cell, and the cell is no longer than the width. *)
Fixpoint fits (widths : list nat) (parts : list string) : Prop :=
  match widths, parts with
  | [], _ => True
  | w :: ws, c :: ps => (String.length c <= w)%nat /\ fits ws ps
  | _ :: _, [] => False
  end.

(** The length of a line of cells padded to [widths], two blanks between
    neighbours. *)
Fixpoint line_width (widths : list nat) : nat :=
  match widths with
  | [] => 0
  | [w] => w
  | w :: ws => (w + 2 + line_width ws)%nat
  end.

(** ** Export and import *)

(** [args.path or "tasks_export.json"] *)
Definition export_path (path : option string) : string :=
  if given_str path then default "" path else "tasks_export.json".

(** [c] has the id [id] and, in the six other fields of a task, the values
    of [t]. *)
Definition copy_of (id : string) (t c : json) : Prop :=
  field c "id" = JStr id
  /\ Forall (fun k => field c k = field t k)
            ["title"; "priority"; "due"; "completed"; "created_at";
             "completed_at"].

(** ** Editing *)

(** The options of [edit] that were given, by the name [cmd_edit] reports
    for each, in the order of its four blocks; [--due] and [--clear-due]
    are both reported as due. *)
Definition changed_names (args : edit_args) : list string :=
  ((if given_list (e_title args) then ["title"] else []) ++
   (if given_str (e_priority args) then ["priority"] else []) ++
   (match e_due args with Some _ => ["due"] | None => [] end) ++
   (if e_clear_due args then ["due"] else []))%list.

(** ** The store over many invocations *)

Definition is_import (c : command) : bool :=
  match c with Import _ => true | _ => false end.

(** The world after the invocations [cs], one after the other; an
    invocation that fails ends its process, the next one starts from the
    files it left. *)
Fixpoint run_all (cs : list command) (w : world) : world :=
  match cs with
  | [] => w
  | c :: cs' => run_all cs' (snd (run c w))
  end.

(** [load] succeeds and every record it returns is task-shaped. *)
Definition store_shaped (w : world) : bool :=
  match fst (load w) with
  | Ok items => forallb task_shaped items
  | _ => false
  end.

(** [m] leaves the current date as it is. *)
Definition steady {A : Type} (m : M A) : Prop :=
  forall w, today (snd (m w)) = today w.

(** What a task-shaped record admits under the key [k]. *)
Definition field_ok (k : string) (v : json) : bool :=
  if String.eqb k "id" || String.eqb k "title" || String.eqb k "priority"
  then match v with JStr _ => true | _ => false end
  else if String.eqb k "due"
  then match v with
       | JNull => true
       | JStr s => bool_decide (is_Some (date_of_iso s))
       | _ => false
       end
  else if String.eqb k "completed"
  then match v with JBool _ => true | _ => false end
  else if String.eqb k "created_at"
  then match v with JNum _ => true | _ => false end
  else if String.eqb k "completed_at"
  then match v with JNull | JNum _ => true | _ => false end
  else true.
(** * Properties *)

Example strip_example : strip "  a b  " = "a b"%string.
Proof. reflexivity. Qed.

Example lower_example : lower "High" = "high"%string.
Proof. reflexivity. Qed.

Example date_of_iso_example :
  date_of_iso "2024-02-29" = Some (Date 2024 2 29)
  /\ date_of_iso "2023-02-29" = None
  /\ isoformat (Date 2024 2 29) = "2024-02-29"%string.
Proof. repeat split; reflexivity. Qed.

Example fromisoformat_example :
  fromisoformat "2024-01-16" = Some (Date 2024 1 16)
  /\ fromisoformat "20240116" = Some (Date 2024 1 16)
  /\ fromisoformat "2024-W03-2" = Some (Date 2024 1 16)
  /\ fromisoformat "2020W537" = Some (Date 2021 1 3)
  /\ fromisoformat "2024-1-16" = None
  /\ fromisoformat "2021-W53-1" = None.
Proof. vm_compute. repeat split; reflexivity. Qed.

Example int_of_str_example :
  int_of_str " +1_000 " = Some 1000
  /\ int_of_str (String "1" (String "028" EmptyString)) = None
  /\ strip (String "1" (String "028" EmptyString)) = "1"%string.
Proof. vm_compute. repeat split; reflexivity. Qed.

Example sample_items_shaped : forallb task_shaped sample_items = true.
Proof. vm_compute. reflexivity. Qed.

(** ** The two readers of dates *)

Lemma checked_valid d d' : checked d = Some d' -> d' = d /\ valid_date d = true.
Proof. unfold checked. destruct (valid_date d); [by intros [= <-]|done]. Qed.

(** [date.fromisoformat] returns dates that exist. *)
Lemma fromisoformat_valid s d : fromisoformat s = Some d -> valid_date d = true.
Proof.
  unfold fromisoformat.
  destruct (_ || _); [|done].
  destruct s as [|y1 [|y2 [|y3 [|y4 r]]]]; try done.
  destruct (digits2 y1 y2); [|done]. destruct (digits2 y3 y4); [|done].
  destruct (match r with EmptyString => _ | String _ _ => _ end) as [d0|]; [|done].
  intros H. destruct (checked_valid _ _ H) as [-> V]. done.
Qed.

Lemma digit_of_ascii c n :
  digit_of c = Some n ->
  (N_of_ascii c <? 128)%N = true /\ Ascii.eqb c "W" = false
  /\ Ascii.eqb c dash = false.
Proof.
  unfold digit_of.
  destruct ((48 <=? Z.of_N (N_of_ascii c)) && (Z.of_N (N_of_ascii c) <=? 57)) eqn:E;
    [|done].
  intros _. apply andb_true_iff in E as [E1 E2].
  split; [apply N.ltb_lt; lia|].
  split; apply Ascii.eqb_neq; intros ->; by vm_compute in E2.
Qed.

(** What is a date in the form [YYYY-MM-DD] is read by [date.fromisoformat]
    as that date. *)
Lemma date_of_iso_fromisoformat s d :
  date_of_iso s = Some d -> fromisoformat s = Some d.
Proof.
  unfold date_of_iso.
  destruct s as [|y1 [|y2 [|y3 [|y4 [|s1 [|m1 [|m2 [|s2 [|d1 [|d2 [|? ?]]]]]]]]]]];
    try done.
  destruct (digit_of y1) as [a|] eqn:A1; try done.
  destruct (digit_of y2) as [b|] eqn:A2; try done.
  destruct (digit_of y3) as [c|] eqn:A3; try done.
  destruct (digit_of y4) as [e|] eqn:A4; try done.
  destruct (digit_of m1) as [f|] eqn:A5; try done.
  destruct (digit_of m2) as [g|] eqn:A6; try done.
  destruct (digit_of d1) as [h|] eqn:A7; try done.
  destruct (digit_of d2) as [i|] eqn:A8; try done.
  destruct (Ascii.eqb_spec s1 dash) as [->|]; [|done].
  destruct (Ascii.eqb_spec s2 dash) as [->|]; [|done].
  cbn [andb].
  destruct (valid_date _) eqn:V; [|done]. intros [= <-].
  destruct (digit_of_ascii _ _ A1) as (L1 & _ & _).
  destruct (digit_of_ascii _ _ A2) as (L2 & _ & _).
  destruct (digit_of_ascii _ _ A3) as (L3 & _ & _).
  destruct (digit_of_ascii _ _ A4) as (L4 & _ & _).
  destruct (digit_of_ascii _ _ A5) as (L5 & W5 & _).
  destruct (digit_of_ascii _ _ A6) as (L6 & _ & _).
  destruct (digit_of_ascii _ _ A7) as (L7 & _ & _).
  destruct (digit_of_ascii _ _ A8) as (L8 & _ & _).
  unfold fromisoformat. cbn [utf8_length].
  rewrite L1, L2, L3, L4, L5, L6, L7, L8.
  change (N_of_ascii dash <? 128)%N with true. cbn iota.
  change (1 + (1 + (1 + (1 + (1 + (1 + (1 + (1 + (1 + (1 + 0)))))))))) with 10.
  change ((10 =? 7) || (10 =? 8) || (10 =? 10)) with true. cbn iota.
  unfold digits2. rewrite A1, A2, A3, A4.
  change (Ascii.eqb dash dash) with true. cbn iota.
  unfold iso_fields. rewrite W5. unfold digits2. rewrite A5, A6.
  unfold after_dash. change (Ascii.eqb dash dash) with true. cbn iota.
  rewrite A7, A8. unfold checked.
  replace (100 * (10 * a + b) + (10 * c + e)) with (1000 * a + 100 * b + 10 * c + e)
    by lia.
  by rewrite V.
Qed.

(** ** The store *)

Lemma load_world w : snd (load w) = w.
Proof.
  unfold load. destruct (fs w !! STORE_FILE) as [c|]; [|done].
  destruct c as [| |v]; simpl; try done. by destruct v.
Qed.

Lemma load_inv w r w' : load w = (r, w') -> w' = w.
Proof. intros H. pose proof (load_world w) as Hw. rewrite H in Hw. done. Qed.

Lemma load_never_raises_json w : fst (load w) <> Raise JSONDecodeError.
Proof.
  unfold load. destruct (fs w !! STORE_FILE) as [c|]; [|done].
  destruct c as [| |v]; simpl; try done. by destruct v.
Qed.

Lemma load_store w items :
  fs w !! STORE_FILE = Some (Doc (JArr items)) -> load w = (Ok items, w).
Proof. intros H. unfold load. by rewrite H. Qed.

Lemma load_missing w : fs w !! STORE_FILE = None -> load w = (Ok [], w).
Proof. intros H. unfold load. by rewrite H. Qed.

(** C1, as amended: [load] returns the empty list when the store file is
    missing, leaves through [sys.exit] with the corrupt-store diagnostic
    when the file is text that is not JSON, returns the empty list when the
    file is JSON but not an array, and returns the elements of a JSON array
    as they are.  It never changes the world. *)
Theorem load_cases (w : world) :
  match fs w !! STORE_FILE with
  | None => load w = (Ok [], w)
  | Some NotJson => load w = (Exit corrupt_msg, w)
  | Some NotText => load w = (Raise UnicodeDecodeError, w)
  | Some (Doc (JArr l)) => load w = (Ok l, w)
  | Some (Doc _) => load w = (Ok [], w)
  end.
Proof.
  unfold load. destruct (fs w !! STORE_FILE) as [c|]; [|done].
  destruct c as [| |v]; simpl; try done. by destruct v.
Qed.

(** C1 as stated fails: a store file holding the JSON object [{}] exists
    and is not a JSON array of task records, yet [load] returns the empty
    collection instead of leaving with the corrupt-store diagnostic. *)
Lemma load_object_file_is_not_corrupt :
  let w := sample_world {[ STORE_FILE := Doc (JObj []) ]} in
  fs w !! STORE_FILE = Some (Doc (JObj []))
  /\ task_array (Doc (JObj [])) = false
  /\ load w = (Ok [], w)
  /\ fst (load w) <> Exit corrupt_msg.
Proof. vm_compute. repeat split; congruence. Qed.

(** ** Rules for the effect predicates *)

Section Effects.
Context {A : Type}.
Implicit Types m : M A.

Lemma quiet_exit_safe m : quiet m -> exit_safe m.
Proof. intros H w msg _. apply H. Qed.

Lemma quiet_fail_safe m : quiet m -> fail_safe m.
Proof. intros H w _. apply H. Qed.

Lemma exitless_exit_safe m : exitless m -> exit_safe m.
Proof. intros H w msg E. by destruct (H w msg). Qed.

Lemma unfailing_exitless m : unfailing m -> exitless m.
Proof. intros H w msg E. specialize (H w). rewrite E in H. done. Qed.

Lemma unfailing_fail_safe m : unfailing m -> fail_safe m.
Proof. intros H w E. rewrite H in E. done. Qed.

Lemma exitless_exits_only P m : exitless m -> exits_only P m.
Proof. intros H w msg E. by destruct (H w msg). Qed.

Lemma quiet_ret (a : A) : quiet (ret a).
Proof. done. Qed.

Lemma quiet_lift (r : exc A) : quiet (lift r).
Proof. done. Qed.

Lemma quiet_sys_exit s : quiet (@sys_exit A s).
Proof. done. Qed.

Lemma unfailing_ret (a : A) : unfailing (ret a).
Proof. done. Qed.

Lemma exitless_lift (r : exc A) : (forall msg, r <> Exit msg) -> exitless (lift r).
Proof. intros H w msg. apply H. Qed.

Lemma exits_only_sys_exit (P : string -> Prop) s : P s -> exits_only P (@sys_exit A s).
Proof. intros H w msg [= <-]. done. Qed.
End Effects.

Section EffectsBind.
Context {A B : Type} (m : M A) (k : A -> M B).

Lemma quiet_bind : quiet m -> (forall a, quiet (k a)) -> quiet (bind m k).
Proof.
  intros Hm Hk w. unfold bind. specialize (Hm w).
  destruct (m w) as [[a|s|e] w1]; simpl in *; try done.
  destruct (Hk a w1) as [-> ->]. done.
Qed.

Lemma exitless_bind : exitless m -> (forall a, exitless (k a)) -> exitless (bind m k).
Proof.
  intros Hm Hk w msg. unfold bind. specialize (Hm w).
  destruct (m w) as [[a|s|e] w1]; simpl in *; try done.
  - apply Hk.
  - intros [= ->]. by apply (Hm msg).
Qed.

Lemma unfailing_bind : unfailing m -> (forall a, unfailing (k a)) -> unfailing (bind m k).
Proof.
  intros Hm Hk w. unfold bind. specialize (Hm w).
  destruct (m w) as [[a|s|e] w1]; simpl in *; try done. apply Hk.
Qed.

Lemma exits_only_bind P :
  exits_only P m -> (forall a, exits_only P (k a)) -> exits_only P (bind m k).
Proof.
  intros Hm Hk w msg. unfold bind. specialize (Hm w).
  destruct (m w) as [[a|s|e] w1]; simpl in *; try done.
  - apply Hk.
  - intros [= ->]. by apply Hm.
Qed.

Lemma exit_safe_bind : quiet m -> (forall a, exit_safe (k a)) -> exit_safe (bind m k).
Proof.
  intros Hm Hk w msg. unfold bind. specialize (Hm w).
  destruct (m w) as [[a|s|e] w1]; simpl in *; try done.
  intros E. destruct (Hk a w1 msg E) as [-> ->]. done.
Qed.

Lemma fail_safe_bind : quiet m -> (forall a, fail_safe (k a)) -> fail_safe (bind m k).
Proof.
  intros Hm Hk w. unfold bind. specialize (Hm w).
  destruct (m w) as [[a|s|e] w1]; simpl in *; try done.
  intros E. destruct (Hk a w1 E) as [-> ->]. done.
Qed.
End EffectsBind.

Lemma quiet_load : quiet load.
Proof. intros w. by rewrite load_world. Qed.

Lemma quiet_now_ts : quiet now_ts.
Proof. done. Qed.

Lemma quiet_today_date : quiet today_date.
Proof. done. Qed.

Lemma quiet_short_id : quiet short_id.
Proof. done. Qed.

Lemma quiet_print e : quiet (print e).
Proof. done. Qed.

Lemma quiet_file_at p : quiet (file_at p).
Proof. done. Qed.

Lemma unfailing_print e : unfailing (print e).
Proof. done. Qed.

Lemma unfailing_save items : unfailing (save items).
Proof. done. Qed.

Lemma unfailing_write_json p items : unfailing (write_json p items).
Proof. done. Qed.

Lemma unfailing_now_ts : unfailing now_ts.
Proof. done. Qed.

Lemma unfailing_short_id : unfailing short_id.
Proof. done. Qed.

Lemma unfailing_today_date : unfailing today_date.
Proof. done. Qed.

Lemma subscript_no_exit t k msg : subscript t k <> Exit msg.
Proof. destruct t; simpl; try done. by destruct (dict_get m k). Qed.

Lemma setitem_no_exit t k v msg : setitem t k v <> Exit msg.
Proof. by destruct t. Qed.

Lemma get_no_exit t k v msg : get t k v <> Exit msg.
Proof. by destruct t. Qed.

Create HintDb effects.
#[local] Hint Resolve quiet_ret quiet_lift quiet_sys_exit quiet_load quiet_now_ts
  quiet_today_date quiet_short_id quiet_print quiet_file_at : effects.
#[local] Hint Resolve unfailing_ret unfailing_print unfailing_save
  unfailing_write_json unfailing_now_ts unfailing_short_id unfailing_today_date
  unfailing_exitless subscript_no_exit setitem_no_exit get_no_exit : effects.
#[local] Hint Resolve exitless_lift : effects.

(** Splits a goal about a command along its binds and branches. *)
Ltac step_quiet :=
  repeat first
    [ progress intros
    | solve [ auto with effects ]
    | apply quiet_bind
    | match goal with
      | |- quiet (match ?x with _ => _ end) => destruct x
      | |- quiet (if ?b then _ else _) => destruct b
      end ].

Lemma quiet_parse_date s : quiet (parse_date s).
Proof. unfold parse_date. step_quiet. Qed.

Lemma quiet_resolve items tid : quiet (resolve items tid).
Proof. unfold resolve. step_quiet. Qed.

Lemma quiet_import_record t : quiet (import_record t).
Proof. unfold import_record. step_quiet. Qed.

Lemma quiet_import_all data items : quiet (import_all data items).
Proof.
  revert items. induction data as [|t data IH]; intros items; simpl.
  - apply quiet_ret.
  - apply quiet_bind; [apply quiet_import_record | intros r; apply IH].
Qed.

#[local] Hint Resolve quiet_parse_date quiet_resolve quiet_import_record
  quiet_import_all : effects.

Lemma quiet_cmd_list args : quiet (cmd_list args).
Proof. unfold cmd_list. step_quiet. Qed.

Ltac step_exitless :=
  repeat first
    [ progress intros
    | solve [ auto with effects ]
    | apply exitless_bind
    | match goal with
      | |- exitless (match ?x with _ => _ end) => destruct x
      | |- exitless (if ?b then _ else _) => destruct b
      end ].

Ltac step_exit_safe :=
  repeat first
    [ progress intros
    | apply exit_safe_bind; [ solve [ step_quiet ] | ]
    | apply quiet_exit_safe; solve [ step_quiet ]
    | apply exitless_exit_safe; solve [ step_exitless ]
    | match goal with
      | |- exit_safe (match ?x with _ => _ end) => destruct x
      | |- exit_safe (if ?b then _ else _) => destruct b
      end ].

Lemma exit_safe_run c : exit_safe (run c).
Proof.
  destruct c; simpl.
  - unfold cmd_add. step_exit_safe.
  - apply quiet_exit_safe, quiet_cmd_list.
  - unfold cmd_done. step_exit_safe.
  - unfold cmd_undo. step_exit_safe.
  - unfold cmd_delete. step_exit_safe.
  - unfold cmd_edit. step_exit_safe.
  - unfold cmd_clear_completed. step_exit_safe.
  - apply quiet_exit_safe, quiet_cmd_list.
  - unfold cmd_export. step_exit_safe.
  - unfold cmd_import. step_exit_safe.
Qed.

Ltac step_fail_safe :=
  repeat first
    [ progress intros
    | apply fail_safe_bind; [ solve [ step_quiet ] | ]
    | apply quiet_fail_safe; solve [ step_quiet ]
    | apply unfailing_fail_safe;
      solve [ repeat first [ progress intros | solve [ auto with effects ]
                           | apply unfailing_bind ] ]
    | match goal with
      | |- fail_safe (match ?x with _ => _ end) => destruct x
      | |- fail_safe (if ?b then _ else _) => destruct b
      end ].

Lemma fail_safe_cmd_import path : fail_safe (cmd_import path).
Proof. unfold cmd_import. step_fail_safe. Qed.

Lemma resolve_none items tid w :
  find items tid = Ok None -> resolve items tid w = (Exit not_found_msg, w).
Proof. intros H. unfold resolve, bind, lift. by rewrite H. Qed.

Lemma cmd_delete_not_found w items tid :
  load w = (Ok items, w) -> find items tid = Ok None ->
  cmd_delete tid w = (Exit not_found_msg, w).
Proof.
  intros Hl Hf. unfold cmd_delete. unfold bind at 1. rewrite Hl.
  unfold bind at 1. by rewrite (resolve_none _ _ _ Hf).
Qed.

(** C2: an operation that leaves through [sys.exit] (task not found,
    validation, corrupt store, import file missing or malformed) has written
    no file and has not called [save]; an import that fails in any way,
    uncaught exceptions included, has not either; and [delete] with a prefix
    that matches no task exits with the not-found diagnostic in the very
    world it started in. *)
Theorem failed_operation_never_saved :
  (forall (c : command) (w w' : world) (msg : string),
      run c w = (Exit msg, w') -> fs w' = fs w /\ saved w' = saved w)
  /\ (forall (path : string) (w w' : world) (r : exc unit),
         run (Import path) w = (r, w') -> failed r = true ->
         fs w' = fs w /\ saved w' = saved w)
  /\ (forall (w : world) (items : list json) (tid : string),
         load w = (Ok items, w) -> find items tid = Ok None ->
         run (Delete tid) w = (Exit not_found_msg, w)).
Proof.
  split; [|split].
  - intros c w w' msg H. pose proof (exit_safe_run c w msg) as S.
    rewrite H in S. by apply S.
  - intros path w w' r H F. pose proof (fail_safe_cmd_import path w) as S.
    simpl in H. rewrite H in S. by apply S.
  - intros w items tid Hl Hf. exact (cmd_delete_not_found w items tid Hl Hf).
Qed.

(** C2 at the sample store: [delete zz] matches nothing. *)
Lemma failed_operation_never_saved_witness :
  let w := sample_world (store_with sample_items) in
  run (Delete "zz") w = (Exit not_found_msg, w)
  /\ fs w !! STORE_FILE = Some (Doc (JArr sample_items))
  /\ saved w = [].
Proof.
  intros w.
  destruct failed_operation_never_saved as (Hexit & _ & Hdel).
  assert (Hrun : run (Delete "zz") w = (Exit not_found_msg, w)).
  { apply (Hdel w sample_items "zz"); vm_compute; reflexivity. }
  split; [exact Hrun|].
  destruct (Hexit (Delete "zz") w w not_found_msg Hrun) as [_ _].
  split; vm_compute; reflexivity.
Defined.

(** ** Identifier resolution *)

Lemma task_shaped_has_id t : task_shaped t = true -> has_id t = true.
Proof.
  destruct t as [| | | | |m]; simpl; try done. unfold has_id. simpl.
  destruct (dict_get m "id") as [[]|]; done.
Qed.

Lemma find_from_spec items : forall (i : nat) (tid : string),
  forallb has_id items = true ->
  match find_from i items tid with
  | Ok (Some (j, t)) =>
      exists k : nat, j = (i + k)%nat /\ items !! k = Some t
        /\ id_matches tid t = true
        /\ forall (k' : nat) (t' : json),
             (k' < k)%nat -> items !! k' = Some t' -> id_matches tid t' = false
  | Ok None => forallb (fun t => negb (id_matches tid t)) items = true
  | _ => False
  end.
Proof.
  induction items as [|t items IH]; intros i tid H; simpl; [done|].
  simpl in H. apply andb_true_iff in H as [Ht Hs].
  unfold has_id in Ht. unfold id_matches at 1.
  destruct (subscript t "id") as [[| | |s| |]| |] eqn:E; try done. simpl.
  destruct (str_startswith s tid) eqn:P.
  - exists 0%nat. repeat split; [lia| |lia].
    unfold id_matches. by rewrite E.
  - specialize (IH (S i) tid Hs).
    assert (Hno : id_matches tid t = false)
      by (unfold id_matches; by rewrite E).
    destruct (find_from (S i) items tid) as [[[j t']|]| |]; try done.
    + destruct IH as (k & -> & Hk & Hm & Hb).
      exists (S k). repeat split; [lia|done|done|].
      intros [|k'] t'' Hlt Hl; simpl in Hl.
      * by injection Hl as <-.
      * apply (Hb k'); [lia|done].
    + by rewrite Hno.
Qed.

Lemma cmd_done_not_found w items tid :
  load w = (Ok items, w) -> find items tid = Ok None ->
  cmd_done tid w = (Exit not_found_msg, w).
Proof.
  intros Hl Hf. unfold cmd_done. unfold bind at 1. rewrite Hl.
  unfold bind at 1. by rewrite (resolve_none _ _ _ Hf).
Qed.

Lemma cmd_undo_not_found w items tid :
  load w = (Ok items, w) -> find items tid = Ok None ->
  cmd_undo tid w = (Exit not_found_msg, w).
Proof.
  intros Hl Hf. unfold cmd_undo. unfold bind at 1. rewrite Hl.
  unfold bind at 1. by rewrite (resolve_none _ _ _ Hf).
Qed.

Lemma cmd_edit_not_found w items args :
  load w = (Ok items, w) -> find items (e_id args) = Ok None ->
  cmd_edit args w = (Exit not_found_msg, w).
Proof.
  intros Hl Hf. unfold cmd_edit. unfold bind at 1. rewrite Hl.
  unfold bind at 1. by rewrite (resolve_none _ _ _ Hf).
Qed.

(** C5: on a collection whose records carry string ids, [find] returns the
    first record, in collection order, whose id starts with the prefix,
    whatever matches after it, and [None] when no id does; and when no id
    starts with the prefix, [done], [undo], [delete] and [edit] leave
    through [sys.exit] with the not-found diagnostic, in the world they
    started in. *)
Theorem find_first_match (items : list json) (tid : string) :
  forallb has_id items = true ->
  match find items tid with
  | Ok (Some (i, t)) =>
      items !! i = Some t /\ id_matches tid t = true
      /\ (forall (j : nat) (t' : json),
            (j < i)%nat -> items !! j = Some t' -> id_matches tid t' = false)
  | Ok None => forallb (fun t => negb (id_matches tid t)) items = true
  | _ => False
  end
  /\ (forallb (fun t => negb (id_matches tid t)) items = true ->
      forall w : world, load w = (Ok items, w) ->
        run (Done tid) w = (Exit not_found_msg, w)
        /\ run (Undo tid) w = (Exit not_found_msg, w)
        /\ run (Delete tid) w = (Exit not_found_msg, w)
        /\ forall title priority due clear,
             run (Edit (EditArgs tid title priority due clear)) w
             = (Exit not_found_msg, w)).
Proof.
  intros H. pose proof (find_from_spec items 0 tid H) as S.
  unfold find. destruct (find_from 0 items tid) as [[[j t]|]| |] eqn:E; try done.
  - destruct S as (k & -> & Hk & Hm & Hb). split; [done|].
    intros Hno. rewrite forallb_forall in Hno.
    apply list_elem_of_lookup_2, list_elem_of_In, Hno in Hk.
    by rewrite Hm in Hk.
  - split; [done|]. intros _ w Hl. simpl.
    split; [by eapply cmd_done_not_found|].
    split; [by eapply cmd_undo_not_found|].
    split; [by eapply cmd_delete_not_found|].
    intros. by eapply cmd_edit_not_found.
Qed.

(** C5 at the sample store: two ids start with [ab]; the first is found. *)
Lemma find_first_match_witness :
  forallb has_id sample_items = true
  /\ exists t : json,
       find sample_items "ab" = Ok (Some (0%nat, t))
       /\ sample_items !! 0%nat = Some t
       /\ id_matches "ab" t = true
       /\ sample_items !! 1%nat
          = Some (task "ab34ef56" "Walk dog" "low" None false 1700000020 None)
       /\ id_matches "ab" (task "ab34ef56" "Walk dog" "low" None false 1700000020 None)
          = true.
Proof.
  assert (H : forallb has_id sample_items = true) by (vm_compute; reflexivity).
  split; [exact H|].
  pose proof (find_first_match sample_items "ab" H) as S.
  assert (E : find sample_items "ab"
              = Ok (Some (0%nat, task "ab12cd34" "Buy milk" "high"
                                      (Some "2024-01-01") false 1700000010 None)))
    by (vm_compute; reflexivity).
  rewrite E in S. destruct S as ((S1 & S2 & _) & _).
  eexists. split; [exact E|]. split; [exact S1|]. split; [exact S2|].
  split; reflexivity.
Defined.

Lemma prefix_empty s : String.prefix "" s = true.
Proof. by destruct s. Qed.

Lemma find_empty_prefix_head t rest s :
  subscript t "id" = Ok (JStr s) -> find (t :: rest) "" = Ok (Some (0%nat, t)).
Proof.
  intros H. unfold find. simpl. rewrite H. simpl.
  unfold str_startswith. by rewrite prefix_empty.
Qed.

Lemma subscript_truthy t k v : subscript t k = Ok v -> truthy t = true.
Proof.
  destruct t as [| | | | |m]; simpl; try done. by destruct m.
Qed.

(** With the empty prefix and a collection that is not empty, [resolve]
    hands back the head or dies on it; it does not exit. *)
Lemma resolve_empty_prefix t rest w :
  resolve (t :: rest) "" w = (Ok (0%nat, t), w)
  \/ exists e, resolve (t :: rest) "" w = (Raise e, w).
Proof.
  unfold resolve, bind, lift, find. simpl.
  destruct (subscript t "id") as [v| |e] eqn:E; simpl.
  - destruct v; simpl; eauto.
    unfold str_startswith. rewrite prefix_empty.
    rewrite (subscript_truthy _ _ _ E). by left.
  - by destruct (subscript_no_exit t "id" msg).
  - eauto.
Qed.

Lemma exits_only_parse_date s :
  exits_only (fun msg => msg <> not_found_msg) (parse_date s).
Proof.
  intros w msg. unfold parse_date.
  destruct s as [s|]; [|done].
  destruct (String.eqb s ""); [done|].
  destruct (String.eqb (lower s) "today"); [done|].
  destruct (String.eqb (lower s) "tomorrow").
  { unfold bind, today_date, lift, ret. simpl. by destruct (next_day _). }
  destruct (fromisoformat s); [done|].
  simpl. intros [= <-]. done.
Qed.

#[local] Hint Resolve exits_only_parse_date : effects.

Ltac step_exits_only :=
  repeat first
    [ progress intros
    | solve [ auto with effects ]
    | apply exitless_exits_only; solve [ step_exitless ]
    | apply exits_only_sys_exit; discriminate
    | apply exits_only_bind
    | match goal with
      | |- exits_only _ (match ?x with _ => _ end) => destruct x
      | |- exits_only _ (if ?b then _ else _) => destruct b
      end ].

(** Runs a command that takes an id up to the end of [resolve]. *)
Ltac enter_resolved Hl t rest w :=
  unfold bind at 1; rewrite Hl; unfold bind at 1;
  destruct (resolve_empty_prefix t rest w) as [-> | [e ->]];
  [ cbv beta iota | done ].

Lemma exits_only_apply {A} (m : M A) (w : world) (s : string) :
  exits_only (fun msg => msg <> s) m -> fst (m w) <> Exit s.
Proof. intros H E. by apply (H w s E). Qed.

Lemma cmd_done_empty_prefix w t rest :
  load w = (Ok (t :: rest), w) -> fst (cmd_done "" w) <> Exit not_found_msg.
Proof.
  intros Hl. unfold cmd_done. enter_resolved Hl t rest w.
  apply exits_only_apply. step_exits_only.
Qed.

Lemma cmd_undo_empty_prefix w t rest :
  load w = (Ok (t :: rest), w) -> fst (cmd_undo "" w) <> Exit not_found_msg.
Proof.
  intros Hl. unfold cmd_undo. enter_resolved Hl t rest w.
  apply exits_only_apply. step_exits_only.
Qed.

Lemma filter_exc_no_exit {A} (p : A -> exc bool) (l : list A) :
  (forall x msg, p x <> Exit msg) -> forall msg, filter_exc p l <> Exit msg.
Proof.
  intros Hp. induction l as [|x l IH]; intros msg; simpl; [done|].
  pose proof (Hp x msg) as Hx. specialize (IH msg).
  destruct (p x) as [b| |]; simpl; [|congruence|done].
  destruct (filter_exc p l); simpl; congruence.
Qed.

Lemma other_id_no_exit t x msg : other_id t x <> Exit msg.
Proof.
  unfold other_id.
  pose proof (subscript_no_exit x "id" msg) as Hx.
  pose proof (subscript_no_exit t "id" msg) as Ht.
  destruct (subscript x "id"); simpl; [|congruence|done].
  destruct (subscript t "id"); simpl; congruence.
Qed.

Lemma cmd_delete_empty_prefix w t rest :
  load w = (Ok (t :: rest), w) -> fst (cmd_delete "" w) <> Exit not_found_msg.
Proof.
  intros Hl. unfold cmd_delete. enter_resolved Hl t rest w.
  apply exits_only_apply. apply exits_only_bind.
  - apply exitless_exits_only, exitless_lift.
    apply filter_exc_no_exit. intros x msg. apply other_id_no_exit.
  - step_exits_only.
Qed.

Lemma cmd_edit_empty_prefix w t rest title priority due clear :
  load w = (Ok (t :: rest), w) ->
  fst (cmd_edit (EditArgs "" title priority due clear) w) <> Exit not_found_msg.
Proof.
  intros Hl. unfold cmd_edit. simpl e_id. enter_resolved Hl t rest w.
  apply exits_only_apply. step_exits_only.
Qed.

(** C9: with the empty prefix, [find] on a collection that is not empty
    returns its first record, provided that record carries a string id; and
    whatever the first record is, [done], [undo], [delete] and [edit] with
    an empty id never end with the not-found diagnostic on a store that is
    not empty. *)
Theorem find_empty_prefix (t : json) (rest : list json) :
  (has_id t = true -> find (t :: rest) "" = Ok (Some (0%nat, t)))
  /\ (forall w : world, load w = (Ok (t :: rest), w) ->
        fst (run (Done "") w) <> Exit not_found_msg
        /\ fst (run (Undo "") w) <> Exit not_found_msg
        /\ fst (run (Delete "") w) <> Exit not_found_msg
        /\ forall title priority due clear,
             fst (run (Edit (EditArgs "" title priority due clear)) w)
             <> Exit not_found_msg).
Proof.
  split.
  - unfold has_id. intros H.
    destruct (subscript t "id") as [[| | |s| |]| |] eqn:E; try done.
    by eapply find_empty_prefix_head.
  - intros w Hl. simpl.
    split; [by eapply cmd_done_empty_prefix|].
    split; [by eapply cmd_undo_empty_prefix|].
    split; [by eapply cmd_delete_empty_prefix|].
    intros. by eapply cmd_edit_empty_prefix.
Qed.

(** C9 at the sample store. *)
Lemma find_empty_prefix_witness :
  let w := sample_world (store_with sample_items) in
  has_id sample_first = true
  /\ load w = (Ok (sample_first :: sample_rest), w)
  /\ find sample_items "" = Ok (Some (0%nat, sample_first))
  /\ fst (run (Done "") w) <> Exit not_found_msg.
Proof.
  intros w.
  assert (Hid : has_id sample_first = true) by reflexivity.
  assert (Hl : load w = (Ok (sample_first :: sample_rest), w))
    by (apply load_store; reflexivity).
  destruct (find_empty_prefix sample_first sample_rest) as [Hfind Hrun].
  destruct (Hrun w Hl) as (Hdone & _).
  split; [exact Hid|]. split; [exact Hl|].
  split; [exact (Hfind Hid) | exact Hdone].
Defined.

(** ** Dicts *)

Lemma dict_get_set_eq m k v : dict_get (dict_set m k v) k = Some v.
Proof.
  induction m as [|[k' v'] m IH]; simpl.
  - by rewrite String.eqb_refl.
  - destruct (String.eqb k' k) eqn:E; simpl; by rewrite E.
Qed.

Lemma dict_get_set_ne m k k' v : k <> k' -> dict_get (dict_set m k v) k' = dict_get m k'.
Proof.
  intros Hne. induction m as [|[k0 v0] m IH]; simpl.
  - destruct (String.eqb_spec k k'); done.
  - destruct (String.eqb_spec k0 k) as [->|Hk]; simpl.
    + destruct (String.eqb_spec k k'); done.
    + by rewrite IH.
Qed.

Lemma subscript_set_eq m k v : subscript (JObj (dict_set m k v)) k = Ok v.
Proof. simpl. by rewrite dict_get_set_eq. Qed.

Lemma subscript_set_ne m k k' v :
  k <> k' -> subscript (JObj (dict_set m k v)) k' = subscript (JObj m) k'.
Proof. intros H. simpl. by rewrite dict_get_set_ne. Qed.

Lemma dict_set_truthy m k v : truthy (JObj (dict_set m k v)) = true.
Proof. destruct m as [|[k' v'] m]; simpl; [done|]. by destruct (String.eqb k' k). Qed.

(** ** Titles *)

Lemma cmd_add_blank_title title priority due w items :
  load w = (Ok items, w) ->
  strip (join " " title) = ""%string ->
  cmd_add title priority due w = (Exit title_msg, w).
Proof.
  intros Hl H. unfold cmd_add. unfold bind at 1. rewrite Hl.
  by rewrite H.
Qed.

(** [add] never stores an empty title: when it returns, the store is the
    loaded collection followed by one record whose title is not empty. *)
Lemma cmd_add_title_not_empty title priority due w w' :
  cmd_add title priority due w = (Ok tt, w') ->
  exists (items : list json) (t : json) (s : string),
    load w = (Ok items, w)
    /\ fs w' !! STORE_FILE = Some (Doc (JArr (items ++ [t])))
    /\ subscript t "title" = Ok (JStr s) /\ s <> ""%string.
Proof.
  unfold cmd_add. unfold bind at 1.
  pose proof (load_world w) as Hw.
  destruct (load w) as [[items| |] w1] eqn:Hl; simpl in Hw; subst; try done.
  destruct (String.eqb_spec (strip (join " " title)) "") as [|Hne]; [done|].
  destruct (negb (in_priorities (lower priority))); [done|].
  unfold bind at 1.
  pose proof (quiet_parse_date due w) as [Hfs _].
  destruct (parse_date due w) as [[d| |] w2]; try done.
  simpl in Hfs. unfold bind, short_id, now_ts, save, log_save, write_json, print.
  simpl. intros [= <-]. simpl.
  eexists items, _, _. split; [done|]. split; [by rewrite lookup_insert_eq|].
  split; [reflexivity|done].
Qed.

(** C3, the part the code breaks: [edit --title " "] on the sample store
    returns normally and saves the first task with the empty title, whereas
    [add] with the same title is refused with the title diagnostic. *)
Theorem edit_stores_empty_title :
  let w := sample_world (store_with sample_items) in
  let r := run (Edit (EditArgs "ab12" (Some [" "%string]) None None false)) w in
  fst r = Ok tt
  /\ fs (snd r) !! STORE_FILE
     = Some (Doc (JArr (task "ab12cd34" "" "high" (Some "2024-01-01") false
                             1700000010 None :: sample_rest)))
  /\ saved (snd r)
     = [task "ab12cd34" "" "high" (Some "2024-01-01") false 1700000010 None
        :: sample_rest]
  /\ fst (run (Add [" "%string] "normal" None) w) = Exit title_msg.
Proof. vm_compute. repeat split; reflexivity. Qed.

(** ** Completing and reopening *)

Lemma find_from_found items : forall (n : nat) (tid : string) (j : nat) (t : json),
  find_from n items tid = Ok (Some (j, t)) ->
  exists (k : nat) (m : list (string * json)) (s : string),
    j = (n + k)%nat /\ items !! k = Some t /\ t = JObj m
    /\ dict_get m "id" = Some (JStr s) /\ str_startswith s tid = true.
Proof.
  induction items as [|x items IH]; intros n tid j t; simpl; [done|].
  destruct x as [| | | | |m]; simpl; try done.
  destruct (dict_get m "id") as [[| | |s| |]|] eqn:E; simpl; try done.
  destruct (str_startswith s tid) eqn:P.
  - intros [= <- <-]. exists 0%nat, m, s. repeat split; [lia|done..].
  - intros H. destruct (IH _ _ _ _ H) as (k & m' & s' & -> & Hk & R).
    exists (S k), m', s'. split; [lia|]. by split.
Qed.

Lemma find_from_insert items : forall (n : nat) (tid : string) (j : nat) (t t' : json),
  find_from n items tid = Ok (Some (j, t)) ->
  subscript t' "id" = subscript t "id" ->
  find_from n (<[(j - n)%nat := t']> items) tid = Ok (Some (j, t')).
Proof.
  induction items as [|x items IH]; intros n tid j t t' H Hid; simpl in *; [done|].
  destruct (subscript x "id") as [v| |] eqn:E; simpl in *; try done.
  destruct (startswith v tid) as [[|]| |] eqn:P; simpl in *; try done.
  - injection H as <- <-. rewrite Nat.sub_diag. simpl.
    rewrite Hid, E. simpl. by rewrite P.
  - destruct (find_from_found _ _ _ _ _ H) as (k & _ & _ & -> & _).
    replace (S n + k - n)%nat with (S k) by lia. simpl.
    rewrite E. simpl. rewrite P. simpl.
    specialize (IH (S n) tid (S n + k)%nat t t' H Hid).
    by replace (S n + k - S n)%nat with k in IH by lia.
Qed.

Lemma resolve_found items tid i t w :
  find items tid = Ok (Some (i, t)) -> resolve items tid w = (Ok (i, t), w).
Proof.
  intros H. unfold resolve, bind, lift. rewrite H.
  destruct (find_from_found _ _ _ _ _ H) as (k & m & s & _ & _ & -> & Hm & _).
  simpl. by destruct m.
Qed.

(** Runs a command that takes an id through [load] and [resolve]. *)
Ltac run_resolved Hl Hf :=
  unfold bind; rewrite Hl; cbv beta iota;
  rewrite (resolve_found _ _ _ _ _ Hf); cbv beta iota; simpl.

Lemma cmd_done_effect w items tid i m :
  load w = (Ok items, w) -> find items tid = Ok (Some (i, JObj m)) ->
  let w' := snd (cmd_done tid w) in
  fs w' = <[STORE_FILE := Doc (JArr (<[i := mark_done (clock w (ticks w)) m]> items))]> (fs w)
  /\ clock w' = clock w /\ ticks w' = S (ticks w).
Proof.
  intros Hl Hf. unfold cmd_done. run_resolved Hl Hf.
  repeat case_match; done.
Qed.

Lemma cmd_undo_effect w items tid i m :
  load w = (Ok items, w) -> find items tid = Ok (Some (i, JObj m)) ->
  let w' := snd (cmd_undo tid w) in
  fs w' = <[STORE_FILE := Doc (JArr (<[i := mark_open m]> items))]> (fs w)
  /\ clock w' = clock w /\ ticks w' = ticks w.
Proof.
  intros Hl Hf. unfold cmd_undo. run_resolved Hl Hf.
  repeat case_match; done.
Qed.

Lemma mark_done_fields now m :
  subscript (mark_done now m) "completed" = Ok (JBool true)
  /\ subscript (mark_done now m) "completed_at" = Ok (JNum now)
  /\ forall k : string, k <> "completed"%string -> k <> "completed_at"%string ->
       subscript (mark_done now m) k = subscript (JObj m) k.
Proof.
  unfold mark_done. split; [|split].
  - by rewrite subscript_set_ne, subscript_set_eq.
  - by rewrite subscript_set_eq.
  - intros k H1 H2. by rewrite !subscript_set_ne.
Qed.


Lemma find_insert items tid i t t' :
  find items tid = Ok (Some (i, t)) ->
  subscript t' "id" = subscript t "id" ->
  find (<[i := t']> items) tid = Ok (Some (i, t')).
Proof.
  intros H Hid. unfold find in *.
  pose proof (find_from_insert items 0 tid i t t' H Hid) as R.
  by rewrite Nat.sub_0_r in R.
Qed.




(** ** Search *)

(** C8: [search] with a query runs exactly [list] with show=all,
    sort=priority, no reverse, no overdue filter and that query: the two
    commands return the same result and leave the same world, printed table
    included.  With these arguments the table lists the tasks whose title
    contains the query, case-insensitively, sorted on the priority key. *)
Theorem search_is_list (q : string) (w : world) :
  run (Search q) w = run (List (ListArgs "all" q "priority" false false)) w
  /\ forall (now : date) (items : list json),
       filtered_sorted now items "all" q "priority" false false
       = (kept <- (if negb (String.eqb q "")
                   then filter_exc (keep_matching (lower q)) items
                   else Ok items) ;;
          sorted key_pri_ltb key_priority false kept).
Proof.
  split; [reflexivity|].
  intros now items. unfold filtered_sorted, filter_stage, sort_stage. simpl.
  destruct (if negb (String.eqb q "") then _ else _) as [kept| |]; simpl; try done.
  by destruct (sorted key_pri_ltb key_priority false kept).
Qed.

(** ** Import *)

Lemma in_priorities_truthy p : in_priorities p = true -> truthy (JStr p) = true.
Proof.
  unfold in_priorities, PRIORITIES. simpl.
  destruct (String.eqb_spec p "high") as [->|_]; [done|].
  destruct (String.eqb_spec p "normal") as [->|_]; [done|].
  destruct (String.eqb_spec p "low") as [->|_]; done.
Qed.

Lemma is_priority_str p : is_priority (JStr p) = in_priorities p.
Proof. reflexivity. Qed.

Lemma is_priority_other v :
  (forall p, v <> JStr p) -> is_priority v = false.
Proof. intros H. destruct v; try done. by destruct (H s). Qed.

Lemma import_record_obj m w z :
  created_of_import (clock w (ticks w)) m = Ok z ->
  import_record (JObj m) w
  = (Ok (imported_task (uuids w (draws w)) z m), advance 1 w).
Proof.
  intros Hc. unfold import_record, bind, short_id, now_ts, lift, ret, advance.
  simpl. unfold created_of_import in Hc.
  replace (ticks w + 1)%nat with (S (ticks w)) by lia.
  replace (draws w + 1)%nat with (S (draws w)) by lia.
  assert (Hp : (if is_priority (default JNull (dict_get m "priority"))
                then if truthy (default JNull (dict_get m "priority"))
                     then default JNull (dict_get m "priority")
                     else JStr "normal"
                else JStr "normal")
               = match dict_get m "priority" with
                 | Some (JStr p) => if in_priorities p then JStr p else JStr "normal"
                 | _ => JStr "normal"
                 end).
  { destruct (dict_get m "priority") as [[| | |p| |]|]; simpl; try done.
    rewrite is_priority_str. destruct (in_priorities p) eqn:E; [|done].
    apply in_priorities_truthy in E. simpl in E. by rewrite E. }
  destruct (is_priority (default JNull (dict_get m "priority"))) eqn:Eip; simpl.
  - destruct (dict_get m "created_at") as [v|]; simpl.
    + rewrite Hc. simpl. unfold imported_task. rewrite <- Hp.
      by destruct (dict_get m "completed").
    + injection Hc as <-. simpl. unfold imported_task. rewrite <- Hp.
      by destruct (dict_get m "completed").
  - destruct (dict_get m "created_at") as [v|]; simpl.
    + rewrite Hc. simpl. unfold imported_task. rewrite <- Hp.
      by destruct (dict_get m "completed").
    + injection Hc as <-. simpl. unfold imported_task. rewrite <- Hp.
      by destruct (dict_get m "completed").
Qed.

Lemma importable_created m now :
  importable (JObj m) = true -> failed (created_of_import now m) = false.
Proof.
  unfold importable, created_of_import.
  destruct (dict_get m "created_at"); [|done]. apply negb_true_iff.
Qed.

Lemma advance_advance a b w : advance a (advance b w) = advance (b + a) w.
Proof. unfold advance. simpl. f_equal; lia. Qed.

Lemma import_all_spec data : forall (items : list json) (w : world),
  forallb importable data = true ->
  exists news : list json,
    import_all data items w = (Ok (items ++ news)%list, advance (length data) w)
    /\ length news = length data
    /\ forall (j : nat) (t : json), data !! j = Some t ->
         exists (m : list (string * json)) (z : Z),
           t = JObj m
           /\ created_of_import (clock w (ticks w + j)) m = Ok z
           /\ news !! j = Some (imported_task (uuids w (draws w + j)) z m).
Proof.
  induction data as [|t data IH]; intros items w H; simpl in *.
  - exists []. rewrite app_nil_r. split; [|done].
    unfold ret, advance. destruct w; simpl. by rewrite !Nat.add_0_r.
  - apply andb_true_iff in H as [Ht Hd].
    destruct t as [| | | | |m]; try done.
    pose proof (importable_created m (clock w (ticks w)) Ht) as Hc.
    destruct (created_of_import (clock w (ticks w)) m) as [z| |] eqn:Ez; try done.
    unfold bind at 1. rewrite (import_record_obj m w z Ez).
    destruct (IH (items ++ [imported_task (uuids w (draws w)) z m])%list (advance 1 w) Hd)
      as (news & Hrun & Hlen & Hnth).
    exists (imported_task (uuids w (draws w)) z m :: news).
    rewrite Hrun, advance_advance, <- app_assoc. simpl.
    split; [done|]. split; [by rewrite Hlen|].
    intros [|j] t' Hj; simpl in Hj.
    + injection Hj as <-. exists m, z. rewrite !Nat.add_0_r. done.
    + destruct (Hnth j t' Hj) as (m' & z' & -> & Hz & Hn).
      exists m', z'. simpl in Hz, Hn.
      replace (ticks w + S j)%nat with (ticks w + 1 + j)%nat by lia.
      replace (draws w + S j)%nat with (draws w + 1 + j)%nat by lia.
      done.
Qed.

(** C6, as amended: when the import file holds a JSON array whose elements
    are all objects with [created_at] absent or accepted by [int], [import]
    returns normally and saves the old collection, unchanged and in order,
    followed by one new task per record, in order.  The task for the record
    at position [j] carries the id drawn from the generator at that moment,
    whatever id the record has; its title is the record's or "Untitled"; its
    priority is the record's when that is one of the three valid strings and
    "normal" otherwise; it is completed only if the record says so; its
    creation time is the record's, or the clock reading when the record has
    none. *)
Theorem import_appends_fresh_tasks
    (w : world) (path : string) (data items : list json) :
  fs w !! path = Some (Doc (JArr data)) ->
  load w = (Ok items, w) ->
  forallb importable data = true ->
  exists (news : list json) (w' : world),
    run (Import path) w = (Ok tt, w')
    /\ fs w' = <[STORE_FILE := Doc (JArr (items ++ news)%list)]> (fs w)
    /\ saved w' = (saved w ++ [(items ++ news)%list])%list
    /\ length news = length data
    /\ forall (j : nat) (t : json), data !! j = Some t ->
         exists (m : list (string * json)) (z : Z),
           t = JObj m
           /\ created_of_import (clock w (ticks w + j)) m = Ok z
           /\ news !! j = Some (imported_task (uuids w (draws w + j)) z m)
           /\ forall v : json,
                imported_task (uuids w (draws w + j)) z (dict_set m "id" v)
                = imported_task (uuids w (draws w + j)) z m.
Proof.
  intros Hf Hl Hd.
  destruct (import_all_spec data items w Hd) as (news & Hrun & Hlen & Hnth).
  exists news. eexists. split.
  - simpl. unfold cmd_import, bind, file_at, lift. rewrite Hf.
    simpl json_load. cbv beta iota. rewrite Hl. cbv beta iota. rewrite Hrun.
    reflexivity.
  - simpl. split; [done|]. split; [done|]. split; [done|].
    intros j t Hj. destruct (Hnth j t Hj) as (m & z & -> & Hz & Hn).
    exists m, z. repeat split; try done.
    intros v. unfold imported_task.
    by rewrite !dict_get_set_ne.
Qed.

(** C6 at the scenario of the specification: the file holds
    [[{"title": "X"}]], and a second record that brings its own id. *)
Lemma import_appends_fresh_tasks_witness :
  let data := [JObj [("title", JStr "X")];
               JObj [("id", JStr "ffffffff"); ("priority", JStr "urgent")]] in
  let w := sample_world (<["in.json" := Doc (JArr data)]> (store_with sample_items)) in
  fs w !! "in.json" = Some (Doc (JArr data))
  /\ load w = (Ok sample_items, w)
  /\ forallb importable data = true
  /\ exists w' : world,
       run (Import "in.json") w = (Ok tt, w')
       /\ fs w' !! STORE_FILE
          = Some (Doc (JArr (sample_items ++
               [task "a1b2c3d4" "X" "normal" None false 1700000100 None;
                task "0f9e8d7c" "Untitled" "normal" None false 1700000101 None])%list)).
Proof.
  intros data w.
  assert (Hf : fs w !! "in.json" = Some (Doc (JArr data))) by reflexivity.
  assert (Hl : load w = (Ok sample_items, w)) by (apply load_store; reflexivity).
  assert (Hd : forallb importable data = true) by reflexivity.
  split; [exact Hf|]. split; [exact Hl|]. split; [exact Hd|].
  destruct (import_appends_fresh_tasks w "in.json" data sample_items Hf Hl Hd)
    as (news & w' & Hrun & Hfs & _ & Hlen & Hnth).
  exists w'. split; [exact Hrun|].
  rewrite Hfs, lookup_insert_eq.
  destruct news as [|n1 [|n2 [|n3 news]]]; try discriminate Hlen.
  destruct (Hnth 0%nat _ eq_refl) as (m1 & z1 & E1 & C1 & N1 & _).
  destruct (Hnth 1%nat _ eq_refl) as (m2 & z2 & E2 & C2 & N2 & _).
  injection E1 as <-. injection E2 as <-.
  injection C1 as <-. injection C2 as <-.
  injection N1 as ->. injection N2 as ->.
  reflexivity.
Defined.

(** C6 as stated fails: the JSON array [[{"title": "X", "created_at": null}]]
    holds one record, yet [import] dies on [int(None)] with a [TypeError];
    nothing is appended and the store file is left as it was. *)
Lemma import_null_created_at_fails :
  let data := [JObj [("title", JStr "X"); ("created_at", JNull)]] in
  let w := sample_world (<["in.json" := Doc (JArr data)]> (store_with sample_items)) in
  fst (run (Import "in.json") w) = Raise TypeError
  /\ fs (snd (run (Import "in.json") w)) !! STORE_FILE
     = Some (Doc (JArr sample_items))
  /\ saved (snd (run (Import "in.json") w)) = [].
Proof. vm_compute. repeat split; reflexivity. Qed.

(** ** Orders on keys *)

Lemma ascii_compare_refl c : Ascii.compare c c = Eq.
Proof. unfold Ascii.compare. apply N.compare_refl. Qed.

Lemma string_compare_refl s : String.compare s s = Eq.
Proof. induction s as [|c s IH]; simpl; [done|]. by rewrite ascii_compare_refl. Qed.

Lemma ascii_compare_lt_trans a b c :
  Ascii.compare a b = Lt -> Ascii.compare b c = Lt -> Ascii.compare a c = Lt.
Proof.
  unfold Ascii.compare. rewrite !N.compare_lt_iff. apply N.lt_trans.
Qed.

Lemma string_compare_lt_trans a : forall b c,
  String.compare a b = Lt -> String.compare b c = Lt -> String.compare a c = Lt.
Proof.
  induction a as [|x a IH]; intros [|y b] [|z c]; simpl; try done.
  destruct (Ascii.compare x y) eqn:Exy; try done.
  - apply Ascii.compare_eq_iff in Exy as ->.
    destruct (Ascii.compare y z); try done. apply IH.
  - intros _. destruct (Ascii.compare y z) eqn:Eyz; try done.
    + apply Ascii.compare_eq_iff in Eyz as <-. by rewrite Exy.
    + by rewrite (ascii_compare_lt_trans _ _ _ Exy Eyz).
Qed.

Lemma strict_total_string : strict_total String.ltb.
Proof.
  split; unfold String.ltb.
  - intros a. by rewrite string_compare_refl.
  - intros a b c Hab Hbc.
    destruct (String.compare a b) eqn:E1; try done.
    destruct (String.compare b c) eqn:E2; try done.
    by rewrite (string_compare_lt_trans _ _ _ E1 E2).
  - intros a b Hab Hba.
    destruct (String.compare a b) eqn:E1; try done.
    + by apply String.compare_eq_iff.
    + rewrite String.compare_antisym, E1 in Hba. done.
Qed.

Lemma strict_total_Z : strict_total Z.ltb.
Proof.
  split.
  - intros a. apply Z.ltb_irrefl.
  - intros a b c. rewrite !Z.ltb_lt. lia.
  - intros a b. rewrite !Z.ltb_ge. lia.
Qed.

Section Lex.
Context {K1 K2 : Type} (ltb1 eqb1 : K1 -> K1 -> bool) (ltb2 : K2 -> K2 -> bool).
Hypothesis eqb1_eq : forall a b, eqb1 a b = true <-> a = b.
Hypothesis st1 : strict_total ltb1.
Hypothesis st2 : strict_total ltb2.

Lemma strict_total_lexb : strict_total (lexb ltb1 eqb1 ltb2).
Proof.
  destruct st1 as [I1 T1 O1], st2 as [I2 T2 O2].
  assert (R : forall a, eqb1 a a = true) by (intros a; by apply eqb1_eq).
  split; unfold lexb.
  - intros [a1 a2]. simpl. by rewrite I1, I2, andb_false_r.
  - intros [a1 a2] [b1 b2] [c1 c2]. simpl.
    rewrite !orb_true_iff, !andb_true_iff, !eqb1_eq.
    intros [H1|[-> H1]] [H2|[-> H2]]; eauto.
  - intros [a1 a2] [b1 b2]. simpl.
    rewrite !orb_false_iff, !andb_false_iff.
    intros [H1 H2] [H3 H4].
    pose proof (O1 _ _ H1 H3) as ->. rewrite R in H2, H4.
    destruct H2 as [|H2], H4 as [|H4]; try done.
    by rewrite (O2 _ _ H2 H4).
Qed.
End Lex.

Lemma key_pri_ltb_lex (a b : Z * string * Z) :
  key_pri_ltb a b
  = lexb Z.ltb Z.eqb (lexb String.ltb String.eqb Z.ltb)
         (fst (fst a), (snd (fst a), snd a)) (fst (fst b), (snd (fst b), snd b)).
Proof. by destruct a as [[a1 a2] a3], b as [[b1 b2] b3]. Qed.

Lemma key_due_ltb_lex (a b : string * Z * Z) :
  key_due_ltb a b
  = lexb String.ltb String.eqb (lexb Z.ltb Z.eqb Z.ltb)
         (fst (fst a), (snd (fst a), snd a)) (fst (fst b), (snd (fst b), snd b)).
Proof. by destruct a as [[a1 a2] a3], b as [[b1 b2] b3]. Qed.

Lemma strict_total_key_pri : strict_total key_pri_ltb.
Proof.
  assert (S : strict_total (lexb Z.ltb Z.eqb (lexb String.ltb String.eqb Z.ltb))).
  { apply strict_total_lexb; [apply Z.eqb_eq|apply strict_total_Z|].
    apply strict_total_lexb; [apply String.eqb_eq|apply strict_total_string|].
    apply strict_total_Z. }
  destruct S as [I T O]. split.
  - intros a. rewrite key_pri_ltb_lex. apply I.
  - intros a b c. rewrite !key_pri_ltb_lex. apply T.
  - intros [[a1 a2] a3] [[b1 b2] b3]. rewrite !key_pri_ltb_lex. simpl.
    intros H1 H2. by injection (O _ _ H1 H2) as -> -> ->.
Qed.

Lemma strict_total_key_due : strict_total key_due_ltb.
Proof.
  assert (S : strict_total (lexb String.ltb String.eqb (lexb Z.ltb Z.eqb Z.ltb))).
  { apply strict_total_lexb; [apply String.eqb_eq|apply strict_total_string|].
    apply strict_total_lexb; [apply Z.eqb_eq|apply strict_total_Z|].
    apply strict_total_Z. }
  destruct S as [I T O]. split.
  - intros a. rewrite key_due_ltb_lex. apply I.
  - intros a b c. rewrite !key_due_ltb_lex. apply T.
  - intros [[a1 a2] a3] [[b1 b2] b3]. rewrite !key_due_ltb_lex. simpl.
    intros H1 H2. by injection (O _ _ H1 H2) as -> -> ->.
Qed.

(** ** The stable insertion sort *)

Section SortFacts.
Context {K : Type} (ltb : K -> K -> bool).

Lemma insert_key_perm x l : Permutation (insert_key ltb x l) (x :: l).
Proof.
  induction l as [|y l IH]; simpl; [done|].
  destruct (ltb (fst y) (fst x)); [|done].
  rewrite IH. apply perm_swap.
Qed.

Lemma isort_perm l : Permutation (isort ltb l) l.
Proof.
  induction l as [|x l IH]; simpl; [done|].
  by rewrite insert_key_perm, IH.
Qed.

(** The payloads ride along: sorting looks at the keys only. *)
Lemma insert_key_payload (f : json -> json) x l :
  insert_key ltb (fst x, f (snd x)) (map (fun p => (fst p, f (snd p))) l)
  = map (fun p => (fst p, f (snd p))) (insert_key ltb x l).
Proof.
  induction l as [|y l IH]; simpl; [done|].
  destruct (ltb (fst y) (fst x)); simpl; [by rewrite IH|done].
Qed.

Lemma isort_payload (f : json -> json) l :
  isort ltb (map (fun p => (fst p, f (snd p))) l)
  = map (fun p => (fst p, f (snd p))) (isort ltb l).
Proof.
  induction l as [|x l IH]; simpl; [done|].
  by rewrite IH, insert_key_payload.
Qed.

Hypothesis st : strict_total ltb.

Lemma not_after_trans a b c :
  not_after ltb a b -> not_after ltb b c -> not_after ltb a c.
Proof.
  destruct st as [I T O]. unfold not_after. intros Hab Hbc.
  destruct (ltb (fst c) (fst a)) eqn:Hca; [|done].
  destruct (ltb (fst a) (fst b)) eqn:E.
  - by rewrite (T _ _ _ Hca E) in Hbc.
  - rewrite <- (O _ _ E Hab) in Hbc. congruence.
Qed.

Lemma insert_key_sorted x l :
  StronglySorted (not_after ltb) l ->
  StronglySorted (not_after ltb) (insert_key ltb x l).
Proof.
  destruct st as [I T O].
  induction l as [|y l IH]; simpl; intros Hs.
  - repeat constructor.
  - apply StronglySorted_inv in Hs as [Hs Hy].
    destruct (ltb (fst y) (fst x)) eqn:E.
    + constructor; [by apply IH|].
      rewrite (insert_key_perm x l). constructor; [|done].
      unfold not_after. destruct (ltb (fst x) (fst y)) eqn:E'; [|done].
      pose proof (T _ _ _ E E') as C. by rewrite I in C.
    + constructor; [by constructor|].
      constructor; [done|].
      eapply Forall_impl; [exact Hy|].
      intros z Hz. by eapply not_after_trans.
Qed.

Lemma isort_sorted l : StronglySorted (not_after ltb) (isort ltb l).
Proof.
  induction l as [|x l IH]; simpl; [constructor|].
  by apply insert_key_sorted.
Qed.

(** The sort is stable: the records of one key keep their order. *)
Lemma insert_key_stable k x l :
  List.filter (same_key ltb k) (insert_key ltb x l)
  = List.filter (same_key ltb k) (x :: l).
Proof.
  destruct st as [I T O].
  induction l as [|y l IH]; [done|].
  cbn [insert_key]. destruct (ltb (fst y) (fst x)) eqn:E; [|done].
  cbn [List.filter] in *. rewrite IH.
  destruct (same_key ltb k x) eqn:Sx, (same_key ltb k y) eqn:Sy; try done.
  unfold same_key in Sx, Sy.
  apply andb_true_iff in Sx as [X1 X2], Sy as [Y1 Y2].
  apply negb_true_iff in X1, X2, Y1, Y2.
  rewrite (O _ _ X1 X2), <- (O _ _ Y1 Y2), I in E. done.
Qed.

Lemma isort_stable k l :
  List.filter (same_key ltb k) (isort ltb l) = List.filter (same_key ltb k) l.
Proof.
  induction l as [|x l IH]; [done|].
  cbn [isort]. rewrite insert_key_stable. cbn [List.filter]. by rewrite IH.
Qed.
End SortFacts.

(** ** ISO dates compare as their texts *)

Lemma digit_of_code c a :
  digit_of c = Some a -> Z.of_N (N_of_ascii c) = a + 48 /\ 0 <= a <= 9.
Proof.
  unfold digit_of.
  destruct (Z.leb_spec 48 (Z.of_N (N_of_ascii c))); simpl; [|done].
  destruct (Z.leb_spec (Z.of_N (N_of_ascii c)) 57); simpl; [|done].
  intros [= <-]. lia.
Qed.

Lemma ascii_compare_digits c1 c2 a1 a2 :
  digit_of c1 = Some a1 -> digit_of c2 = Some a2 ->
  Ascii.compare c1 c2 = (a1 ?= a2).
Proof.
  intros H1 H2.
  apply digit_of_code in H1 as [H1 _]. apply digit_of_code in H2 as [H2 _].
  unfold Ascii.compare. rewrite <- N2Z.inj_compare, H1, H2.
  rewrite (Z.add_comm a1), (Z.add_comm a2). apply Z.add_compare_mono_l.
Qed.

Lemma date_of_iso_inv s d :
  date_of_iso s = Some d ->
  exists (y1 y2 y3 y4 m1 m2 d1 d2 : ascii) (a b c e f g h i : Z),
    s = iso_text y1 y2 y3 y4 m1 m2 d1 d2
    /\ (digit_of y1 = Some a /\ digit_of y2 = Some b
        /\ digit_of y3 = Some c /\ digit_of y4 = Some e)
    /\ (digit_of m1 = Some f /\ digit_of m2 = Some g)
    /\ (digit_of d1 = Some h /\ digit_of d2 = Some i)
    /\ d = Date (1000 * a + 100 * b + 10 * c + e) (10 * f + g) (10 * h + i)
    /\ valid_date d = true.
Proof.
  unfold date_of_iso.
  destruct s as [|y1 [|y2 [|y3 [|y4 [|s1 [|m1 [|m2 [|s2 [|d1 [|d2 [|]]]]]]]]]]];
    try done.
  destruct (digit_of y1) as [a|] eqn:E1; [|done].
  destruct (digit_of y2) as [b|] eqn:E2; [|done].
  destruct (digit_of y3) as [c|] eqn:E3; [|done].
  destruct (digit_of y4) as [e|] eqn:E4; [|done].
  destruct (digit_of m1) as [f|] eqn:E5; [|done].
  destruct (digit_of m2) as [g|] eqn:E6; [|done].
  destruct (digit_of d1) as [h|] eqn:E7; [|done].
  destruct (digit_of d2) as [i|] eqn:E8; [|done].
  destruct (Ascii.eqb_spec s1 dash) as [->|]; [|done].
  destruct (Ascii.eqb_spec s2 dash) as [->|]; [|done].
  simpl. destruct (valid_date _) eqn:V; [|done].
  intros [= <-]. exists y1, y2, y3, y4, m1, m2, d1, d2, a, b, c, e, f, g, h, i.
  by rewrite V.
Qed.

(** Decides a boolean combination of comparisons on [Z] by cases. *)
Ltac bool_lia :=
  repeat match goal with
         | |- context [?x <? ?y] => destruct (Z.ltb_spec x y)
         | |- context [?x =? ?y] => destruct (Z.eqb_spec x y)
         end;
  simpl; first [ reflexivity | lia ].

Ltac digit_bounds :=
  repeat match goal with
         | H : digit_of _ = Some _ |- _ => apply digit_of_code in H as [_ H]
         end.

Lemma iso_order s1 s2 d1 d2 :
  date_of_iso s1 = Some d1 -> date_of_iso s2 = Some d2 ->
  String.ltb s1 s2 = date_ltb d1 d2.
Proof.
  intros H1 H2.
  destruct (date_of_iso_inv _ _ H1)
    as (y1 & y2 & y3 & y4 & m1 & m2 & k1 & k2 & a & b & c & e & f & g & h & i
        & -> & (A1 & A2 & A3 & A4) & (A5 & A6) & (A7 & A8) & -> & _).
  destruct (date_of_iso_inv _ _ H2)
    as (z1 & z2 & z3 & z4 & n1 & n2 & l1 & l2 & a' & b' & c' & e' & f' & g' & h' & i'
        & -> & (B1 & B2 & B3 & B4) & (B5 & B6) & (B7 & B8) & -> & _).
  unfold String.ltb, iso_text. simpl String.compare.
  rewrite (ascii_compare_digits _ _ _ _ A1 B1), (ascii_compare_digits _ _ _ _ A2 B2),
    (ascii_compare_digits _ _ _ _ A3 B3), (ascii_compare_digits _ _ _ _ A4 B4),
    (ascii_compare_digits _ _ _ _ A5 B5), (ascii_compare_digits _ _ _ _ A6 B6),
    (ascii_compare_digits _ _ _ _ A7 B7), (ascii_compare_digits _ _ _ _ A8 B8),
    ?ascii_compare_refl.
  digit_bounds. unfold date_ltb. simpl.
  destruct (Z.compare_spec a a'); [|bool_lia..].
  destruct (Z.compare_spec b b'); [|bool_lia..].
  destruct (Z.compare_spec c c'); [|bool_lia..].
  destruct (Z.compare_spec e e'); [|bool_lia..].
  destruct (Z.compare_spec f f'); [|bool_lia..].
  destruct (Z.compare_spec g g'); [|bool_lia..].
  destruct (Z.compare_spec h h'); [|bool_lia..].
  destruct (Z.compare_spec i i'); bool_lia.
Qed.

Lemma iso_before_sentinel s d :
  date_of_iso s = Some d -> String.ltb s sentinel = true.
Proof.
  intros H1.
  destruct (date_of_iso_inv _ _ H1)
    as (y1 & y2 & y3 & y4 & m1 & m2 & k1 & k2 & a & b & c & e & f & g & h & i
        & -> & (A1 & A2 & A3 & A4) & (A5 & A6) & (A7 & A8) & -> & V).
  assert (N : digit_of "9" = Some 9) by reflexivity.
  unfold String.ltb, iso_text, sentinel. simpl String.compare.
  rewrite (ascii_compare_digits _ _ _ _ A1 N), (ascii_compare_digits _ _ _ _ A2 N),
    (ascii_compare_digits _ _ _ _ A3 N), (ascii_compare_digits _ _ _ _ A4 N),
    (ascii_compare_digits _ _ _ _ A5 N), ?ascii_compare_refl.
  unfold valid_date in V. simpl in V.
  rewrite !andb_true_iff, !Z.leb_le in V.
  digit_bounds.
  destruct (Z.compare_spec a 9); [|done|lia].
  destruct (Z.compare_spec b 9); [|done|lia].
  destruct (Z.compare_spec c 9); [|done|lia].
  destruct (Z.compare_spec e 9); [|done|lia].
  destruct (Z.compare_spec f 9); [lia|done|lia].
Qed.

Lemma sentinel_not_iso : date_of_iso sentinel = None.
Proof. reflexivity. Qed.

(** ** Keys of task-shaped records *)

Lemma task_shaped_inv t :
  task_shaped t = true ->
  exists (m : list (string * json)) (id title p : string) (c : bool) (z : Z),
    t = JObj m
    /\ dict_get m "id" = Some (JStr id)
    /\ dict_get m "title" = Some (JStr title)
    /\ dict_get m "priority" = Some (JStr p)
    /\ dict_get m "completed" = Some (JBool c)
    /\ dict_get m "created_at" = Some (JNum z)
    /\ (dict_get m "due" = Some JNull
        \/ exists (s : string) (d : date),
             dict_get m "due" = Some (JStr s) /\ date_of_iso s = Some d).
Proof.
  destruct t as [| | | | |m]; simpl; try done.
  destruct (dict_get m "id") as [[| | |id| |]|] eqn:E1; try done.
  destruct (dict_get m "title") as [[| | |title| |]|] eqn:E2; try done.
  destruct (dict_get m "priority") as [[| | |p| |]|] eqn:E3; try done.
  destruct (dict_get m "due") as [due|] eqn:E4; try done.
  destruct (dict_get m "completed") as [[|c| | | |]|] eqn:E5; try done.
  destruct (dict_get m "created_at") as [[| |z| | |]|] eqn:E6; try done.
  destruct (dict_get m "completed_at") as [cat|]; try done.
  intros H. apply andb_true_iff in H as [Hd _].
  exists m, id, title, p, c, z. do 6 (split; [done|]).
  destruct due as [| | |s| |]; try done.
  - by left.
  - apply bool_decide_eq_true in Hd as [d Hd]. right. by exists s, d.
Qed.

Lemma iso_not_empty s d : date_of_iso s = Some d -> String.eqb s "" = false.
Proof. by destruct s. Qed.

Lemma key_priority_shaped t : shaped t -> key_priority t = Ok (pri_key t).
Proof.
  intros H. destruct (task_shaped_inv t H)
    as (m & id & title & p & c & z & -> & _ & _ & Hp & _ & Hz & Hd).
  unfold key_priority, pri_key, rank_of, due_text, created_of, field, due_key,
    created_at. simpl. rewrite Hp, Hz. simpl.
  destruct Hd as [Hd|(s & d & Hd & Hs)]; rewrite Hd; simpl; [done|].
  by rewrite (iso_not_empty _ _ Hs).
Qed.

Lemma key_due_shaped t : shaped t -> key_due t = Ok (due_sort_key t).
Proof.
  intros H. destruct (task_shaped_inv t H)
    as (m & id & title & p & c & z & -> & _ & _ & Hp & _ & Hz & Hd).
  unfold key_due, due_sort_key, rank_of, due_text, created_of, field, due_key,
    created_at. simpl. rewrite Hp, Hz. simpl.
  destruct Hd as [Hd|(s & d & Hd & Hs)]; rewrite Hd; simpl; [done|].
  by rewrite (iso_not_empty _ _ Hs).
Qed.

Lemma created_at_shaped t : shaped t -> created_at t = Ok (created_of t).
Proof.
  intros H. destruct (task_shaped_inv t H)
    as (m & id & title & p & c & z & -> & _ & _ & _ & _ & Hz & _).
  unfold created_at, created_of, field. simpl. by rewrite Hz.
Qed.

(** On task-shaped records the texts of the due keys compare as the due
    dates do, a missing date last. *)
Lemma due_text_order a b :
  shaped a -> shaped b ->
  String.ltb (due_text a) (due_text b) = due_before (due_of a) (due_of b).
Proof.
  intros Ha Hb.
  destruct (task_shaped_inv a Ha) as (ma & _ & _ & _ & _ & _ & -> & _ & _ & _ & _ & _ & Da).
  destruct (task_shaped_inv b Hb) as (mb & _ & _ & _ & _ & _ & -> & _ & _ & _ & _ & _ & Db).
  unfold due_text, due_of, field. simpl.
  destruct Da as [Da|(s1 & d1 & Da & H1)], Db as [Db|(s2 & d2 & Db & H2)];
    rewrite Da, Db; simpl.
  - reflexivity.
  - pose proof (iso_before_sentinel _ _ H2) as L.
    destruct strict_total_string as [I T _].
    destruct (String.ltb sentinel s2) eqn:E; [|done].
    pose proof (T _ _ _ E L) as C. by rewrite I in C.
  - rewrite H1. simpl. by apply iso_before_sentinel in H1.
  - rewrite H1, H2. simpl. by apply iso_order.
Qed.

Lemma due_text_eq a b :
  shaped a -> shaped b -> due_text a = due_text b -> due_of a = due_of b.
Proof.
  intros Ha Hb.
  destruct (task_shaped_inv a Ha) as (ma & _ & _ & _ & _ & _ & -> & _ & _ & _ & _ & _ & Da).
  destruct (task_shaped_inv b Hb) as (mb & _ & _ & _ & _ & _ & -> & _ & _ & _ & _ & _ & Db).
  unfold due_text, due_of, field. simpl.
  destruct Da as [Da|(s1 & d1 & Da & H1)], Db as [Db|(s2 & d2 & Db & H2)];
    rewrite Da, Db; simpl; intros E; subst; done.
Qed.

Lemma pri_key_order a b :
  shaped a -> shaped b ->
  key_pri_ltb (pri_key b) (pri_key a) = false -> priority_order a b.
Proof.
  intros Ha Hb. unfold pri_key, key_pri_ltb, priority_order.
  rewrite <- (due_text_order a b Ha Hb).
  pose proof (due_text_eq a b Ha Hb) as Heq.
  destruct strict_total_string as [_ _ O].
  specialize (O (due_text a) (due_text b)).
  destruct (Z.ltb_spec (rank_of b) (rank_of a)); simpl; [done|].
  destruct (Z.eqb_spec (rank_of b) (rank_of a)) as [E|]; simpl; [|lia].
  destruct (String.ltb (due_text b) (due_text a)) eqn:L1; simpl; [done|].
  intros Hc. right. split; [done|].
  destruct (String.ltb (due_text a) (due_text b)) eqn:L2; [by left|].
  right. specialize (O eq_refl eq_refl). split; [by apply Heq|].
  rewrite O, String.eqb_refl in Hc. simpl in Hc. apply Z.ltb_ge in Hc. lia.
Qed.

(** ** The query engine on task-shaped collections *)

Lemma filter_exc_total {A} (p : A -> exc bool) (P : A -> Prop) (l : list A) :
  (forall x, P x -> exists b, p x = Ok b) -> Forall P l ->
  exists l', filter_exc p l = Ok l' /\ Forall P l'.
Proof.
  intros Hp. induction 1 as [|x l Hx Hl (l' & E & F)]; simpl.
  - by exists [].
  - destruct (Hp x Hx) as [b ->]. simpl. rewrite E. simpl.
    destruct b; eexists; split; eauto.
Qed.

Lemma keep_active_shaped t : shaped t -> exists b, keep_active t = Ok b.
Proof.
  intros H. destruct (task_shaped_inv t H)
    as (m & _ & _ & _ & c & _ & -> & _ & _ & _ & Hc & _).
  unfold keep_active. simpl. rewrite Hc. simpl. eauto.
Qed.

Lemma keep_completed_shaped t : shaped t -> exists b, keep_completed t = Ok b.
Proof.
  intros H. destruct (task_shaped_inv t H)
    as (m & _ & _ & _ & c & _ & -> & _ & _ & _ & Hc & _).
  unfold keep_completed. simpl. rewrite Hc. simpl. eauto.
Qed.

Lemma keep_matching_shaped ql t : shaped t -> exists b, keep_matching ql t = Ok b.
Proof.
  intros H. destruct (task_shaped_inv t H)
    as (m & _ & title & _ & _ & _ & -> & _ & Ht & _).
  unfold keep_matching. simpl. rewrite Ht. simpl. eauto.
Qed.

Lemma keep_overdue_shaped now t : shaped t -> exists b, keep_overdue now t = Ok b.
Proof.
  intros H. destruct (task_shaped_inv t H)
    as (m & _ & _ & _ & c & _ & -> & _ & _ & _ & Hc & _ & Hd).
  unfold keep_overdue, is_overdue. simpl. rewrite Hc.
  destruct Hd as [Hd|(s & d & Hd & Hs)]; rewrite Hd; simpl; [eauto|].
  rewrite (iso_not_empty _ _ Hs). simpl. destruct c; simpl; [eauto|].
  rewrite (date_of_iso_fromisoformat _ _ Hs). eauto.
Qed.

Lemma filter_stage_shaped now items show q overdue_only :
  Forall shaped items ->
  exists kept, filter_stage now items show q overdue_only = Ok kept
               /\ Forall shaped kept.
Proof.
  intros H0. unfold filter_stage.
  assert (S1 : exists l1,
             (if String.eqb show "active" then filter_exc keep_active items
              else if String.eqb show "completed"
                   then filter_exc keep_completed items
                   else Ok items) = Ok l1 /\ Forall shaped l1).
  { destruct (String.eqb show "active").
    - apply filter_exc_total; [apply keep_active_shaped|done].
    - destruct (String.eqb show "completed"); [|by exists items].
      apply filter_exc_total; [apply keep_completed_shaped|done]. }
  destruct S1 as (l1 & -> & H1). simpl.
  assert (S2 : exists l2,
             (if negb (String.eqb q "")
              then filter_exc (keep_matching (lower q)) l1
              else Ok l1) = Ok l2 /\ Forall shaped l2).
  { destruct (negb (String.eqb q "")); [|by exists l1].
    apply filter_exc_total; [apply keep_matching_shaped|done]. }
  destruct S2 as (l2 & -> & H2). simpl.
  destruct overdue_only; [|by exists l2].
  apply filter_exc_total; [apply keep_overdue_shaped|done].
Qed.

Lemma decorate_shaped {K} (key : json -> exc K) (k : json -> K) (l : list json) :
  (forall t, shaped t -> key t = Ok (k t)) -> Forall shaped l ->
  decorate key l = Ok (map (fun t => (k t, t)) l).
Proof.
  intros Hk. unfold decorate. induction 1 as [|t l Ht Hl IH]; simpl; [done|].
  rewrite (Hk t Ht). simpl. by rewrite IH.
Qed.

Lemma sorted_map_snd {K} (R : K * json -> K * json -> Prop)
    (R' : json -> json -> Prop) (Q : K * json -> Prop) (l : list (K * json)) :
  (forall x y, Q x -> Q y -> R x y -> R' (snd x) (snd y)) ->
  Forall Q l -> StronglySorted R l -> StronglySorted R' (map snd l).
Proof.
  intros HR HQ. induction 1 as [|x l Hs IH Hx]; simpl; [constructor|].
  apply Forall_cons in HQ as [Qx Ql].
  constructor; [by apply IH|].
  apply Forall_map. rewrite Forall_forall in Hx, Ql. apply Forall_forall.
  intros y Hy. apply HR; auto.
Qed.

Lemma map_snd_decorated {K} (k : json -> K) (l : list json) :
  map snd (map (fun t => (k t, t)) l) = l.
Proof. induction l; simpl; congruence. Qed.

(** [sorted] on the priority key returns a permutation of its argument
    that is in the order of the specification. *)
Lemma sorted_priority_spec kept :
  Forall shaped kept ->
  exists out,
    sorted key_pri_ltb key_priority false kept = Ok out
    /\ Permutation out kept
    /\ StronglySorted priority_order out.
Proof.
  intros Hk. unfold sorted.
  rewrite (decorate_shaped key_priority pri_key kept key_priority_shaped Hk).
  simpl. eexists. split; [reflexivity|].
  set (d := map (fun t => (pri_key t, t)) kept).
  assert (Hd : Forall (fun p => fst p = pri_key (snd p) /\ shaped (snd p)) d).
  { unfold d. apply Forall_map. eapply Forall_impl; [exact Hk|]. by intros t Ht. }
  split.
  - rewrite (isort_perm key_pri_ltb d). unfold d.
    by rewrite map_snd_decorated.
  - apply (sorted_map_snd (not_after key_pri_ltb) priority_order
             (fun p => fst p = pri_key (snd p) /\ shaped (snd p))).
    + intros [ka a] [kb b] [Ea Sa] [Eb Sb]. unfold not_after. simpl in *. subst.
      by apply pri_key_order.
    + by rewrite (isort_perm key_pri_ltb d).
    + apply isort_sorted, strict_total_key_pri.
Qed.

Lemma forallb_shaped items : forallb task_shaped items = true -> Forall shaped items.
Proof.
  intros H. apply Forall_forall. intros t Ht.
  rewrite forallb_forall in H. apply H. by apply list_elem_of_In.
Qed.

(** C4: on a collection of task-shaped records, [filtered_sorted] with
    sort=priority returns, before the optional reversal, a permutation of
    the records that pass the filters, in which every record stands before
    every later one in the order of the specification: by rank, high 0,
    normal 1, low 2; at equal rank by due date, a record without due date
    after every record with one; at equal rank and due date the newer
    record first. *)
Theorem priority_sort_order
    (now : date) (items : list json) (show q : string)
    (reverse overdue_only : bool) :
  forallb task_shaped items = true ->
  (pri_rank (JStr "high") = Ok 0 /\ pri_rank (JStr "normal") = Ok 1
   /\ pri_rank (JStr "low") = Ok 2)
  /\ exists kept out : list json,
       filter_stage now items show q overdue_only = Ok kept
       /\ filtered_sorted now items show q "priority" reverse overdue_only
          = Ok (if reverse then rev out else out)
       /\ Permutation out kept
       /\ StronglySorted priority_order out.
Proof.
  intros H. split; [done|].
  destruct (filter_stage_shaped now items show q overdue_only (forallb_shaped _ H))
    as (kept & Hk & Hs).
  destruct (sorted_priority_spec kept Hs) as (out & Ho & Hp & Hso).
  exists kept, out. split; [done|]. split; [|done].
  unfold filtered_sorted. rewrite Hk. simpl. unfold sort_stage. simpl.
  by rewrite Ho.
Qed.

(** C4 at the sample store: high before normal before low. *)
Lemma priority_sort_order_witness :
  forallb task_shaped sample_items = true
  /\ filtered_sorted (Date 2024 1 15) sample_items "all" "" "priority" false false
     = Ok [ task "ab12cd34" "Buy milk" "high" (Some "2024-01-01") false 1700000010 None;
            task "cd56ab78" "Read" "normal" (Some "2023-12-01") true 1700000030
                 (Some 1700000040);
            task "ab34ef56" "Walk dog" "low" None false 1700000020 None ]
  /\ StronglySorted priority_order
       [ task "ab12cd34" "Buy milk" "high" (Some "2024-01-01") false 1700000010 None;
         task "cd56ab78" "Read" "normal" (Some "2023-12-01") true 1700000030
              (Some 1700000040);
         task "ab34ef56" "Walk dog" "low" None false 1700000020 None ].
Proof.
  assert (H : forallb task_shaped sample_items = true) by reflexivity.
  destruct (priority_sort_order (Date 2024 1 15) sample_items "all" "" false false H)
    as (_ & kept & out & _ & Hfs & _ & Hso).
  assert (E : filtered_sorted (Date 2024 1 15) sample_items "all" "" "priority"
                              false false
              = Ok [ task "ab12cd34" "Buy milk" "high" (Some "2024-01-01") false
                          1700000010 None;
                     task "cd56ab78" "Read" "normal" (Some "2023-12-01") true
                          1700000030 (Some 1700000040);
                     task "ab34ef56" "Walk dog" "low" None false 1700000020 None ])
    by (vm_compute; reflexivity).
  rewrite E in Hfs. injection Hfs as <-.
  split; [exact H|]. split; [exact E|exact Hso].
Defined.

(** ** Priorities outside the enumeration *)

Lemma pri_rank_invalid p : in_priorities p = false -> pri_rank (JStr p) = Ok 1.
Proof.
  unfold in_priorities, PRIORITIES. cbn [existsb].
  rewrite !orb_false_iff. intros (H1 & H2 & H3 & _).
  apply String.eqb_neq in H1, H2, H3.
  unfold pri_rank, order. cbn [assoc].
  destruct (String.eqb_spec "high" p); [congruence|].
  destruct (String.eqb_spec "normal" p); [congruence|].
  destruct (String.eqb_spec "low" p); [congruence|done].
Qed.

Lemma subscript_normalize t k :
  k <> "priority"%string ->
  subscript (normalize_priority t) k = subscript t k.
Proof.
  intros Hk. destruct t as [| | | | |m]; try done.
  unfold normalize_priority. destruct (valid_priority (JObj m)); [done|].
  by apply subscript_set_ne.
Qed.

Lemma field_normalize t k :
  k <> "priority"%string -> field (normalize_priority t) k = field t k.
Proof. intros Hk. unfold field. by rewrite subscript_normalize. Qed.

Lemma normalize_shaped t : shaped t -> shaped (normalize_priority t).
Proof.
  intros H. destruct (task_shaped_inv t H) as (m & _ & _ & _ & _ & _ & -> & _).
  unfold normalize_priority. destruct (valid_priority (JObj m)); [done|].
  unfold shaped in *. simpl in *.
  rewrite dict_get_set_eq. rewrite !dict_get_set_ne by done.
  destruct (dict_get m "id") as [[]|]; try done.
  destruct (dict_get m "title") as [[]|]; try done.
  by destruct (dict_get m "priority") as [[]|].
Qed.

Lemma rank_of_normalize t : shaped t -> rank_of (normalize_priority t) = rank_of t.
Proof.
  intros H. destruct (task_shaped_inv t H)
    as (m & _ & _ & p & _ & _ & -> & _ & _ & Hp & _).
  unfold normalize_priority, valid_priority. simpl. rewrite Hp.
  destruct (in_priorities p) eqn:E; [done|].
  unfold rank_of, field. simpl. rewrite dict_get_set_eq, Hp.
  by rewrite (pri_rank_invalid p E).
Qed.

Lemma pri_key_normalize t : shaped t -> pri_key (normalize_priority t) = pri_key t.
Proof.
  intros H. unfold pri_key, due_text, created_of.
  by rewrite (rank_of_normalize t H), !field_normalize.
Qed.

Lemma due_sort_key_normalize t :
  shaped t -> due_sort_key (normalize_priority t) = due_sort_key t.
Proof.
  intros H. unfold due_sort_key, due_text, created_of.
  by rewrite (rank_of_normalize t H), !field_normalize.
Qed.

Lemma created_of_normalize t : created_of (normalize_priority t) = created_of t.
Proof. unfold created_of. by rewrite field_normalize. Qed.

Lemma filter_exc_map {A} (p : A -> exc bool) (f : A -> A) (l : list A) :
  (forall x, p (f x) = p x) ->
  filter_exc p (map f l) = fmap_exc (map f) (filter_exc p l).
Proof.
  intros Hp. induction l as [|x l IH]; simpl; [done|].
  rewrite Hp, IH. destruct (p x) as [b| |]; simpl; try done.
  destruct (filter_exc p l); simpl; try done. by destruct b.
Qed.

Lemma keep_active_normalize t : keep_active (normalize_priority t) = keep_active t.
Proof. unfold keep_active. by rewrite subscript_normalize. Qed.

Lemma keep_completed_normalize t :
  keep_completed (normalize_priority t) = keep_completed t.
Proof. unfold keep_completed. by rewrite subscript_normalize. Qed.

Lemma keep_matching_normalize ql t :
  keep_matching ql (normalize_priority t) = keep_matching ql t.
Proof. unfold keep_matching. by rewrite subscript_normalize. Qed.

Lemma keep_overdue_normalize now t :
  keep_overdue now (normalize_priority t) = keep_overdue now t.
Proof. unfold keep_overdue. by rewrite !subscript_normalize. Qed.

Lemma filter_stage_normalize now items show q overdue_only :
  filter_stage now (map normalize_priority items) show q overdue_only
  = fmap_exc (map normalize_priority) (filter_stage now items show q overdue_only).
Proof.
  unfold filter_stage.
  assert (S1 : (if String.eqb show "active"
                then filter_exc keep_active (map normalize_priority items)
                else if String.eqb show "completed"
                     then filter_exc keep_completed (map normalize_priority items)
                     else Ok (map normalize_priority items))
               = fmap_exc (map normalize_priority)
                   (if String.eqb show "active" then filter_exc keep_active items
                    else if String.eqb show "completed"
                         then filter_exc keep_completed items
                         else Ok items)).
  { destruct (String.eqb show "active").
    - apply filter_exc_map, keep_active_normalize.
    - destruct (String.eqb show "completed"); [|done].
      apply filter_exc_map, keep_completed_normalize. }
  rewrite S1. clear S1.
  destruct (if String.eqb show "active" then _ else _) as [l1| |]; simpl; try done.
  assert (S2 : (if negb (String.eqb q "")
                then filter_exc (keep_matching (lower q)) (map normalize_priority l1)
                else Ok (map normalize_priority l1))
               = fmap_exc (map normalize_priority)
                   (if negb (String.eqb q "")
                    then filter_exc (keep_matching (lower q)) l1
                    else Ok l1)).
  { destruct (negb (String.eqb q "")); [|done].
    apply filter_exc_map, keep_matching_normalize. }
  rewrite S2. clear S2.
  destruct (if negb (String.eqb q "") then _ else _) as [l2| |]; simpl; try done.
  destruct overdue_only; [|done].
  apply filter_exc_map, keep_overdue_normalize.
Qed.

(** Sorting a task-shaped list after normalising the priorities gives the
    normalised sorted list, whenever the key does not tell a record from
    its normal form. *)
Lemma sorted_normalize {K} (ltb : K -> K -> bool) (key : json -> exc K)
    (k : json -> K) (rv : bool) (l : list json) :
  (forall t, shaped t -> key t = Ok (k t)) ->
  (forall t, shaped t -> k (normalize_priority t) = k t) ->
  Forall shaped l ->
  exists out,
    sorted ltb key rv l = Ok out
    /\ sorted ltb key rv (map normalize_priority l)
       = Ok (map normalize_priority out).
Proof.
  intros Hkey Hk Hl. unfold sorted.
  rewrite (decorate_shaped key k l Hkey Hl).
  assert (Hn : Forall shaped (map normalize_priority l)).
  { apply Forall_map. eapply Forall_impl; [exact Hl|]. apply normalize_shaped. }
  rewrite (decorate_shaped key k _ Hkey Hn). simpl.
  eexists. split; [reflexivity|]. f_equal.
  set (g := fun p : K * json => (fst p, normalize_priority (snd p))).
  assert (E : map (fun t => (k t, t)) (map normalize_priority l)
              = map g (map (fun t => (k t, t)) l)).
  { rewrite !map_map. apply map_ext_Forall.
    eapply Forall_impl; [exact Hl|]. intros t Ht. unfold g. simpl.
    by rewrite (Hk t Ht). }
  rewrite E.
  assert (S : forall d : list (K * json),
             map snd (map g d) = map normalize_priority (map snd d)).
  { intros d. rewrite !map_map. done. }
  destruct rv.
  - rewrite <- map_rev. unfold g. rewrite (isort_payload ltb normalize_priority).
    fold g. rewrite <- map_rev. apply S.
  - unfold g. rewrite (isort_payload ltb normalize_priority). fold g. apply S.
Qed.

Lemma sort_stage_normalize kept sort_key :
  Forall shaped kept ->
  exists out,
    sort_stage kept sort_key = Ok out
    /\ sort_stage (map normalize_priority kept) sort_key
       = Ok (map normalize_priority out).
Proof.
  intros Hk. unfold sort_stage.
  destruct (String.eqb sort_key "priority").
  { apply (sorted_normalize _ _ pri_key);
      [apply key_priority_shaped|apply pri_key_normalize|done]. }
  destruct (String.eqb sort_key "due").
  { apply (sorted_normalize _ _ due_sort_key);
      [apply key_due_shaped|apply due_sort_key_normalize|done]. }
  apply (sorted_normalize _ _ created_of);
    [apply created_at_shaped|intros; apply created_of_normalize|done].
Qed.

(** C10: a priority string outside high/normal/low has rank 1, the rank of
    normal; so on task-shaped records, whatever their priority strings,
    [filtered_sorted] returns for every sort key, and what it returns is,
    record for record, what it returns on the collection in which every
    such priority is replaced by "normal". *)
Theorem unknown_priority_sorts_as_normal :
  (forall p : string, in_priorities p = false -> pri_rank (JStr p) = Ok 1)
  /\ pri_rank (JStr "normal") = Ok 1
  /\ forall (now : date) (items : list json) (show q sort_key : string)
            (reverse overdue_only : bool),
       forallb task_shaped items = true ->
       exists out : list json,
         filtered_sorted now items show q sort_key reverse overdue_only = Ok out
         /\ filtered_sorted now (map normalize_priority items) show q sort_key
                            reverse overdue_only
            = Ok (map normalize_priority out).
Proof.
  split; [apply pri_rank_invalid|]. split; [done|].
  intros now items show q sort_key reverse overdue_only H.
  destruct (filter_stage_shaped now items show q overdue_only (forallb_shaped _ H))
    as (kept & Hk & Hs).
  destruct (sort_stage_normalize kept sort_key Hs) as (out & Ho & Hn).
  exists (if reverse then rev out else out).
  unfold filtered_sorted. rewrite filter_stage_normalize, Hk. simpl.
  rewrite Ho, Hn. simpl. split; [done|].
  destruct reverse; [|done]. by rewrite map_rev.
Qed.

(** C10 on a store with the priority "urgent": the record sorts between
    high and low, as a normal one does, for sort=priority and sort=due. *)
Lemma unknown_priority_sorts_as_normal_witness :
  let odd := task "ee01ee02" "Call" "urgent" None false 1700000050 None in
  let items := odd :: sample_items in
  in_priorities "urgent" = false
  /\ pri_rank (JStr "urgent") = Ok 1
  /\ forallb task_shaped items = true
  /\ normalize_priority odd = task "ee01ee02" "Call" "normal" None false 1700000050 None
  /\ exists out : list json,
       filtered_sorted (Date 2024 1 15) items "all" "" "due" false false = Ok out
       /\ filtered_sorted (Date 2024 1 15) (map normalize_priority items)
                          "all" "" "due" false false
          = Ok (map normalize_priority out).
Proof.
  intros odd items.
  destruct unknown_priority_sorts_as_normal as (Hrank & _ & Hsort).
  assert (Hp : in_priorities "urgent" = false) by reflexivity.
  assert (Hi : forallb task_shaped items = true) by reflexivity.
  split; [exact Hp|]. split; [exact (Hrank "urgent" Hp)|]. split; [exact Hi|].
  split; [reflexivity|].
  exact (Hsort (Date 2024 1 15) items "all" "" "due" false false Hi).
Defined.

(** * Further properties of the program *)

(** ** What a listing is made of *)

Lemma sublist_Forall {A} (P : A -> Prop) (l' l : list A) :
  sublist l' l -> Forall P l -> Forall P l'.
Proof.
  induction 1 as [|x l1 l2 _ IH|x l1 l2 _ IH]; intros H; [done|..].
  - apply Forall_cons in H as [Hx H]. constructor; auto.
  - apply Forall_cons in H as [_ H]. auto.
Qed.

Lemma filter_exc_inv {A} (p : A -> exc bool) (l l' : list A) :
  filter_exc p l = Ok l' ->
  sublist l' l /\ Forall (fun x => p x = Ok true) l'.
Proof.
  revert l'. induction l as [|x l IH]; simpl; intros l' H.
  - injection H as <-. split; constructor.
  - destruct (p x) as [b| |] eqn:E; simpl in H; try done.
    destruct (filter_exc p l) as [r| |]; simpl in H; try done.
    destruct (IH r eq_refl) as [S F]. injection H as <-.
    destruct b.
    + split; [by apply sublist_skip|by constructor].
    + split; [by apply sublist_cons|done].
Qed.

Lemma decorate_snd {K} (key : json -> exc K) (l : list json) d :
  decorate key l = Ok d -> map snd d = l.
Proof.
  unfold decorate. revert d. induction l as [|t l IH]; simpl; intros d H.
  - by injection H as <-.
  - destruct (key t); simpl in H; try done.
    destruct (map_exc _ l) as [r| |]; simpl in H; try done.
    injection H as <-. simpl. by rewrite (IH r).
Qed.

Lemma sorted_perm {K} (ltb : K -> K -> bool) (key : json -> exc K) rv l out :
  sorted ltb key rv l = Ok out -> Permutation out l.
Proof.
  unfold sorted. destruct (decorate key l) as [d| |] eqn:E; simpl; try done.
  intros [= <-]. rewrite <- (decorate_snd _ _ _ E). apply Permutation_map.
  destruct rv; [|apply isort_perm].
  rewrite <- Permutation_rev, isort_perm. symmetry. apply Permutation_rev.
Qed.

Lemma sort_stage_perm l k out : sort_stage l k = Ok out -> Permutation out l.
Proof.
  unfold sort_stage.
  destruct (String.eqb k "priority"); [apply sorted_perm|].
  destruct (String.eqb k "due"); apply sorted_perm.
Qed.

Lemma keep_active_true t : keep_active t = Ok true -> open_task t.
Proof.
  unfold keep_active, open_task.
  destruct (subscript t "completed") as [c| |]; simpl; try done.
  intros [= H]. exists c. split; [done|]. by apply negb_true_iff.
Qed.

Lemma keep_completed_true t : keep_completed t = Ok true -> completed_task t.
Proof.
  unfold keep_completed, completed_task.
  destruct (subscript t "completed") as [c| |]; simpl; try done.
  intros [= H]. by exists c.
Qed.

Lemma keep_matching_true q t : keep_matching (lower q) t = Ok true -> title_contains q t.
Proof.
  unfold keep_matching, title_contains.
  destruct (subscript t "title") as [[| | |s| |]| |]; simpl; try done.
  intros [= H]. by exists s.
Qed.

Lemma is_overdue_true now due c :
  is_overdue now due c = Ok true ->
  exists s d, due = JStr s /\ fromisoformat s = Some d
              /\ date_ltb d now = true /\ truthy c = false.
Proof.
  unfold is_overdue.
  destruct (truthy due) eqn:Td; simpl; [|done].
  destruct (truthy c) eqn:Tc; simpl; [done|].
  destruct due as [| | |s| |]; try done.
  destruct (fromisoformat s) as [d|] eqn:E; [|done].
  intros [= H]. by exists s, d.
Qed.

Lemma keep_overdue_true now t : keep_overdue now t = Ok true -> overdue_task now t.
Proof.
  unfold keep_overdue, overdue_task, open_task.
  destruct (subscript t "due") as [due| |]; simpl; try done.
  destruct (subscript t "completed") as [c| |]; simpl; try done.
  intros H. destruct (is_overdue_true _ _ _ H) as (s & d & -> & Hd & Hlt & Hc).
  exists s, d. repeat split; try done. by exists c.
Qed.

(** What [filter_stage] returns is a sublist of its argument, and each
    filter that was asked for holds of every record it returns. *)
Lemma filter_stage_inv now items show q overdue_only kept :
  filter_stage now items show q overdue_only = Ok kept ->
  sublist kept items
  /\ (show = "active"%string -> Forall open_task kept)
  /\ (show = "completed"%string -> Forall completed_task kept)
  /\ (q <> ""%string -> Forall (title_contains q) kept)
  /\ (overdue_only = true -> Forall (overdue_task now) kept).
Proof.
  unfold filter_stage.
  destruct (if String.eqb show "active" then _ else _) as [l1| |] eqn:E1;
    simpl; try done.
  destruct (if negb (String.eqb q "") then _ else _) as [l2| |] eqn:E2;
    simpl; try done.
  intros E3.
  assert (S1 : sublist l1 items
               /\ (show = "active"%string -> Forall open_task l1)
               /\ (show = "completed"%string -> Forall completed_task l1)).
  { destruct (String.eqb_spec show "active") as [->|Ha].
    - destruct (filter_exc_inv _ _ _ E1) as [S F]. split; [done|].
      split; [|done]. intros _. eapply Forall_impl; [exact F|].
      apply keep_active_true.
    - destruct (String.eqb_spec show "completed") as [->|Hc].
      + destruct (filter_exc_inv _ _ _ E1) as [S F]. split; [done|].
        split; [done|]. intros _. eapply Forall_impl; [exact F|].
        apply keep_completed_true.
      + injection E1 as <-. split; [done|]. by split. }
  destruct S1 as (S1 & A1 & C1).
  assert (S2 : sublist l2 l1 /\ (q <> ""%string -> Forall (title_contains q) l2)).
  { destruct (String.eqb_spec q "") as [->|Hq]; simpl in E2.
    - injection E2 as <-. by split.
    - destruct (filter_exc_inv _ _ _ E2) as [S F]. split; [done|].
      intros _. eapply Forall_impl; [exact F|]. apply keep_matching_true. }
  destruct S2 as (S2 & Q2).
  assert (S3 : sublist kept l2
               /\ (overdue_only = true -> Forall (overdue_task now) kept)).
  { destruct overdue_only.
    - destruct (filter_exc_inv _ _ _ E3) as [S F]. split; [done|].
      intros _. eapply Forall_impl; [exact F|]. apply keep_overdue_true.
    - injection E3 as <-. by split. }
  destruct S3 as (S3 & O3).
  split; [by repeat (etrans; [eassumption|])|].
  split; [intros H; eapply sublist_Forall; [|by apply A1]; by etrans|].
  split; [intros H; eapply sublist_Forall; [|by apply C1]; by etrans|].
  split; [intros H; eapply sublist_Forall; [|by apply Q2]; done|done].
Qed.

Lemma filtered_sorted_inv now items show q k rv o out :
  filtered_sorted now items show q k rv o = Ok out ->
  exists kept,
    filter_stage now items show q o = Ok kept /\ Permutation out kept.
Proof.
  unfold filtered_sorted.
  destruct (filter_stage now items show q o) as [kept| |]; simpl; try done.
  destruct (sort_stage kept k) as [s| |] eqn:E; simpl; try done.
  intros [= <-]. exists kept. split; [done|].
  apply sort_stage_perm in E. destruct rv; [|done].
  by rewrite <- Permutation_rev.
Qed.

Lemma filtered_sorted_shaped now items show q k rv o :
  Forall shaped items ->
  exists out, filtered_sorted now items show q k rv o = Ok out.
Proof.
  intros H. unfold filtered_sorted.
  destruct (filter_stage_shaped now items show q o H) as (kept & -> & Hk).
  destruct (sort_stage_normalize kept k Hk) as (out & E & _).
  simpl. rewrite E. simpl. eauto.
Qed.

(** X1: on task-shaped records [filtered_sorted] always returns, whatever
    the filters, the query and the order asked for, and the listing shows
    records of the collection only, each at most as often as the collection
    holds it: it is a rearrangement of a sublist of the collection. *)
Theorem listing_is_selection
    (now : date) (items : list json) (show q sort_key : string)
    (rv overdue_only : bool) :
  forallb task_shaped items = true ->
  exists out kept : list json,
    filtered_sorted now items show q sort_key rv overdue_only = Ok out
    /\ sublist kept items /\ Permutation out kept
    /\ (length out <= length items)%nat.
Proof.
  intros Hs.
  destruct (filtered_sorted_shaped now items show q sort_key rv overdue_only
              (forallb_shaped items Hs)) as (out & H).
  destruct (filtered_sorted_inv _ _ _ _ _ _ _ _ H) as (kept & Hk & Hp).
  destruct (filter_stage_inv _ _ _ _ _ _ Hk) as (S & _).
  exists out, kept. split; [done|]. split; [done|]. split; [done|].
  rewrite (Permutation_length Hp). by apply sublist_length.
Qed.

(** X1 at the sample store: the active tasks, sorted by due date. *)
Lemma listing_is_selection_witness :
  exists out kept : list json,
    filtered_sorted (Date 2024 1 15) sample_items "active" "" "due" false false
    = Ok out
    /\ sublist kept sample_items /\ Permutation out kept
    /\ (length out <= 3)%nat.
Proof.
  exact (listing_is_selection (Date 2024 1 15) sample_items "active" "" "due"
           false false sample_items_shaped).
Defined.

Lemma open_not_completed t : open_task t -> completed_task t -> False.
Proof. intros (c & H1 & H2) (c' & H3 & H4). congruence. Qed.

(** X2: on task-shaped records [filtered_sorted] returns a listing of
    which every record passes each filter that was asked for: with
    show=active it is open, with show=completed it is completed, with a
    query its title contains the query without regard to case, with the
    overdue flag it is open and its due date is before today.  So the
    listing of the completed tasks that are overdue is always empty. *)
Theorem listing_respects_filters
    (now : date) (items : list json) (show q sort_key : string)
    (rv overdue_only : bool) :
  forallb task_shaped items = true ->
  exists out : list json,
    filtered_sorted now items show q sort_key rv overdue_only = Ok out
    /\ (show = "active"%string -> Forall open_task out)
    /\ (show = "completed"%string -> Forall completed_task out)
    /\ (q <> ""%string -> Forall (title_contains q) out)
    /\ (overdue_only = true -> Forall (overdue_task now) out)
    /\ (show = "completed"%string -> overdue_only = true -> out = []).
Proof.
  intros Hs.
  destruct (filtered_sorted_shaped now items show q sort_key rv overdue_only
              (forallb_shaped items Hs)) as (out & H).
  exists out. split; [exact H|].
  destruct (filtered_sorted_inv _ _ _ _ _ _ _ _ H) as (kept & Hk & Hp).
  destruct (filter_stage_inv _ _ _ _ _ _ Hk) as (_ & A & C & Q & O).
  assert (T : forall P : json -> Prop, Forall P kept -> Forall P out).
  { intros P F. rewrite Forall_forall in *. intros t Ht. apply F.
    by rewrite <- Hp. }
  split; [auto|]. split; [auto|]. split; [auto|]. split; [auto|].
  intros Hc Ho. specialize (C Hc). specialize (O Ho).
  destruct kept as [|t kept].
  - symmetry in Hp. by apply Permutation_nil in Hp.
  - apply Forall_cons in C as [C _]. apply Forall_cons in O as [O _].
    destruct O as (s & d & _ & _ & _ & O).
    destruct (open_not_completed t O C).
Qed.

(** X2 at the sample store: of the three tasks only "Buy milk" is overdue
    on 2024-01-15, and none of the completed ones is. *)
Lemma listing_respects_filters_witness :
  (exists out : list json,
     filtered_sorted (Date 2024 1 15) sample_items "all" "" "created" false true
     = Ok out
     /\ Forall (overdue_task (Date 2024 1 15)) out)
  /\ filtered_sorted (Date 2024 1 15) sample_items "completed" "" "created"
                     false true = Ok [].
Proof.
  destruct (listing_respects_filters (Date 2024 1 15) sample_items "all" ""
              "created" false true sample_items_shaped)
    as (out & E & _ & _ & _ & O & _).
  destruct (listing_respects_filters (Date 2024 1 15) sample_items "completed" ""
              "created" false true sample_items_shaped)
    as (out' & E' & _ & _ & _ & _ & N).
  split; [exists out; split; [exact E|exact (O eq_refl)]|].
  rewrite <- (N eq_refl eq_refl). exact E'.
Defined.

(** ** The orders of sort=due and of the default sort *)

Lemma due_key_order a b :
  shaped a -> shaped b ->
  key_due_ltb (due_sort_key b) (due_sort_key a) = false -> due_order a b.
Proof.
  intros Ha Hb. unfold due_sort_key, key_due_ltb, due_order.
  rewrite <- (due_text_order a b Ha Hb).
  pose proof (due_text_eq a b Ha Hb) as Heq.
  destruct strict_total_string as [_ _ O].
  specialize (O (due_text a) (due_text b)).
  destruct (String.ltb (due_text b) (due_text a)) eqn:L1; simpl; [done|].
  destruct (String.ltb (due_text a) (due_text b)) eqn:L2; [by left|].
  specialize (O eq_refl eq_refl). rewrite O, String.eqb_refl. simpl.
  intros Hc. right. split; [by apply Heq|].
  destruct (Z.ltb_spec (rank_of b) (rank_of a)); simpl in Hc; [done|].
  destruct (Z.eqb_spec (rank_of b) (rank_of a)); simpl in Hc; [|lia].
  apply Z.ltb_ge in Hc. lia.
Qed.

Lemma sorted_due_spec kept :
  Forall shaped kept ->
  exists out,
    sorted key_due_ltb key_due false kept = Ok out
    /\ Permutation out kept
    /\ StronglySorted due_order out.
Proof.
  intros Hk. unfold sorted.
  rewrite (decorate_shaped key_due due_sort_key kept key_due_shaped Hk).
  simpl. eexists. split; [reflexivity|].
  set (d := map (fun t => (due_sort_key t, t)) kept).
  assert (Hd : Forall (fun p => fst p = due_sort_key (snd p) /\ shaped (snd p)) d).
  { unfold d. apply Forall_map. eapply Forall_impl; [exact Hk|]. by intros t Ht. }
  split.
  - rewrite (isort_perm key_due_ltb d). unfold d.
    by rewrite map_snd_decorated.
  - apply (sorted_map_snd (not_after key_due_ltb) due_order
             (fun p => fst p = due_sort_key (snd p) /\ shaped (snd p))).
    + intros [ka a] [kb b] [Ea Sa] [Eb Sb]. unfold not_after. simpl in *. subst.
      by apply due_key_order.
    + by rewrite (isort_perm key_due_ltb d).
    + apply isort_sorted, strict_total_key_due.
Qed.

(** X3: on a collection of task-shaped records, [filtered_sorted] with
    sort=due returns, before the optional reversal, a permutation of the
    records that pass the filters, ordered by due date, a record without
    due date after every record with one; at equal due date by rank; at
    equal due date and rank the newer record first. *)
Theorem due_sort_order
    (now : date) (items : list json) (show q : string) (rv overdue_only : bool) :
  forallb task_shaped items = true ->
  exists kept out : list json,
    filter_stage now items show q overdue_only = Ok kept
    /\ filtered_sorted now items show q "due" rv overdue_only
       = Ok (if rv then rev out else out)
    /\ Permutation out kept
    /\ StronglySorted due_order out.
Proof.
  intros H.
  destruct (filter_stage_shaped now items show q overdue_only (forallb_shaped _ H))
    as (kept & Hk & Hs).
  destruct (sorted_due_spec kept Hs) as (out & Ho & Hp & Hso).
  exists kept, out. split; [done|]. split; [|done].
  unfold filtered_sorted. rewrite Hk. simpl. unfold sort_stage. simpl.
  by rewrite Ho.
Qed.

(** X3 at the sample store: 2023-12-01, then 2024-01-01, then no date. *)
Lemma due_sort_order_witness :
  forallb task_shaped sample_items = true
  /\ filtered_sorted (Date 2024 1 15) sample_items "all" "" "due" false false
     = Ok [ task "cd56ab78" "Read" "normal" (Some "2023-12-01") true 1700000030
                 (Some 1700000040);
            task "ab12cd34" "Buy milk" "high" (Some "2024-01-01") false 1700000010 None;
            task "ab34ef56" "Walk dog" "low" None false 1700000020 None ]
  /\ StronglySorted due_order
       [ task "cd56ab78" "Read" "normal" (Some "2023-12-01") true 1700000030
              (Some 1700000040);
         task "ab12cd34" "Buy milk" "high" (Some "2024-01-01") false 1700000010 None;
         task "ab34ef56" "Walk dog" "low" None false 1700000020 None ].
Proof.
  assert (H : forallb task_shaped sample_items = true) by reflexivity.
  destruct (due_sort_order (Date 2024 1 15) sample_items "all" "" false false H)
    as (kept & out & _ & Hfs & _ & Hso).
  assert (E : filtered_sorted (Date 2024 1 15) sample_items "all" "" "due"
                              false false
              = Ok [ task "cd56ab78" "Read" "normal" (Some "2023-12-01") true
                          1700000030 (Some 1700000040);
                     task "ab12cd34" "Buy milk" "high" (Some "2024-01-01") false
                          1700000010 None;
                     task "ab34ef56" "Walk dog" "low" None false 1700000020 None ])
    by (vm_compute; reflexivity).
  rewrite E in Hfs. injection Hfs as <-.
  split; [exact H|]. split; [exact E|exact Hso].
Defined.

Lemma StronglySorted_snoc {A} (R : A -> A -> Prop) (l : list A) (x : A) :
  StronglySorted R l -> Forall (fun y => R y x) l -> StronglySorted R (l ++ [x]).
Proof.
  induction 1 as [|y l Hs IH Hy]; simpl; intros F.
  - repeat constructor.
  - apply Forall_cons in F as [Fy F]. constructor; [by apply IH|].
    apply Forall_app. split; [done|]. by constructor.
Qed.

Lemma StronglySorted_rev {A} (R : A -> A -> Prop) (l : list A) :
  StronglySorted R l -> StronglySorted (fun a b => R b a) (rev l).
Proof.
  induction 1 as [|x l Hs IH Hx]; simpl; [constructor|].
  apply StronglySorted_snoc; [done|].
  apply Forall_forall. intros y Hy. rewrite Forall_forall in Hx. apply Hx.
  apply list_elem_of_In, in_rev, list_elem_of_In in Hy. done.
Qed.

Lemma filter_map_snd {K} (k : json -> K) (f : K -> bool) (d : list (K * json)) :
  Forall (fun p => fst p = k (snd p)) d ->
  List.filter (fun t => f (k t)) (map snd d)
  = map snd (List.filter (fun p => f (fst p)) d).
Proof.
  induction 1 as [|p d Hp Hd IH]; simpl; [done|].
  rewrite <- Hp, IH. by destruct (f (fst p)).
Qed.

Lemma same_key_Z c (p : Z * json) : same_key Z.ltb c p = (fst p =? c).
Proof.
  unfold same_key.
  destruct (Z.ltb_spec (fst p) c), (Z.ltb_spec c (fst p)), (Z.eqb_spec (fst p) c);
    simpl; try done; lia.
Qed.

(** The default sort: newest first, records of one creation time in the
    order they came in. *)
Lemma sorted_created_spec kept :
  Forall shaped kept ->
  exists out,
    sorted Z.ltb created_at true kept = Ok out
    /\ Permutation out kept
    /\ StronglySorted newest_first out
    /\ forall c, created_at_time c out = created_at_time c kept.
Proof.
  intros Hk. unfold sorted.
  rewrite (decorate_shaped created_at created_of kept created_at_shaped Hk).
  simpl. eexists. split; [reflexivity|].
  set (d := map (fun t => (created_of t, t)) kept).
  assert (Hd : Forall (fun p => fst p = created_of (snd p)) d).
  { unfold d. apply Forall_map. by apply Forall_forall. }
  assert (Hp : Permutation (rev (isort Z.ltb (rev d))) d).
  { rewrite <- Permutation_rev, isort_perm. symmetry. apply Permutation_rev. }
  assert (Hd' : Forall (fun p => fst p = created_of (snd p))
                       (rev (isort Z.ltb (rev d)))).
  { rewrite Forall_forall in *. intros p Hin. apply Hd. by rewrite <- Hp. }
  split; [|split].
  - rewrite Hp. unfold d. by rewrite map_snd_decorated.
  - apply (sorted_map_snd (fun a b => not_after Z.ltb b a) newest_first
             (fun p => fst p = created_of (snd p))); [|done|].
    + intros [ka a] [kb b] Ea Eb. unfold not_after, newest_first. simpl in *.
      subst. intros H. by apply Z.ltb_ge in H.
    + apply StronglySorted_rev, isort_sorted, strict_total_Z.
  - intros c. unfold created_at_time.
    rewrite (filter_map_snd created_of (fun z => z =? c) _ Hd').
    rewrite <- (map_snd_decorated created_of kept) at 1. fold d.
    rewrite (filter_map_snd created_of (fun z => z =? c) _ Hd).
    f_equal.
    rewrite <- !(List.filter_ext _ _ (same_key_Z c)).
    rewrite List.filter_rev, (isort_stable Z.ltb strict_total_Z).
    by rewrite List.filter_rev, rev_involutive.
Qed.

(** X4: on a collection of task-shaped records, with a sort key that is
    neither "priority" nor "due" (the default, "created"), [filtered_sorted]
    returns, before the optional reversal, a permutation of the records
    that pass the filters with the newest first; records created in the
    same second keep the order they have in the collection. *)
Theorem created_sort_order
    (now : date) (items : list json) (show q sort_key : string)
    (rv overdue_only : bool) :
  forallb task_shaped items = true ->
  sort_key <> "priority"%string -> sort_key <> "due"%string ->
  exists kept out : list json,
    filter_stage now items show q overdue_only = Ok kept
    /\ filtered_sorted now items show q sort_key rv overdue_only
       = Ok (if rv then rev out else out)
    /\ Permutation out kept
    /\ StronglySorted newest_first out
    /\ forall c : Z, created_at_time c out = created_at_time c kept.
Proof.
  intros H Np Nd.
  destruct (filter_stage_shaped now items show q overdue_only (forallb_shaped _ H))
    as (kept & Hk & Hs).
  destruct (sorted_created_spec kept Hs) as (out & Ho & Hp & Hso & Hst).
  exists kept, out. split; [done|]. split; [|done].
  unfold filtered_sorted. rewrite Hk. simpl. unfold sort_stage.
  apply String.eqb_neq in Np, Nd. rewrite Np, Nd, Ho. done.
Qed.

(** X4 at the sample store with a fourth task created in the same second
    as the third: the two keep their order. *)
Lemma created_sort_order_witness :
  let twin := task "ee01ee02" "Call" "low" None false 1700000030 None in
  let items := (sample_items ++ [twin])%list in
  forallb task_shaped items = true
  /\ exists out : list json,
       filtered_sorted (Date 2024 1 15) items "all" "" "created" false false = Ok out
       /\ StronglySorted newest_first out
       /\ created_at_time 1700000030 out
          = [ task "cd56ab78" "Read" "normal" (Some "2023-12-01") true 1700000030
                   (Some 1700000040); twin ].
Proof.
  intros twin items.
  assert (H : forallb task_shaped items = true) by reflexivity.
  split; [exact H|].
  destruct (created_sort_order (Date 2024 1 15) items "all" "" "created" false false H)
    as (kept & out & Hk & Hfs & _ & Hso & Hst); [done|done|].
  exists out. split; [exact Hfs|]. split; [exact Hso|].
  rewrite Hst.
  assert (E : filter_stage (Date 2024 1 15) items "all" "" false = Ok items)
    by reflexivity.
  rewrite E in Hk. injection Hk as <-. reflexivity.
Defined.

(** ** The text filter *)

Lemma lower_char_idem c : lower_char (lower_char c) = lower_char c.
Proof. destruct c as [[] [] [] [] [] [] [] []]; vm_compute; reflexivity. Qed.

Lemma lower_idem s : lower (lower s) = lower s.
Proof. induction s as [|c s IH]; simpl; [done|]. by rewrite lower_char_idem, IH. Qed.

Lemma lower_is_empty q : String.eqb (lower q) "" = String.eqb q "".
Proof. by destruct q. Qed.

Lemma filter_exc_elem {A} (p : A -> exc bool) (l l' : list A) (x : A) :
  filter_exc p l = Ok l' -> (x ∈ l' <-> x ∈ l /\ p x = Ok true).
Proof.
  revert l'. induction l as [|y l IH]; simpl; intros l' H.
  - injection H as <-. split; [by intros ?%elem_of_nil|by intros [?%elem_of_nil _]].
  - destruct (p y) as [b| |] eqn:E; simpl in H; try done.
    destruct (filter_exc p l) as [r| |]; simpl in H; try done.
    specialize (IH r eq_refl). injection H as <-.
    destruct b; rewrite ?elem_of_cons, IH.
    + split; [intros [->|[? ?]]; auto|intros [[->|?] ?]; auto].
    + split; [intros [? ?]; auto|intros [[->|?] ?]; [congruence|auto]].
Qed.

(** X5: two queries that differ in case only give the same listing,
    whatever the collection and the other arguments are. *)
Theorem query_ignores_case
    (now : date) (items : list json) (show q q' sort_key : string)
    (rv overdue_only : bool) :
  lower q = lower q' ->
  filtered_sorted now items show q sort_key rv overdue_only
  = filtered_sorted now items show q' sort_key rv overdue_only.
Proof.
  intros H. unfold filtered_sorted, filter_stage.
  by rewrite <- (lower_is_empty q), <- (lower_is_empty q'), H.
Qed.

(** X5 at the sample store: "MILK" and "milk". *)
Lemma query_ignores_case_witness :
  lower "MILK" = lower "milk"
  /\ filtered_sorted (Date 2024 1 15) sample_items "all" "MILK" "created" false false
     = filtered_sorted (Date 2024 1 15) sample_items "all" "milk" "created" false false
  /\ filtered_sorted (Date 2024 1 15) sample_items "all" "MILK" "created" false false
     = Ok [sample_first].
Proof.
  assert (H : lower "MILK" = lower "milk") by reflexivity.
  split; [exact H|]. split; [|reflexivity].
  exact (query_ignores_case (Date 2024 1 15) sample_items "all" "MILK" "milk"
                            "created" false false H).
Defined.


(** ** Dates the program accepts *)

Lemma digit_of_digit_char n :
  digit_of (digit_char n) = Some (n mod 10).
Proof.
  unfold digit_of, digit_char.
  pose proof (Z.mod_pos_bound n 10 eq_refl) as B.
  rewrite N_ascii_embedding by lia.
  rewrite Z2N.id by lia.
  destruct (Z.leb_spec 48 (48 + n mod 10)); [|lia].
  destruct (Z.leb_spec (48 + n mod 10) 57); [|lia].
  simpl. f_equal. lia.
Qed.

Lemma digit_char_of_digit c a n :
  digit_of c = Some a -> n mod 10 = a -> digit_char n = c.
Proof.
  intros H <-. apply digit_of_code in H as [H _].
  unfold digit_char. rewrite Z.add_comm, <- H, N2Z.id.
  apply ascii_N_embedding.
Qed.

Lemma isoformat_iso_text d :
  isoformat d
  = iso_text (digit_char (year d / 1000)) (digit_char (year d / 100))
             (digit_char (year d / 10)) (digit_char (year d))
             (digit_char (month d / 10)) (digit_char (month d))
             (digit_char (day d / 10)) (digit_char (day d)).
Proof. reflexivity. Qed.

Lemma days_in_month_bound y m : 0 <= days_in_month y m <= 31.
Proof.
  unfold days_in_month. repeat case_match; lia.
Qed.

(** Reading back what [isoformat] writes gives the date. *)
Lemma date_of_iso_isoformat d :
  valid_date d = true -> date_of_iso (isoformat d) = Some d.
Proof.
  intros V. rewrite isoformat_iso_text. unfold date_of_iso, iso_text.
  rewrite !digit_of_digit_char, !Ascii.eqb_refl. cbv beta iota. simpl andb.
  pose proof V as V'. unfold valid_date in V'.
  rewrite !andb_true_iff, !Z.leb_le in V'.
  pose proof (days_in_month_bound (year d) (month d)) as B.
  destruct d as [y m dd]. simpl in *.
  assert (Ey : 1000 * ((y / 1000) mod 10) + 100 * ((y / 100) mod 10)
               + 10 * ((y / 10) mod 10) + y mod 10 = y)
    by (Z.div_mod_to_equations; lia).
  assert (Em : 10 * ((m / 10) mod 10) + m mod 10 = m)
    by (Z.div_mod_to_equations; lia).
  assert (Ed : 10 * ((dd / 10) mod 10) + dd mod 10 = dd)
    by (Z.div_mod_to_equations; lia).
  rewrite Ey, Em, Ed, V. done.
Qed.

(** What [date_of_iso] accepts is what [isoformat] writes. *)
Lemma isoformat_date_of_iso s d :
  date_of_iso s = Some d -> isoformat d = s.
Proof.
  intros H.
  destruct (date_of_iso_inv _ _ H)
    as (y1 & y2 & y3 & y4 & m1 & m2 & k1 & k2 & a & b & c & e & f & g & h & i
        & -> & (A1 & A2 & A3 & A4) & (A5 & A6) & (A7 & A8) & -> & _).
  rewrite isoformat_iso_text. simpl.
  pose proof (digit_of_code _ _ A1) as [_ ?].
  pose proof (digit_of_code _ _ A2) as [_ ?].
  pose proof (digit_of_code _ _ A3) as [_ ?].
  pose proof (digit_of_code _ _ A4) as [_ ?].
  pose proof (digit_of_code _ _ A5) as [_ ?].
  pose proof (digit_of_code _ _ A6) as [_ ?].
  pose proof (digit_of_code _ _ A7) as [_ ?].
  pose proof (digit_of_code _ _ A8) as [_ ?].
  rewrite (digit_char_of_digit y1 a), (digit_char_of_digit y2 b),
    (digit_char_of_digit y3 c), (digit_char_of_digit y4 e),
    (digit_char_of_digit m1 f), (digit_char_of_digit m2 g),
    (digit_char_of_digit k1 h), (digit_char_of_digit k2 i); try done;
    Z.div_mod_to_equations; lia.
Qed.

Lemma date_of_iso_valid s d : date_of_iso s = Some d -> valid_date d = true.
Proof.
  intros H. destruct (date_of_iso_inv _ _ H)
    as (? & ? & ? & ? & ? & ? & ? & ? & ? & ? & ? & ? & ? & ? & ? & ?
        & _ & _ & _ & _ & _ & V). done.
Qed.

Lemma next_day_valid d d' :
  valid_date d = true -> next_day d = Some d' -> valid_date d' = true.
Proof.
  unfold next_day. destruct d as [y m dd]. simpl. intros V.
  pose proof V as V'. unfold valid_date in V'. simpl in V'.
  rewrite !andb_true_iff, !Z.leb_le in V'.
  assert (G : forall y' m' dd', 1 <= y' <= 9999 -> 1 <= m' <= 12 ->
                1 <= dd' <= days_in_month y' m' ->
                valid_date (Date y' m' dd') = true).
  { intros y' m' dd' ? ? ?. unfold valid_date. simpl.
    rewrite !andb_true_iff, !Z.leb_le. lia. }
  destruct (Z.ltb_spec dd (days_in_month y m)).
  { intros [= <-]. apply G; lia. }
  destruct (Z.ltb_spec m 12).
  { intros [= <-]. apply G; try lia.
    assert (1 <= days_in_month y (m + 1)); [|lia].
    assert (Hm : m = 1 \/ m = 2 \/ m = 3 \/ m = 4 \/ m = 5 \/ m = 6 \/ m = 7
                 \/ m = 8 \/ m = 9 \/ m = 10 \/ m = 11) by lia.
    destruct Hm as [->|[->|[->|[->|[->|[->|[->|[->|[->|[->| ->]]]]]]]]]];
      simpl; try lia; destruct (is_leap y); lia. }
  destruct (Z.ltb_spec y 9999); [|done].
  intros [= <-]. apply G; simpl; lia.
Qed.

Lemma digit_lower c a :
  digit_of c = Some a -> lower_char c = c /\ c <> "t"%char /\ c <> "T"%char.
Proof.
  intros H. split; [|split; intros ->; done].
  apply digit_of_code in H as [H B]. unfold lower_char, code.
  destruct (N.leb_spec 65 (N_of_ascii c)); [lia|].
  destruct (N.leb_spec 192 (N_of_ascii c)); [lia|]. done.
Qed.

(** An ISO date text is read by [parse_date] as itself. *)
Lemma parse_date_iso d w :
  valid_date d = true ->
  parse_date (Some (isoformat d)) w = (Ok (Some (isoformat d)), w).
Proof.
  intros V. unfold parse_date.
  rewrite (date_of_iso_fromisoformat _ _ (date_of_iso_isoformat d V)).
  rewrite isoformat_iso_text. unfold iso_text.
  destruct (digit_lower _ _ (digit_of_digit_char (year d / 1000))) as (L & N1 & N2).
  cbn [String.eqb lower]. rewrite L.
  apply Ascii.eqb_neq in N1. rewrite N1. done.
Qed.

Lemma parse_date_spec (s : option string) (w : world) :
  snd (parse_date s w) = w
  /\ (fst (parse_date s w) = Ok None <-> s = None \/ s = Some ""%string)
  /\ (valid_date (today w) = true ->
      forall r : string, fst (parse_date s w) = Ok (Some r) ->
        (exists d, date_of_iso r = Some d /\ isoformat d = r)
        /\ parse_date (Some r) w = (Ok (Some r), w))
  /\ (forall msg : string, fst (parse_date s w) = Exit msg ->
        exists s', s = Some s' /\ msg = date_msg s' /\ fromisoformat s' = None).
Proof.
  assert (I : forall d r, valid_date d = true -> Some (isoformat d) = Some r ->
                (exists d', date_of_iso r = Some d' /\ isoformat d' = r)
                /\ parse_date (Some r) w = (Ok (Some r), w)).
  { intros d r V [= <-]. split; [|by apply parse_date_iso].
    exists d. split; [by apply date_of_iso_isoformat|done]. }
  unfold parse_date. destruct s as [s|].
  { destruct (String.eqb_spec s "") as [->|Hs].
    { split; [done|]. split; [split; [by right|done]|]. by split. }
    assert (N : Some s = None \/ Some s = Some ""%string -> False).
    { intros [|[=]]; done. }
    destruct (String.eqb (lower s) "today").
    { unfold bind, today_date, ret. simpl.
      split; [done|]. split; [split; [done|by intros ?%N]|]. split; [|done].
      intros V r [= E]. apply (I (today w)); [done|by f_equal]. }
    destruct (String.eqb (lower s) "tomorrow").
    { unfold bind, today_date, ret, lift. simpl.
      destruct (next_day (today w)) as [d'|] eqn:E; simpl.
      - split; [done|]. split; [split; [done|by intros ?%N]|]. split; [|done].
        intros V r [= E']. apply (I d'); [by eapply next_day_valid|by f_equal].
      - split; [done|]. split; [split; [done|by intros ?%N]|]. by split. }
    destruct (fromisoformat s) as [d|] eqn:E; simpl.
    - split; [done|]. split; [split; [done|by intros ?%N]|]. split; [|done].
      intros _ r [= E']. apply (I d); [by eapply fromisoformat_valid|by f_equal].
    - split; [done|]. split; [split; [done|by intros ?%N]|]. split; [done|].
      intros msg [= <-]. by exists s. }
  split; [done|]. split; [split; [by left|done]|]. by split.
Qed.

(** X7: [parse_date] never touches the world.  It returns no date exactly
    for a missing or empty argument.  A date it returns is the text of a
    calendar date in the form YYYY-MM-DD, which it reads as itself when
    given again.  A text other than the empty one, today and tomorrow is
    handed to [date.fromisoformat], which as of CPython 3.11 also reads
    dates without dashes and week dates: what that reads is returned in the
    form YYYY-MM-DD, what it refuses ends the program with the diagnostic
    that quotes the text, and nothing else does. *)
Theorem parse_date_outcomes (s : option string) (w : world) :
  snd (parse_date s w) = w
  /\ (fst (parse_date s w) = Ok None <-> s = None \/ s = Some ""%string)
  /\ (valid_date (today w) = true ->
      forall r : string, fst (parse_date s w) = Ok (Some r) ->
        (exists d, date_of_iso r = Some d /\ isoformat d = r)
        /\ parse_date (Some r) w = (Ok (Some r), w))
  /\ (forall s' : string, s = Some s' -> s' <> ""%string ->
        lower s' <> "today"%string -> lower s' <> "tomorrow"%string ->
        fst (parse_date s w)
        = match fromisoformat s' with
          | Some d => Ok (Some (isoformat d))
          | None => Exit (date_msg s')
          end)
  /\ (forall msg : string, fst (parse_date s w) = Exit msg ->
        exists s', s = Some s' /\ msg = date_msg s' /\ fromisoformat s' = None).
Proof.
  destruct (parse_date_spec s w) as (H1 & H2 & H3 & H4).
  split; [exact H1|]. split; [exact H2|]. split; [exact H3|]. split; [|exact H4].
  intros s' -> Hne Ht Hm. unfold parse_date.
  destruct (String.eqb_spec s' ""); [done|].
  destruct (String.eqb_spec (lower s') "today"); [done|].
  destruct (String.eqb_spec (lower s') "tomorrow"); [done|].
  by destruct (fromisoformat s').
Qed.

(** X7 on 2024-01-15: "Tomorrow" is 2024-01-16, and so is the second day of
    the third week of 2024. *)
Lemma parse_date_outcomes_witness :
  let w := sample_world (store_with sample_items) in
  valid_date (today w) = true
  /\ fst (parse_date (Some "Tomorrow") w) = Ok (Some "2024-01-16")
  /\ parse_date (Some "2024-01-16") w = (Ok (Some "2024-01-16"), w)
  /\ fst (parse_date (Some "2024W032") w) = Ok (Some "2024-01-16")
  /\ fst (parse_date (Some "2024-02-30") w) = Exit (date_msg "2024-02-30").
Proof.
  intros w.
  assert (V : valid_date (today w) = true) by reflexivity.
  assert (E : fst (parse_date (Some "Tomorrow") w) = Ok (Some "2024-01-16"))
    by reflexivity.
  destruct (parse_date_outcomes (Some "Tomorrow") w) as (_ & _ & H & _).
  destruct (H V _ E) as (_ & R).
  destruct (parse_date_outcomes (Some "2024W032") w) as (_ & _ & _ & F & _).
  destruct (parse_date_outcomes (Some "2024-02-30") w) as (_ & _ & _ & G & _).
  split; [exact V|]. split; [exact E|]. split; [exact R|].
  split; [exact (F "2024W032" eq_refl ltac:(discriminate) ltac:(discriminate)
                   ltac:(discriminate))
         |exact (G "2024-02-30" eq_refl ltac:(discriminate) ltac:(discriminate)
                   ltac:(discriminate))].
Defined.

(** ** Adding a task *)

Lemma parse_date_due (s : option string) (w : world) (d : option string) w' :
  valid_date (today w) = true ->
  parse_date s w = (Ok d, w') ->
  w' = w
  /\ match d with
     | Some r => is_Some (date_of_iso r)
     | None => True
     end.
Proof.
  intros V H. destruct (parse_date_spec s w) as (Hw & _ & Hs & _).
  rewrite H in Hw, Hs. simpl in *. split; [done|].
  destruct d as [r|]; [|done].
  destruct (Hs V r eq_refl) as ((d & Hd & _) & _). by exists d.
Qed.

Lemma opt_str_due_shaped (d : option string) :
  match d with Some r => is_Some (date_of_iso r) | None => True end ->
  match opt_str d with
  | JNull => true
  | JStr s => bool_decide (is_Some (date_of_iso s))
  | _ => false
  end = true.
Proof. destruct d as [r|]; simpl; [|done]. intros H. by apply bool_decide_eq_true. Qed.

(** What [cmd_add] saves when it returns. *)
Lemma cmd_add_effect title priority due w w' :
  valid_date (today w) = true ->
  cmd_add title priority due w = (Ok tt, w') ->
  exists (items : list json) (d : option string),
    load w = (Ok items, w)
    /\ strip (join " " title) <> ""%string
    /\ in_priorities (lower priority) = true
    /\ match d with Some r => is_Some (date_of_iso r) | None => True end
    /\ fs w'
       = <[STORE_FILE :=
             Doc (JArr (items ++
                        [JObj [("id", JStr (uuids w (draws w)));
                               ("title", JStr (strip (join " " title)));
                               ("priority", JStr (lower priority));
                               ("due", opt_str d); ("completed", JBool false);
                               ("created_at", JNum (clock w (ticks w)));
                               ("completed_at", JNull)]])%list)]> (fs w).
Proof.
  intros V. unfold cmd_add. unfold bind at 1.
  pose proof (load_world w) as Hw.
  destruct (load w) as [[items| |] w1] eqn:Hl; simpl in Hw; subst; try done.
  destruct (String.eqb_spec (strip (join " " title)) "") as [|Hne]; [done|].
  destruct (negb (in_priorities (lower priority))) eqn:Hp; [done|].
  apply negb_false_iff in Hp.
  unfold bind at 1.
  destruct (parse_date due w) as [[d| |] w2] eqn:Hd; try done.
  destruct (parse_date_due _ _ _ _ V Hd) as [-> Hdue].
  unfold bind, short_id, now_ts, save, log_save, write_json, print. simpl.
  intros [= <-]. exists items, d. done.
Qed.

(** X8: when [add] returns, the store is the old collection followed by
    one record, which is task-shaped: its id is the one drawn from the
    generator, its title the trimmed words and not empty, its priority the
    lowered argument and one of high, normal, low, its due date absent or a
    calendar date, it is open, and it was created at the clock reading. *)
Theorem add_appends_valid_task
    (title : list string) (priority : string) (due : option string) (w : world) :
  valid_date (today w) = true ->
  fst (cmd_add title priority due w) = Ok tt ->
  exists (items : list json) (t : json),
    load w = (Ok items, w)
    /\ fs (snd (cmd_add title priority due w))
       = <[STORE_FILE := Doc (JArr (items ++ [t])%list)]> (fs w)
    /\ task_shaped t = true /\ valid_priority t = true
    /\ subscript t "id" = Ok (JStr (uuids w (draws w)))
    /\ subscript t "title" = Ok (JStr (strip (join " " title)))
    /\ strip (join " " title) <> ""%string
    /\ subscript t "priority" = Ok (JStr (lower priority))
    /\ subscript t "completed" = Ok (JBool false)
    /\ subscript t "completed_at" = Ok JNull
    /\ subscript t "created_at" = Ok (JNum (clock w (ticks w))).
Proof.
  intros V H.
  destruct (cmd_add title priority due w) as [r w'] eqn:E. simpl in H. subst r.
  destruct (cmd_add_effect _ _ _ _ _ V E) as (items & d & Hl & Ht & Hp & Hd & Hfs).
  eexists items, _. split; [exact Hl|]. split; [exact Hfs|].
  split; [|split; [exact Hp|done]].
  simpl. rewrite (opt_str_due_shaped d Hd). done.
Qed.

(** X8 at the sample store: [add Call mum -p HIGH -d today]. *)
Lemma add_appends_valid_task_witness :
  let w := sample_world (store_with sample_items) in
  let r := cmd_add ["Call"; "mum "]%string "HIGH" (Some "today"%string) w in
  valid_date (today w) = true
  /\ fst r = Ok tt
  /\ exists t : json,
       fs (snd r) !! STORE_FILE = Some (Doc (JArr (sample_items ++ [t])%list))
       /\ task_shaped t = true
       /\ subscript t "title" = Ok (JStr "Call mum")
       /\ subscript t "priority" = Ok (JStr "high").
Proof.
  intros w r.
  assert (V : valid_date (today w) = true) by reflexivity.
  assert (E : fst r = Ok tt) by (vm_compute; reflexivity).
  split; [exact V|]. split; [exact E|].
  destruct (add_appends_valid_task _ _ _ w V E)
    as (items & t & Hl & Hfs & Hs & _ & _ & Ht & _ & Hp & _).
  assert (Hi : load w = (Ok sample_items, w)) by (apply load_store; reflexivity).
  rewrite Hi in Hl. injection Hl as <-.
  exists t. fold r in Hfs. rewrite Hfs, lookup_insert_eq.
  split; [reflexivity|]. split; [exact Hs|]. split; [exact Ht|exact Hp].
Defined.

(** ** Resolving a full id *)

Lemma prefix_refl s : String.prefix s s = true.
Proof. induction s as [|c s IH]; simpl; [done|]. by destruct (ascii_dec c c). Qed.

Lemma prefix_same_length p : forall s,
  String.prefix p s = true -> String.length p = String.length s -> p = s.
Proof.
  induction p as [|c p IH]; intros [|c' s]; simpl; try done.
  destruct (ascii_dec c c') as [->|]; [|done].
  intros H [= L]. by rewrite (IH s H L).
Qed.

Lemma has_id_subscript t : has_id t = true -> subscript t "id" = Ok (JStr (id_of t)).
Proof.
  unfold has_id, id_of. by destruct (subscript t "id") as [[| | |s| |]| |].
Qed.

Lemma id_matches_id_of tid t :
  has_id t = true -> id_matches tid t = str_startswith (id_of t) tid.
Proof. intros H. unfold id_matches. by rewrite (has_id_subscript t H). Qed.

(** X9: in a collection whose records carry ids of one length, no two the
    same, the full id of a record resolves to that record and its
    position. *)
Theorem full_id_resolves (items : list json) (n i : nat) (t : json) :
  forallb has_id items = true ->
  Forall (fun x => String.length (id_of x) = n) items ->
  NoDup (id_of <$> items) ->
  items !! i = Some t ->
  find items (id_of t) = Ok (Some (i, t)).
Proof.
  intros Hid Hlen Hnd Hi.
  pose proof (find_from_spec items 0 (id_of t) Hid) as S. unfold find.
  assert (Ht : has_id t = true).
  { rewrite forallb_forall in Hid. apply Hid, list_elem_of_In.
    by eapply list_elem_of_lookup_2. }
  destruct (find_from 0 items (id_of t)) as [[[j t']|]| |]; try done.
  - destruct S as (k & -> & Hk & Hm & _). simpl.
    assert (Ht' : has_id t' = true).
    { rewrite forallb_forall in Hid. apply Hid, list_elem_of_In.
      by eapply list_elem_of_lookup_2. }
    rewrite (id_matches_id_of _ _ Ht') in Hm. unfold str_startswith in Hm.
    rewrite Forall_forall in Hlen.
    assert (E : id_of t = id_of t').
    { apply prefix_same_length; [done|].
      rewrite (Hlen t), (Hlen t'); [done|..]; by eapply list_elem_of_lookup_2. }
    assert (k = i).
    { eapply (NoDup_lookup _ _ _ _ Hnd); rewrite list_lookup_fmap.
      - by rewrite Hk.
      - rewrite Hi. simpl. by rewrite E. }
    subst k. rewrite Hi in Hk. by injection Hk as <-.
  - rewrite forallb_forall in S.
    assert (Hin : In t items) by (apply list_elem_of_In; by eapply list_elem_of_lookup_2).
    specialize (S t Hin). rewrite (id_matches_id_of _ _ Ht) in S.
    unfold str_startswith in S. by rewrite prefix_refl in S.
Qed.

(** X9 at the sample store: the second id, which shares its first two
    characters with the first. *)
Lemma full_id_resolves_witness :
  forallb has_id sample_items = true
  /\ Forall (fun x => String.length (id_of x) = 8%nat) sample_items
  /\ NoDup (id_of <$> sample_items)
  /\ find sample_items "ab34ef56"
     = Ok (Some (1%nat, task "ab34ef56" "Walk dog" "low" None false 1700000020 None)).
Proof.
  assert (H1 : forallb has_id sample_items = true) by reflexivity.
  assert (H2 : Forall (fun x => String.length (id_of x) = 8%nat) sample_items)
    by (repeat constructor).
  assert (H3 : NoDup (id_of <$> sample_items)).
  { apply (bool_decide_unpack (NoDup (id_of <$> sample_items))).
    vm_compute. exact I. }
  split; [exact H1|]. split; [exact H2|]. split; [exact H3|].
  exact (full_id_resolves sample_items 8 1
           (task "ab34ef56" "Walk dog" "low" None false 1700000020 None)
           H1 H2 H3 eq_refl).
Defined.

(** ** Deleting and clearing *)

Lemma other_id_has_id t x :
  has_id t = true -> has_id x = true ->
  other_id t x = Ok (id_differs (id_of t) x).
Proof.
  intros Ht Hx. unfold other_id, id_differs.
  rewrite (has_id_subscript x Hx), (has_id_subscript t Ht). done.
Qed.

Lemma filter_exc_pure {A} (p : A -> exc bool) (f : A -> bool) (l : list A) :
  Forall (fun x => p x = Ok (f x)) l -> filter_exc p l = Ok (List.filter f l).
Proof.
  induction 1 as [|x l Hx Hl IH]; simpl; [done|].
  rewrite Hx, IH. simpl. by destruct (f x).
Qed.

Lemma filter_keeps_all {A} (f : A -> bool) (l : list A) :
  Forall (fun x => f x = true) l -> List.filter f l = l.
Proof. induction 1 as [|x l Hx Hl IH]; simpl; [done|]. by rewrite Hx, IH. Qed.

(** With ids that are all different, dropping the records with the id of
    the record at [i] drops that record only. *)
Lemma filter_unique_id (items : list json) : forall (i : nat) (t : json),
  NoDup (id_of <$> items) -> items !! i = Some t ->
  List.filter (id_differs (id_of t)) items = delete i items.
Proof.
  induction items as [|x items IH]; intros i t Hnd Hi; [done|].
  rewrite fmap_cons in Hnd. apply NoDup_cons in Hnd as [Hx Hnd].
  destruct i as [|i]; simpl in Hi.
  - injection Hi as ->. simpl. unfold id_differs at 1.
    rewrite String.eqb_refl. simpl. apply filter_keeps_all.
    apply Forall_forall. intros y Hy. unfold id_differs.
    apply negb_true_iff, String.eqb_neq. intros E. apply Hx.
    rewrite <- E. by apply list_elem_of_fmap_2.
  - simpl. unfold id_differs at 1.
    assert (N : id_of x <> id_of t).
    { intros E. apply Hx. rewrite E. apply list_elem_of_fmap_2.
      by eapply list_elem_of_lookup_2. }
    apply String.eqb_neq in N. rewrite N. simpl. f_equal. by apply IH.
Qed.

Lemma cmd_delete_effect w items tid i t :
  load w = (Ok items, w) -> forallb has_id items = true ->
  find items tid = Ok (Some (i, t)) ->
  fs (snd (cmd_delete tid w))
  = <[STORE_FILE := Doc (JArr (List.filter (id_differs (id_of t)) items))]> (fs w).
Proof.
  intros Hl Hid Hf. unfold cmd_delete.
  assert (Ht : has_id t = true).
  { destruct (find_from_found _ _ _ _ _ Hf) as (k & m & s & _ & _ & -> & Hm & _).
    unfold has_id. simpl. by rewrite Hm. }
  assert (E : filter_exc (other_id t) items
              = Ok (List.filter (id_differs (id_of t)) items)).
  { apply filter_exc_pure. rewrite forallb_forall in Hid. apply Forall_forall.
    intros x Hx. apply other_id_has_id; [done|]. by apply Hid, list_elem_of_In. }
  unfold bind. rewrite Hl. cbv beta iota.
  rewrite (resolve_found _ _ _ _ _ Hf). cbv beta iota.
  unfold lift at 1. rewrite E. simpl.
  repeat case_match; done.
Qed.

(** X10: [delete] saves the collection without the records that carry the
    id of the resolved record, the others in their order; when no two
    records share an id, that is the collection without the resolved
    record. *)
Theorem delete_removes_resolved
    (w : world) (items : list json) (tid : string) (i : nat) (t : json) :
  load w = (Ok items, w) ->
  forallb has_id items = true ->
  find items tid = Ok (Some (i, t)) ->
  fs (snd (run (Delete tid) w))
  = <[STORE_FILE := Doc (JArr (List.filter (id_differs (id_of t)) items))]> (fs w)
  /\ (NoDup (id_of <$> items) ->
      List.filter (id_differs (id_of t)) items = delete i items).
Proof.
  intros Hl Hid Hf. split; [by apply (cmd_delete_effect w items tid i t)|].
  intros Hnd. apply filter_unique_id; [done|].
  by destruct (find_from_found _ _ _ _ _ Hf) as (k & m & s & -> & Hk & _).
Qed.

(** X10 at the sample store: [delete cd] removes the third task. *)
Lemma delete_removes_resolved_witness :
  let w := sample_world (store_with sample_items) in
  load w = (Ok sample_items, w)
  /\ forallb has_id sample_items = true
  /\ fs (snd (run (Delete "cd") w)) !! STORE_FILE
     = Some (Doc (JArr [sample_first;
                        task "ab34ef56" "Walk dog" "low" None false 1700000020 None])).
Proof.
  intros w.
  assert (Hl : load w = (Ok sample_items, w)) by (apply load_store; reflexivity).
  assert (Hid : forallb has_id sample_items = true) by reflexivity.
  split; [exact Hl|]. split; [exact Hid|].
  destruct (delete_removes_resolved w sample_items "cd" 2
              (task "cd56ab78" "Read" "normal" (Some "2023-12-01") true 1700000030
                    (Some 1700000040)) Hl Hid eq_refl) as [Hfs _].
  rewrite Hfs, lookup_insert_eq. reflexivity.
Defined.

Lemma keep_active_pure x : has_completed x = true -> keep_active x = Ok (is_open x).
Proof.
  unfold has_completed, keep_active, is_open.
  by destruct (subscript x "completed").
Qed.

Lemma filter_exc_keep_active items :
  forallb has_completed items = true ->
  filter_exc keep_active items = Ok (List.filter is_open items).
Proof.
  intros H. apply filter_exc_pure. rewrite forallb_forall in H.
  apply Forall_forall. intros x Hx. by apply keep_active_pure, H, list_elem_of_In.
Qed.

Lemma filter_filter_same {A} (f : A -> bool) (l : list A) :
  List.filter f (List.filter f l) = List.filter f l.
Proof.
  induction l as [|x l IH]; simpl; [done|].
  destruct (f x) eqn:E; simpl; [|done]. by rewrite E, IH.
Qed.

Lemma forallb_filter {A} (g f : A -> bool) (l : list A) :
  forallb g l = true -> forallb g (List.filter f l) = true.
Proof.
  induction l as [|x l IH]; simpl; [done|].
  intros [Hx Hl]%andb_true_iff. destruct (f x); simpl; [|auto].
  by rewrite Hx, IH.
Qed.

Lemma cmd_clear_completed_effect w items :
  load w = (Ok items, w) -> forallb has_completed items = true ->
  cmd_clear_completed w
  = (Ok tt,
     World (<[STORE_FILE := Doc (JArr (List.filter is_open items))]> (fs w))
           (saved w ++ [List.filter is_open items]) (clock w) (ticks w)
           (uuids w) (draws w) (today w)
           (out w ++ [Removed (Z.of_nat (length items)
                               - Z.of_nat (length (List.filter is_open items)))])).
Proof.
  intros Hl Hc. unfold cmd_clear_completed, bind. rewrite Hl. cbv beta iota.
  unfold lift. by rewrite (filter_exc_keep_active items Hc).
Qed.

(** X11: on a collection whose records all say whether they are
    completed, [clear-completed] returns, saves exactly the open records
    in their order, reports how many records it dropped, and run a second
    time leaves the store file as it is. *)
Theorem clear_completed_keeps_open (w : world) (items : list json) :
  load w = (Ok items, w) ->
  forallb has_completed items = true ->
  let r := run ClearCompleted w in
  fst r = Ok tt
  /\ fs (snd r) = <[STORE_FILE := Doc (JArr (List.filter is_open items))]> (fs w)
  /\ out (snd r)
     = (out w ++ [Removed (Z.of_nat (length items)
                           - Z.of_nat (length (List.filter is_open items)))])%list
  /\ fs (snd (run ClearCompleted (snd r))) = fs (snd r).
Proof.
  intros Hl Hc r. unfold r. simpl run.
  rewrite (cmd_clear_completed_effect w items Hl Hc). simpl.
  split; [done|]. split; [done|]. split; [done|].
  match goal with |- fs (snd (cmd_clear_completed ?w1)) = _ => set (w' := w1) end.
  assert (Hl' : load w' = (Ok (List.filter is_open items), w')).
  { apply load_store. unfold w'. simpl. apply lookup_insert_eq. }
  rewrite (cmd_clear_completed_effect w' _ Hl' (forallb_filter _ _ _ Hc)).
  simpl. by rewrite filter_filter_same, insert_insert_eq.
Qed.

(** X11 at the sample store: one of three tasks is completed. *)
Lemma clear_completed_keeps_open_witness :
  let w := sample_world (store_with sample_items) in
  load w = (Ok sample_items, w)
  /\ forallb has_completed sample_items = true
  /\ fs (snd (run ClearCompleted w)) !! STORE_FILE
     = Some (Doc (JArr [sample_first;
                        task "ab34ef56" "Walk dog" "low" None false 1700000020 None]))
  /\ out (snd (run ClearCompleted w)) = [Removed 1].
Proof.
  intros w.
  assert (Hl : load w = (Ok sample_items, w)) by (apply load_store; reflexivity).
  assert (Hc : forallb has_completed sample_items = true) by reflexivity.
  split; [exact Hl|]. split; [exact Hc|].
  destruct (clear_completed_keeps_open w sample_items Hl Hc) as (_ & Hfs & Ho & _).
  split; [rewrite Hfs, lookup_insert_eq; reflexivity|].
  rewrite Ho. reflexivity.
Defined.

(** ** Completing, then reopening *)

Lemma dict_set_id m k v : dict_get m k = Some v -> dict_set m k v = m.
Proof.
  induction m as [|[k' v'] m IH]; simpl; [done|].
  destruct (String.eqb k' k); [by intros [= ->]|]. intros H. by rewrite IH.
Qed.

Lemma dict_set_set m k v v' : dict_set (dict_set m k v) k v' = dict_set m k v'.
Proof.
  induction m as [|[k' v0] m IH]; simpl.
  - by rewrite String.eqb_refl.
  - destruct (String.eqb k' k) eqn:E; simpl; rewrite E; [done|]. by rewrite IH.
Qed.

Lemma dict_set_comm m k k' v v' :
  k <> k' -> is_Some (dict_get m k) -> is_Some (dict_get m k') ->
  dict_set (dict_set m k v) k' v' = dict_set (dict_set m k' v') k v.
Proof.
  intros Hne. induction m as [|[k0 v0] m IH]; simpl; [by intros []|].
  destruct (String.eqb_spec k0 k) as [->|N1]; simpl.
  - intros _ _. destruct (String.eqb_spec k k') as [|_]; [done|]. simpl.
    by rewrite String.eqb_refl.
  - destruct (String.eqb_spec k0 k') as [->|N2]; simpl.
    + intros _ _. by destruct (String.eqb_spec k' k).
    + intros H1 H2. destruct (String.eqb_spec k0 k); [done|]. by rewrite IH.
Qed.

Lemma mark_open_mark_done now m :
  dict_get m "completed" = Some (JBool false) ->
  dict_get m "completed_at" = Some JNull ->
  mark_open (dict_set (dict_set m "completed" (JBool true)) "completed_at" (JNum now))
  = JObj m.
Proof.
  intros Hc Ha. unfold mark_open. f_equal.
  rewrite (dict_set_comm (dict_set m "completed" (JBool true))
             "completed_at" "completed"); [|done|..].
  - rewrite !dict_set_set, (dict_set_id m "completed" _ Hc).
    by rewrite (dict_set_id m "completed_at" _ Ha).
  - rewrite dict_get_set_ne by done. by rewrite Ha.
  - by rewrite dict_get_set_eq.
Qed.

(** X12: [done] followed by [undo] on a task that was open, with no
    completion time, gives back the collection as it was, record for
    record. *)
Theorem undo_restores_open_task
    (w : world) (items : list json) (tid : string) (i : nat)
    (m : list (string * json)) :
  load w = (Ok items, w) ->
  find items tid = Ok (Some (i, JObj m)) ->
  dict_get m "completed" = Some (JBool false) ->
  dict_get m "completed_at" = Some JNull ->
  let w1 := snd (run (Done tid) w) in
  let w2 := snd (run (Undo tid) w1) in
  load w2 = (Ok items, w2).
Proof.
  intros Hl Hf Hc Ha w1 w2.
  set (c1 := clock w (ticks w)).
  assert (S1 : fs w1 = <[STORE_FILE := Doc (JArr (<[i := mark_done c1 m]> items))]> (fs w)
               /\ clock w1 = clock w /\ ticks w1 = S (ticks w))
    by exact (cmd_done_effect w items tid i m Hl Hf).
  destruct S1 as (F1 & _ & _).
  assert (L1 : load w1 = (Ok (<[i := mark_done c1 m]> items), w1)).
  { apply load_store. rewrite F1. apply lookup_insert_eq. }
  destruct (mark_done_fields c1 m) as (_ & _ & D3).
  assert (Hf1 : find (<[i := mark_done c1 m]> items) tid
                = Ok (Some (i, mark_done c1 m))).
  { apply (find_insert _ _ _ _ _ Hf). apply D3; done. }
  set (m1 := dict_set (dict_set m "completed" (JBool true)) "completed_at" (JNum c1)).
  assert (S2 : fs w2 = <[STORE_FILE := Doc (JArr (<[i := mark_open m1]>
                                                   (<[i := mark_done c1 m]> items)))]> (fs w1)
               /\ clock w2 = clock w1 /\ ticks w2 = ticks w1)
    by exact (cmd_undo_effect w1 _ tid i m1 L1 Hf1).
  destruct S2 as (F2 & _ & _).
  apply load_store. rewrite F2, lookup_insert_eq, list_insert_insert_eq.
  unfold m1. rewrite (mark_open_mark_done c1 m Hc Ha).
  destruct (find_from_found _ _ _ _ _ Hf) as (k & _ & _ & Hk & Hi & _).
  simpl in Hk. subst k. by rewrite (list_insert_id _ _ _ Hi).
Qed.

(** X12 at the sample store: [done ab34], then [undo ab34]. *)
Lemma undo_restores_open_task_witness :
  let w := sample_world (store_with sample_items) in
  let w2 := snd (run (Undo "ab34") (snd (run (Done "ab34") w))) in
  load w = (Ok sample_items, w) /\ load w2 = (Ok sample_items, w2).
Proof.
  intros w w2.
  assert (Hl : load w = (Ok sample_items, w)) by (apply load_store; reflexivity).
  split; [exact Hl|].
  exact (undo_restores_open_task w sample_items "ab34" 1 _ Hl eq_refl eq_refl eq_refl).
Defined.

(** ** The table printer *)

Lemma length_string_of_repeat c n :
  String.length (string_of_list_ascii (repeat c n)) = n.
Proof. induction n; simpl; congruence. Qed.

Lemma length_app_string (a b : string) :
  String.length (a ++ b) = (String.length a + String.length b)%nat.
Proof.
  induction a as [|c a IH]; [done|].
  change (String c a ++ b) with (String c (a ++ b)). simpl. by rewrite IH.
Qed.

Lemma app_empty_string (a : string) : a ++ "" = a.
Proof.
  induction a as [|c a IH]; [done|].
  change (String c a ++ "") with (String c (a ++ "")). by rewrite IH.
Qed.

Lemma length_ljust s w :
  (String.length s <= w)%nat -> String.length (ljust s w) = w.
Proof.
  intros H. unfold ljust. rewrite length_app_string, length_string_of_repeat. lia.
Qed.

Lemma length_dashes w : String.length (dashes w) = w.
Proof. apply length_string_of_repeat. Qed.

Lemma line_length widths : forall parts,
  fits widths parts -> String.length (line widths parts) = line_width widths.
Proof.
  unfold line. induction widths as [|w ws IH]; intros parts H.
  - by destruct parts.
  - destruct parts as [|c ps]; [done|]. destruct H as [Hc Hf].
    specialize (IH ps Hf). simpl zip_with.
    destruct ws as [|w' ws].
    + destruct ps; simpl; by apply length_ljust.
    + destruct ps as [|c' ps]; [by destruct Hf|].
      change (join "  " (ljust c w :: zip_with ljust (c' :: ps) (w' :: ws)))
        with (ljust c w ++ "  " ++ join "  " (zip_with ljust (c' :: ps) (w' :: ws))).
      rewrite !length_app_string, IH, (length_ljust _ _ Hc).
      change (line_width (w :: w' :: ws)) with (w + 2 + line_width (w' :: ws))%nat.
      simpl String.length. lia.
Qed.

Lemma fits_dashes widths : fits widths (map dashes widths).
Proof.
  induction widths as [|w ws IH]; simpl; [done|].
  split; [by rewrite length_dashes|done].
Qed.

Lemma fold_max_bound l : forall a,
  (a <= fold_left Nat.max l a)%nat
  /\ Forall (fun n => (n <= fold_left Nat.max l a)%nat) l.
Proof.
  induction l as [|n l IH]; intros a; simpl; [by split|].
  destruct (IH (Nat.max a n)) as [H1 H2].
  split; [lia|]. constructor; [lia|done].
Qed.

Lemma fold_max_attained l : forall a,
  fold_left Nat.max l a = a \/ In (fold_left Nat.max l a) l.
Proof.
  induction l as [|n l IH]; intros a; simpl; [by left|].
  destruct (IH (Nat.max a n)) as [H|H]; [|by right; right].
  rewrite H. destruct (Nat.max_spec a n) as [[_ ->]|[_ ->]]; [by right; left|by left].
Qed.

Lemma max_len_bound col w :
  max_len col = Ok w -> Forall (fun c => (String.length c <= w)%nat) col.
Proof.
  destruct col as [|x r]; [done|]. intros [= <-].
  destruct (fold_max_bound (map String.length r) (String.length x)) as [H1 H2].
  constructor; [done|]. by apply Forall_map in H2.
Qed.

Lemma fits_heads w ws others hs :
  Forall2 (fun o h => head o = Some h) others hs ->
  Forall (fun c => (String.length c <= w)%nat) hs ->
  Forall (fits ws) (map tail others) ->
  Forall (fits (w :: ws)) others.
Proof.
  induction 1 as [|o h others hs Ho _ IH]; intros Hb Hf; [constructor|].
  inversion Hb; subst. inversion Hf; subst.
  constructor; [|by apply IH].
  destruct o as [|c o]; [done|]. injection Ho as ->. by split.
Qed.

Lemma zip_star_fits first : forall others,
  exists widths,
    map_exc max_len (zip_star first others) = Ok widths
    /\ fits widths first /\ Forall (fits widths) others.
Proof.
  induction first as [|x first IH]; intros others.
  - exists []. split; [done|]. split; [done|]. by apply Forall_forall.
  - simpl. destruct (mapM head others) as [hs|] eqn:Hm.
    + apply mapM_Some in Hm.
      destruct (IH (map tail others)) as (ws & Hw & Hf & Ho).
      set (w := fold_left Nat.max (map String.length hs) (String.length x)).
      exists (w :: ws). simpl. fold w. rewrite Hw. simpl.
      assert (Hb : Forall (fun c => (String.length c <= w)%nat) (x :: hs))
        by (by apply max_len_bound).
      inversion Hb; subst.
      split; [done|]. split; [by split|]. by apply (fits_heads _ _ _ hs).
    + exists []. split; [done|]. split; [done|]. by apply Forall_forall.
Qed.

(** X13: for a table with at least one row, [print_table] prints the
    header, the rule and one line per row, and all these lines have the same
    length, whatever the lengths of the rows and of their cells. *)
Theorem table_lines_aligned (rows : list (list string)) (headers : list string) :
  rows <> [] ->
  exists lines n,
    print_table rows headers = Ok lines
    /\ length lines = S (S (length rows))
    /\ Forall (fun l => String.length l = n) lines.
Proof.
  intros Hr. destruct (zip_star_fits headers rows) as (ws & Hw & Hh & Ho).
  exists (line ws headers :: line ws (map dashes ws) :: map (line ws) rows),
         (line_width ws).
  split.
  - unfold print_table. destruct rows; [done|]. by rewrite Hw.
  - split; [by simpl; rewrite length_map|].
    constructor; [by apply line_length|].
    constructor; [apply line_length, fits_dashes|].
    apply Forall_map. eapply Forall_impl; [exact Ho|].
    intros r. apply line_length.
Qed.

(** X13 on a table with a short header, a long row and a short row. *)
Lemma table_lines_aligned_witness :
  exists lines n,
    print_table [["ab34"; "x"; "Buy milk"; "extra"]; ["c"; "y"]] ["id"; "done"; "title"]
    = Ok lines
    /\ length lines = 4%nat
    /\ Forall (fun l => String.length l = n) lines.
Proof.
  apply (table_lines_aligned
           [["ab34"; "x"; "Buy milk"; "extra"]; ["c"; "y"]] ["id"; "done"; "title"]).
  discriminate.
Defined.

(** X14: for a table without rows, [print_table] takes the whole header
    for one column: it prints the first header only, padded to the length of
    the longest header, and a rule of that length.  Without headers either
    it fails with a [ValueError]. *)
Theorem empty_table_prints_first_header :
  print_table [] [] = Raise ValueError
  /\ forall h hs, exists w,
       print_table [] (h :: hs) = Ok [ljust h w; dashes w]
       /\ Forall (fun c => (String.length c <= w)%nat) (h :: hs)
       /\ In w (map String.length (h :: hs)).
Proof.
  split; [done|]. intros h hs.
  set (w := fold_left Nat.max (map String.length hs) (String.length h)).
  exists w. split; [|split].
  - assert (E : print_table [] (h :: hs)
                = Ok [line [w] (h :: hs); line [w] [dashes w]]) by reflexivity.
    assert (L1 : line [w] (h :: hs) = ljust h w)
      by (unfold line; destruct hs; reflexivity).
    assert (L2 : line [w] [dashes w] = dashes w).
    { change (ljust (dashes w) w = dashes w). unfold ljust.
      rewrite length_dashes, Nat.sub_diag. apply app_empty_string. }
    by rewrite E, L1, L2.
  - by apply max_len_bound.
  - destruct (fold_max_attained (map String.length hs) (String.length h)) as [H|H];
      [left; symmetry; exact H|right; exact H].
Qed.

(** ** Listing *)

Lemma load_fs w w1 items :
  fs w1 !! STORE_FILE = fs w !! STORE_FILE ->
  load w = (Ok items, w) -> load w1 = (Ok items, w1).
Proof.
  unfold load. intros ->. destruct (fs w !! STORE_FILE) as [c|]; [|by intros [= <-]].
  destruct (json_load c) as [v|s|e]; [|done|by destruct e].
  destruct v; intros [= <-]; done.
Qed.

Lemma filter_exc_keep_active_inv items : forall left,
  filter_exc keep_active items = Ok left -> left = List.filter is_open items.
Proof.
  induction items as [|x items IH]; intros left; simpl; [by intros [= <-]|].
  unfold keep_active at 1.
  destruct (subscript x "completed") as [c| |] eqn:Hc; simpl; [|done..].
  destruct (filter_exc keep_active items) as [r| |]; simpl; [|done..].
  intros [= <-]. rewrite (IH r eq_refl).
  assert (E : is_open x = negb (truthy c)) by (unfold is_open; by rewrite Hc).
  cbn [List.filter]. by rewrite E.
Qed.

Lemma map_exc_length {A B} (f : A -> exc B) (l : list A) : forall r,
  map_exc f l = Ok r -> length r = length l.
Proof.
  induction l as [|x l IH]; intros r; simpl; [by intros [= <-]|].
  destruct (f x); simpl; [|done..].
  destruct (map_exc f l) as [r'| |]; simpl; [|done..].
  intros [= <-]. simpl. by rewrite (IH r' eq_refl).
Qed.

(** X15: a listing that succeeds writes no file and prints two things, the
    table and the number of items left.  The table has one row per record
    selected; the number counts the open records of the whole store,
    whatever the filters, the query and the order asked for. *)
Theorem list_counts_open_tasks
    (w w' : world) (items : list json) (args : list_args) :
  load w = (Ok items, w) ->
  run (List args) w = (Ok tt, w') ->
  exists (selected : list json) (rows : list row),
    filtered_sorted (today w) items (show args) (query args) (sort args)
                    (reverse args) (overdue args) = Ok selected
    /\ length rows = length selected
    /\ out w' = (out w ++ [Table rows;
                           ItemsLeft (length (List.filter is_open items))])%list
    /\ fs w' = fs w /\ saved w' = saved w.
Proof.
  intros Hl. simpl. unfold cmd_list. unfold bind at 1. rewrite Hl.
  unfold bind at 1, today_date.
  unfold bind at 1, lift.
  destruct (filtered_sorted _ _ _ _ _ _ _) as [sel| |] eqn:Hs; [|done..].
  unfold bind at 1.
  destruct (map_exc (table_row (today w)) sel) as [rows| |] eqn:Hr; [|done..].
  unfold bind at 1, print at 1.
  unfold bind at 1.
  set (w1 := World _ _ _ _ _ _ _ _).
  rewrite (load_fs w w1 items eq_refl Hl).
  unfold bind at 1.
  destruct (filter_exc keep_active items) as [left| |] eqn:Hk; [|done..].
  apply filter_exc_keep_active_inv in Hk. subst left.
  unfold print. intros [= <-]. exists sel, rows.
  split; [done|]. split; [by apply (map_exc_length _ _ _ Hr)|].
  simpl. split; [by rewrite <- app_assoc|done].
Qed.

(** X15 at the sample store, listing the completed tasks only. *)
Lemma list_counts_open_tasks_witness :
  let w := sample_world (store_with sample_items) in
  let args := ListArgs "completed" "" "created" false false in
  exists (selected : list json) (rows : list row),
    filtered_sorted (today w) sample_items "completed" "" "created" false false
    = Ok selected
    /\ length rows = length selected
    /\ out (snd (run (List args) w)) = [Table rows; ItemsLeft 2].
Proof.
  intros w args.
  destruct (list_counts_open_tasks w (snd (run (List args) w)) sample_items args)
    as (sel & rows & H1 & H2 & H3 & _); [reflexivity|reflexivity|].
  by exists sel, rows.
Defined.

(** ** Export, then import *)

Lemma cmd_export_effect w items path :
  load w = (Ok items, w) ->
  cmd_export path w
  = (Ok tt,
     World (<[export_path path := Doc (JArr items)]> (fs w)) (saved w) (clock w)
           (ticks w) (uuids w) (draws w) (today w)
           (out w ++ [Exported (length items) (export_path path)])).
Proof. intros Hl. unfold cmd_export, bind. by rewrite Hl. Qed.

Lemma cmd_import_run w w2 path data items all :
  fs w !! path = Some (Doc (JArr data)) ->
  load w = (Ok items, w) ->
  import_all data items w = (Ok all, w2) ->
  cmd_import path w
  = (Ok tt,
     World (<[STORE_FILE := Doc (JArr all)]> (fs w2)) (saved w2 ++ [all])
           (clock w2) (ticks w2) (uuids w2) (draws w2) (today w2)
           (out w2 ++ [Imported (length data)])).
Proof.
  intros Hf Hl Hrun. unfold cmd_import, bind, file_at, lift. rewrite Hf.
  simpl json_load. cbv beta iota. rewrite Hl. cbv beta iota. by rewrite Hrun.
Qed.

Lemma imported_task_copy id now m :
  task_shaped (JObj m) = true -> valid_priority (JObj m) = true ->
  exists z : Z,
    created_of_import now m = Ok z
    /\ importable (JObj m) = true
    /\ task_shaped (imported_task id z m) = true
    /\ copy_of id (JObj m) (imported_task id z m).
Proof.
  unfold task_shaped at 1, valid_priority, importable, created_of_import, copy_of, field.
  simpl subscript.
  destruct (dict_get m "id") as [[| | |i| |]|] eqn:E1; try done.
  destruct (dict_get m "title") as [[| | |ti| |]|] eqn:E2; try done.
  destruct (dict_get m "priority") as [[| | |p| |]|] eqn:E3; try done.
  destruct (dict_get m "due") as [due|] eqn:E4; try done.
  destruct (dict_get m "completed") as [[|c| | | |]|] eqn:E5; try done.
  destruct (dict_get m "created_at") as [[| |z| | |]|] eqn:E6; try done.
  destruct (dict_get m "completed_at") as [da|] eqn:E7; try done.
  intros Hs Hp. exists z. split; [done|]. split; [done|].
  unfold imported_task. rewrite E2, E3, E4, E5, E7, Hp.
  split; [simpl; exact Hs|]. split; [done|].
  repeat constructor; simpl; rewrite ?E2, ?E3, ?E4, ?E5, ?E6, ?E7; done.
Qed.

Lemma shaped_importable items :
  forallb task_shaped items = true -> forallb importable items = true.
Proof.
  intros H. apply forallb_forall. intros t Ht.
  apply (proj1 (forallb_forall _ _) H) in Ht. unfold task_shaped in Ht.
  destruct t as [| | | | |m]; try done. unfold importable.
  repeat case_match; done.
Qed.

(** X16: exporting a store of task-shaped records with valid priorities
    and importing the exported file again appends a copy of every task, in
    order: a task-shaped record that has a freshly generated id and agrees
    with the original in the six other fields. *)
Theorem export_import_copies
    (w : world) (items : list json) (path : option string) :
  load w = (Ok items, w) ->
  forallb task_shaped items = true ->
  forallb valid_priority items = true ->
  let w1 := snd (run (Export path) w) in
  let r := run (Import (export_path path)) w1 in
  exists copies : list json,
    fst r = Ok tt
    /\ load (snd r) = (Ok (items ++ copies)%list, snd r)
    /\ length copies = length items
    /\ forall (j : nat) (t c : json),
         items !! j = Some t -> copies !! j = Some c ->
         task_shaped c = true /\ copy_of (uuids w (draws w + j)) t c.
Proof.
  intros Hl Hs Hp w1 r.
  assert (E1 : w1 = World (<[export_path path := Doc (JArr items)]> (fs w)) (saved w)
                          (clock w) (ticks w) (uuids w) (draws w) (today w)
                          (out w ++ [Exported (length items) (export_path path)])).
  { unfold w1. simpl run. by rewrite (cmd_export_effect w items path Hl). }
  assert (Hf : fs w1 !! export_path path = Some (Doc (JArr items)))
    by (rewrite E1; apply lookup_insert_eq).
  assert (Hl1 : load w1 = (Ok items, w1)).
  { destruct (decide (export_path path = STORE_FILE)) as [Ep|Ep].
    - apply load_store. by rewrite <- Ep.
    - apply (load_fs w); [|done]. rewrite E1. simpl. by apply lookup_insert_ne. }
  destruct (import_all_spec items items w1 (shaped_importable items Hs))
    as (news & Hrun & Hlen & Hnth).
  exists news. subst r. simpl run.
  rewrite (cmd_import_run w1 _ _ items items _ Hf Hl1 Hrun). simpl.
  split; [done|]. split; [by apply load_store, lookup_insert_eq|].
  split; [done|]. intros j t c Hj Hc.
  destruct (Hnth j t Hj) as (m & z & -> & Hz & Hn).
  rewrite Hc in Hn. injection Hn as ->.
  assert (St : task_shaped (JObj m) = true).
  { apply (proj1 (forallb_forall _ _) Hs). apply list_elem_of_In.
    by eapply list_elem_of_lookup_2. }
  assert (Pt : valid_priority (JObj m) = true).
  { apply (proj1 (forallb_forall _ _) Hp). apply list_elem_of_In.
    by eapply list_elem_of_lookup_2. }
  destruct (imported_task_copy (uuids w1 (draws w1 + j)) (clock w1 (ticks w1 + j)) m St Pt)
    as (z' & Hz' & _ & Sc & Cc).
  rewrite Hz in Hz'. injection Hz' as <-.
  replace (uuids w (draws w + j)) with (uuids w1 (draws w1 + j)) by (by rewrite E1).
  done.
Qed.

(** X16 at the sample store, exporting to the default path. *)
Lemma export_import_copies_witness :
  let w := sample_world (store_with sample_items) in
  let w1 := snd (run (Export None) w) in
  let r := run (Import "tasks_export.json") w1 in
  exists copies : list json,
    fst r = Ok tt
    /\ load (snd r) = (Ok (sample_items ++ copies)%list, snd r)
    /\ length copies = 3%nat
    /\ forall (j : nat) (t c : json),
         sample_items !! j = Some t -> copies !! j = Some c ->
         task_shaped c = true /\ copy_of (sample_uuids j) t c.
Proof.
  intros w w1 r.
  assert (Hl : load w = (Ok sample_items, w)) by (apply load_store; reflexivity).
  exact (export_import_copies w sample_items None Hl eq_refl eq_refl).
Defined.

(** ** Editing *)

Lemma cmd_edit_effect w w' items args i m :
  load w = (Ok items, w) ->
  find items (e_id args) = Ok (Some (i, JObj m)) ->
  cmd_edit args w = (Ok tt, w') ->
  exists (m' : list (string * json)) (s : string),
    dict_get m "id" = Some (JStr s)
    /\ fs w' = <[STORE_FILE := Doc (JArr (<[i := JObj m']> items))]> (fs w)
    /\ saved w' = (saved w ++ [<[i := JObj m']> items])%list
    /\ out w' = (out w ++ [match changed_names args with
                           | [] => NoChanges
                           | c => Updated (JStr s) c
                           end])%list
    /\ (forall k : string, k <> "title"%string -> k <> "priority"%string ->
          k <> "due"%string -> dict_get m' k = dict_get m k)
    /\ dict_get m' "title"
       = (if given_list (e_title args)
          then Some (JStr (strip (join " " (default [] (e_title args)))))
          else dict_get m "title")
    /\ dict_get m' "priority"
       = (if given_str (e_priority args)
          then Some (JStr (lower (default ""%string (e_priority args))))
          else dict_get m "priority")
    /\ (given_str (e_priority args) = true ->
        in_priorities (lower (default ""%string (e_priority args))) = true)
    /\ (exists d : option string,
          match e_due args with
          | Some sd => parse_date (Some sd) w = (Ok d, w)
          | None => d = None
          end
          /\ dict_get m' "due"
             = (if e_clear_due args then Some JNull
                else match e_due args with
                     | Some _ => Some (opt_str d)
                     | None => dict_get m "due"
                     end))
    /\ (changed_names args = [] -> m' = m).
Proof.
  intros Hl Hf.
  destruct (find_from_found _ _ _ _ _ Hf) as (k & m0 & s & _ & _ & Em & Hid & _).
  injection Em as <-.
  destruct args as [tid title priority due clear].
  cbn [e_id e_title e_priority e_due e_clear_due] in *.
  unfold cmd_edit, changed_names.
  cbn [e_id e_title e_priority e_due e_clear_due].
  unfold bind at 1. rewrite Hl. unfold bind at 1.
  rewrite (resolve_found _ _ _ _ _ Hf).
  destruct (given_list title) eqn:Gt;
  (destruct (given_str priority) eqn:Gp;
   [destruct (in_priorities (lower (default ""%string priority))) eqn:Ip|]);
  cbn [negb];
  (destruct due as [sd|];
   [unfold bind, lift, ret, sys_exit, setitem;
    pose proof (proj1 (parse_date_spec (Some sd) w)) as Hw;
    destruct (parse_date (Some sd) w) as [[d| |] w2] eqn:Hd;
    cbn [snd] in Hw; subst; try done|]);
  destruct clear.
  all: unfold bind, lift, ret, sys_exit, setitem, save, log_save, write_json, print.
  all: cbn [subscript fs saved out clock ticks uuids draws today app].
  all: rewrite ?dict_get_set_ne by done; rewrite ?Hid.
  all: try done.
  all: unfold bind; cbn beta iota; intros [= <-]; cbn [fs saved out].
  all: eexists _, s; split; [done|]; split; [reflexivity|];
    split; [reflexivity|]; split; [reflexivity|].
  all: split; [intros k0 ? ? ?; by rewrite ?dict_get_set_ne by done|].
  all: repeat split; try done;
    try (eexists; split; [reflexivity|]);
    repeat (rewrite dict_get_set_eq || rewrite dict_get_set_ne by done); done.
Qed.

(** X17: an edit that succeeds replaces the resolved record and nothing
    else, and in that record only the fields named by the options given:
    every key other than title, priority and due keeps its value, and so
    does each of the three whose option is absent.  With [--clear-due] the
    due date is null afterwards, also when [--due] was given with it. *)
Theorem edit_changes_only_named_fields
    (w w' : world) (items : list json) (args : edit_args) (i : nat)
    (m : list (string * json)) :
  load w = (Ok items, w) ->
  find items (e_id args) = Ok (Some (i, JObj m)) ->
  run (Edit args) w = (Ok tt, w') ->
  exists m' : list (string * json),
    load w' = (Ok (<[i := JObj m']> items), w')
    /\ (forall k : string, k <> "title"%string -> k <> "priority"%string ->
          k <> "due"%string -> dict_get m' k = dict_get m k)
    /\ (given_list (e_title args) = false ->
        dict_get m' "title" = dict_get m "title")
    /\ (given_str (e_priority args) = false ->
        dict_get m' "priority" = dict_get m "priority")
    /\ (e_due args = None -> e_clear_due args = false ->
        dict_get m' "due" = dict_get m "due")
    /\ (e_clear_due args = true -> dict_get m' "due" = Some JNull).
Proof.
  intros Hl Hf Hr.
  destruct (cmd_edit_effect w w' items args i m Hl Hf Hr)
    as (m' & s & _ & Hfs & _ & _ & Hk & Ht & Hp & _ & (d & Hd & Hdue) & _).
  exists m'. split; [apply load_store; rewrite Hfs; apply lookup_insert_eq|].
  split; [exact Hk|].
  split; [by intros E; rewrite E in Ht|].
  split; [by intros E; rewrite E in Hp|].
  split; [by intros E1 E2; rewrite E1, E2 in Hdue|].
  by intros E; rewrite E in Hdue.
Qed.

(** X17 at the sample store: [edit ab12 --priority LOW --due tomorrow]. *)
Lemma edit_changes_only_named_fields_witness :
  let w := sample_world (store_with sample_items) in
  let args := EditArgs "ab12" None (Some "LOW"%string) (Some "tomorrow"%string) false in
  let w' := snd (run (Edit args) w) in
  exists m' : list (string * json),
    load w' = (Ok (JObj m' :: sample_rest), w')
    /\ dict_get m' "title" = Some (JStr "Buy milk")
    /\ dict_get m' "id" = Some (JStr "ab12cd34").
Proof.
  intros w args w'.
  assert (Hl : load w = (Ok sample_items, w)) by (apply load_store; reflexivity).
  destruct (edit_changes_only_named_fields w w' sample_items args 0 _ Hl eq_refl eq_refl)
    as (m' & H1 & H2 & H3 & _).
  exists m'. split; [exact H1|]. split; [by rewrite H3|by rewrite H2].
Defined.

(** X18: an edit that succeeds calls [save] once and prints one line: the
    id of the record with the names of the options given, in the fixed
    order title, priority, due, due (the last for [--clear-due]), or, when
    no option was given, that nothing changed; in that case the collection
    it saved is the one it loaded. *)
Theorem edit_reports_changes
    (w w' : world) (items : list json) (args : edit_args) (i : nat)
    (m : list (string * json)) :
  load w = (Ok items, w) ->
  find items (e_id args) = Ok (Some (i, JObj m)) ->
  run (Edit args) w = (Ok tt, w') ->
  exists (s : string) (after : list json),
    dict_get m "id" = Some (JStr s)
    /\ out w' = (out w ++ [match changed_names args with
                           | [] => NoChanges
                           | c => Updated (JStr s) c
                           end])%list
    /\ saved w' = (saved w ++ [after])%list
    /\ load w' = (Ok after, w')
    /\ (changed_names args = [] -> after = items).
Proof.
  intros Hl Hf Hr.
  destruct (cmd_edit_effect w w' items args i m Hl Hf Hr)
    as (m' & s & Hid & Hfs & Hsv & Hout & _ & _ & _ & _ & _ & Hsame).
  exists s, (<[i := JObj m']> items).
  split; [exact Hid|]. split; [exact Hout|]. split; [exact Hsv|].
  split; [apply load_store; rewrite Hfs; apply lookup_insert_eq|].
  intros E. rewrite (Hsame E).
  destruct (find_from_found _ _ _ _ _ Hf) as (k & _ & _ & Hk & Hi & _).
  simpl in Hk. subst k. by apply list_insert_id.
Qed.

(** X18 at the sample store: [edit ab12 --due 2024-02-01 --clear-due]. *)
Lemma edit_reports_changes_witness :
  let w := sample_world (store_with sample_items) in
  let args := EditArgs "ab12" None None (Some "2024-02-01"%string) true in
  let w' := snd (run (Edit args) w) in
  exists after : list json,
    out w' = [Updated (JStr "ab12cd34") ["due"; "due"]]
    /\ saved w' = [after]
    /\ load w' = (Ok after, w').
Proof.
  intros w args w'.
  assert (Hl : load w = (Ok sample_items, w)) by (apply load_store; reflexivity).
  destruct (edit_reports_changes w w' sample_items args 0 _ Hl eq_refl eq_refl)
    as (s & after & H1 & H2 & H3 & H4 & _).
  exists after. injection H1 as <-. done.
Defined.

(** ** The shape of the store is kept *)

Lemma steady_ret {A} (a : A) : steady (ret a).
Proof. done. Qed.

Lemma steady_lift {A} (r : exc A) : steady (lift r).
Proof. done. Qed.

Lemma steady_sys_exit {A} s : steady (@sys_exit A s).
Proof. done. Qed.

Lemma steady_bind {A B} (m : M A) (k : A -> M B) :
  steady m -> (forall a, steady (k a)) -> steady (bind m k).
Proof.
  intros Hm Hk w. unfold bind. specialize (Hm w).
  destruct (m w) as [[a|s|e] w1]; simpl in *; try done.
  by rewrite Hk.
Qed.

Lemma steady_load : steady load.
Proof. intros w. by rewrite load_world. Qed.

Lemma steady_now_ts : steady now_ts.
Proof. done. Qed.

Lemma steady_today_date : steady today_date.
Proof. done. Qed.

Lemma steady_short_id : steady short_id.
Proof. done. Qed.

Lemma steady_print e : steady (print e).
Proof. done. Qed.

Lemma steady_file_at p : steady (file_at p).
Proof. done. Qed.

Lemma steady_write_json p items : steady (write_json p items).
Proof. done. Qed.

Lemma steady_save items : steady (save items).
Proof. done. Qed.

#[local] Hint Resolve steady_ret steady_lift steady_sys_exit steady_load
  steady_now_ts steady_today_date steady_short_id steady_print steady_file_at
  steady_write_json steady_save : effects.

Ltac step_steady :=
  repeat first
    [ progress intros
    | solve [ auto with effects ]
    | apply steady_bind
    | match goal with
      | |- steady (match ?x with _ => _ end) => destruct x
      | |- steady (if ?b then _ else _) => destruct b
      end ].

Lemma steady_parse_date s : steady (parse_date s).
Proof. unfold parse_date. step_steady. Qed.

Lemma steady_resolve items tid : steady (resolve items tid).
Proof. unfold resolve. step_steady. Qed.

Lemma steady_import_record t : steady (import_record t).
Proof. unfold import_record. step_steady. Qed.

Lemma steady_import_all data items : steady (import_all data items).
Proof.
  revert items. induction data as [|t data IH]; intros items; simpl.
  - apply steady_ret.
  - apply steady_bind; [apply steady_import_record | intros r; apply IH].
Qed.

#[local] Hint Resolve steady_parse_date steady_resolve steady_import_record
  steady_import_all : effects.

Lemma steady_run c : steady (run c).
Proof.
  destruct c; simpl.
  - unfold cmd_add. step_steady.
  - unfold cmd_list. step_steady.
  - unfold cmd_done. step_steady.
  - unfold cmd_undo. step_steady.
  - unfold cmd_delete. step_steady.
  - unfold cmd_edit. step_steady.
  - unfold cmd_clear_completed. step_steady.
  - unfold cmd_search, cmd_list. step_steady.
  - unfold cmd_export. step_steady.
  - unfold cmd_import. step_steady.
Qed.

Lemma fail_safe_cmd_add title priority due : fail_safe (cmd_add title priority due).
Proof. unfold cmd_add. step_fail_safe. Qed.

Lemma store_shaped_load w items :
  load w = (Ok items, w) -> forallb task_shaped items = true -> store_shaped w = true.
Proof. intros Hl Hs. unfold store_shaped. by rewrite Hl. Qed.

Lemma store_shaped_inv w :
  store_shaped w = true ->
  exists items, load w = (Ok items, w) /\ forallb task_shaped items = true.
Proof.
  unfold store_shaped. pose proof (load_world w) as Hw.
  destruct (load w) as [[items| |] w1]; simpl in *; try done.
  subst. intros H. by exists items.
Qed.

Lemma store_shaped_fs w w' :
  fs w' !! STORE_FILE = fs w !! STORE_FILE -> store_shaped w' = store_shaped w.
Proof.
  intros H. unfold store_shaped, load. rewrite H.
  destruct (fs w !! STORE_FILE) as [c|]; [|done].
  destruct (json_load c) as [v|s|e]; [by destruct v|done|by destruct e].
Qed.

Lemma store_shaped_written w w' items :
  fs w' = <[STORE_FILE := Doc (JArr items)]> (fs w) ->
  forallb task_shaped items = true -> store_shaped w' = true.
Proof.
  intros Hf Hs. apply (store_shaped_load w' items); [|done].
  apply load_store. rewrite Hf. apply lookup_insert_eq.
Qed.

Lemma forallb_insert {A} (P : A -> bool) (l : list A) (i : nat) (x : A) :
  forallb P l = true -> P x = true -> forallb P (<[i := x]> l) = true.
Proof.
  revert i. induction l as [|y l IH]; intros i; simpl; [done|].
  intros [Hy Hl]%andb_true_iff Hx. destruct i; simpl.
  - by rewrite Hx.
  - by rewrite Hy, IH.
Qed.

Lemma forallb_list_filter {A} (P f : A -> bool) (l : list A) :
  forallb P l = true -> forallb P (List.filter f l) = true.
Proof.
  induction l as [|y l IH]; simpl; [done|].
  intros [Hy Hl]%andb_true_iff. destruct (f y); simpl; [by rewrite Hy, IH|by apply IH].
Qed.

Ltac dict_reads :=
  repeat (rewrite dict_get_set_eq || rewrite dict_get_set_ne by congruence).

Lemma task_shaped_set m k v :
  task_shaped (JObj m) = true -> field_ok k v = true ->
  task_shaped (JObj (dict_set m k v)) = true.
Proof.
  unfold task_shaped.
  destruct (dict_get m "id") as [[| | |i| |]|] eqn:E1; try done.
  destruct (dict_get m "title") as [[| | |ti| |]|] eqn:E2; try done.
  destruct (dict_get m "priority") as [[| | |p| |]|] eqn:E3; try done.
  destruct (dict_get m "due") as [due|] eqn:E4; try done.
  destruct (dict_get m "completed") as [[|c| | | |]|] eqn:E5; try done.
  destruct (dict_get m "created_at") as [[| |z| | |]|] eqn:E6; try done.
  destruct (dict_get m "completed_at") as [da|] eqn:E7; try done.
  intros Hs. apply andb_true_iff in Hs as [Hdue Hda]. unfold field_ok.
  destruct (String.eqb_spec k "id") as [->|N1];
    [|destruct (String.eqb_spec k "title") as [->|N2];
      [|destruct (String.eqb_spec k "priority") as [->|N3];
        [|destruct (String.eqb_spec k "due") as [->|N4];
          [|destruct (String.eqb_spec k "completed") as [->|N5];
            [|destruct (String.eqb_spec k "created_at") as [->|N6];
              [|destruct (String.eqb_spec k "completed_at") as [->|N7]]]]]]];
    cbn [orb]; intros Hv; dict_reads;
    rewrite ?E1, ?E2, ?E3, ?E4, ?E5, ?E6, ?E7;
    try (destruct v; try done); by rewrite ?Hdue, ?Hda, ?Hv.
Qed.

Lemma mark_done_shaped now m :
  task_shaped (JObj m) = true -> task_shaped (mark_done now m) = true.
Proof. intros H. unfold mark_done. by do 2 (apply task_shaped_set; [|done]). Qed.

Lemma mark_open_shaped m :
  task_shaped (JObj m) = true -> task_shaped (mark_open m) = true.
Proof. intros H. unfold mark_open. by do 2 (apply task_shaped_set; [|done]). Qed.

Lemma cmd_edit_failure w w' items args i m r :
  load w = (Ok items, w) ->
  find items (e_id args) = Ok (Some (i, JObj m)) ->
  cmd_edit args w = (r, w') -> r <> Ok tt -> w' = w.
Proof.
  intros Hl Hf.
  destruct (find_from_found _ _ _ _ _ Hf) as (k & m0 & s & _ & _ & Em & Hid & _).
  injection Em as <-.
  destruct args as [tid title priority due clear].
  cbn [e_id e_title e_priority e_due e_clear_due] in *.
  unfold cmd_edit.
  cbn [e_id e_title e_priority e_due e_clear_due].
  unfold bind at 1. rewrite Hl. unfold bind at 1.
  rewrite (resolve_found _ _ _ _ _ Hf).
  destruct (given_list title) eqn:Gt;
  (destruct (given_str priority) eqn:Gp;
   [destruct (in_priorities (lower (default ""%string priority))) eqn:Ip|]);
  cbn [negb];
  (destruct due as [sd|];
   [unfold bind, lift, ret, sys_exit, setitem;
    pose proof (proj1 (parse_date_spec (Some sd) w)) as Hw;
    destruct (parse_date (Some sd) w) as [[d| |] w2] eqn:Hd;
    cbn [snd] in Hw; subst|]);
  destruct clear.
  all: unfold bind, lift, ret, sys_exit, setitem, save, log_save, write_json, print.
  all: cbn [subscript fs saved out clock ticks uuids draws today app].
  all: rewrite ?dict_get_set_ne by done; rewrite ?Hid.
  all: unfold bind; cbn beta iota; intros [= <- <-] Hr; done.
Qed.

Lemma cmd_edit_shaped w w' items args i m :
  valid_date (today w) = true ->
  load w = (Ok items, w) ->
  find items (e_id args) = Ok (Some (i, JObj m)) ->
  task_shaped (JObj m) = true ->
  cmd_edit args w = (Ok tt, w') ->
  exists m', fs w' = <[STORE_FILE := Doc (JArr (<[i := JObj m']> items))]> (fs w)
             /\ task_shaped (JObj m') = true.
Proof.
  intros V Hl Hf Hs Hr.
  destruct (cmd_edit_effect w w' items args i m Hl Hf Hr)
    as (m' & s & _ & Hfs & _ & _ & Hk & Ht & Hp & _ & (d & Hd & Hdue) & _).
  exists m'. split; [exact Hfs|].
  assert (Hdd : match d with Some r => is_Some (date_of_iso r) | None => True end).
  { destruct (e_due args) as [sd|]; [|by subst].
    by destruct (parse_date_due _ _ _ _ V Hd). }
  pose proof (opt_str_due_shaped d Hdd) as Hod.
  revert Hs. unfold task_shaped.
  rewrite (Hk "id"), (Hk "completed"), (Hk "created_at"), (Hk "completed_at"),
    Ht, Hp, Hdue by done.
  destruct (dict_get m "id") as [[| | |i0| |]|]; try done.
  destruct (dict_get m "title") as [[| | |ti| |]|]; try done.
  destruct (dict_get m "priority") as [[| | |p| |]|]; try done.
  destruct (dict_get m "due") as [due|]; try done.
  destruct (dict_get m "completed") as [[|c| | | |]|]; try done.
  destruct (dict_get m "created_at") as [[| |z| | |]|]; try done.
  destruct (dict_get m "completed_at") as [da|]; try done.
  intros [Hdue' Hda]%andb_true_iff.
  destruct (given_list (e_title args)), (given_str (e_priority args)),
    (e_clear_due args), (e_due args); by rewrite ?Hod, ?Hdue', ?Hda.
Qed.

Lemma find_shaped items tid :
  forallb task_shaped items = true ->
  find items tid = Ok None
  \/ exists i m, find items tid = Ok (Some (i, JObj m))
                 /\ items !! i = Some (JObj m) /\ task_shaped (JObj m) = true.
Proof.
  intros Hs.
  assert (Hid : forallb has_id items = true).
  { apply forallb_forall. intros t Ht. apply task_shaped_has_id.
    by apply (proj1 (forallb_forall _ _) Hs). }
  pose proof (find_from_spec items 0 tid Hid) as H. unfold find.
  destruct (find_from 0 items tid) as [[[i t]|]| |] eqn:E; [|by left|done..].
  right. destruct (find_from_found _ _ _ _ _ E) as (k & m & s & Hk & Hi & -> & _).
  simpl in Hk. subst k. exists i, m. split; [done|]. split; [done|].
  apply (proj1 (forallb_forall _ _) Hs). apply list_elem_of_In.
  by eapply list_elem_of_lookup_2.
Qed.

Lemma shaped_has_completed items :
  forallb task_shaped items = true -> forallb has_completed items = true.
Proof.
  intros Hs. apply forallb_forall. intros t Ht.
  apply (proj1 (forallb_forall _ _) Hs) in Ht.
  destruct (task_shaped_inv t Ht) as (m & _ & _ & _ & c & _ & -> & _ & _ & _ & Hc & _).
  unfold has_completed. simpl. by rewrite Hc.
Qed.

Lemma shaped_has_id items :
  forallb task_shaped items = true -> forallb has_id items = true.
Proof.
  intros Hs. apply forallb_forall. intros t Ht. apply task_shaped_has_id.
  by apply (proj1 (forallb_forall _ _) Hs).
Qed.

Lemma run_keeps_shaped (c : command) (w : world) :
  store_shaped w = true -> valid_date (today w) = true -> is_import c = false ->
  store_shaped (snd (run c w)) = true.
Proof.
  intros Hw V Hc. destruct (store_shaped_inv w Hw) as (items & Hl & Hs).
  assert (Same : forall w', fs w' = fs w -> store_shaped w' = true).
  { intros w' E. rewrite (store_shaped_fs w w'); [done|by rewrite E]. }
  destruct c as [title priority due|args|tid|tid|tid|args| |q|path|path];
    [| | | | | | | | |done]; simpl run.
  - destruct (cmd_add title priority due w) as [r w'] eqn:E.
    destruct r as [[]|msg|e].
    + destruct (cmd_add_effect _ _ _ _ _ V E) as (items' & d & Hl' & _ & _ & Hd & Hfs).
      rewrite Hl in Hl'. injection Hl' as <-.
      apply (store_shaped_written w _ _ Hfs).
      rewrite forallb_app, Hs. simpl. by rewrite (opt_str_due_shaped d Hd).
    + apply Same. pose proof (fail_safe_cmd_add title priority due w) as F.
      rewrite E in F. by apply F.
    + apply Same. pose proof (fail_safe_cmd_add title priority due w) as F.
      rewrite E in F. by apply F.
  - apply Same, quiet_cmd_list.
  - destruct (find_shaped items tid Hs) as [Hn|(i & m & Hf & Hi & Hm)].
    + by rewrite (cmd_done_not_found w items tid Hl Hn).
    + destruct (cmd_done_effect w items tid i m Hl Hf) as (Hfs & _).
      apply (store_shaped_written w _ _ Hfs).
      apply forallb_insert; [done|]. by apply mark_done_shaped.
  - destruct (find_shaped items tid Hs) as [Hn|(i & m & Hf & Hi & Hm)].
    + by rewrite (cmd_undo_not_found w items tid Hl Hn).
    + destruct (cmd_undo_effect w items tid i m Hl Hf) as (Hfs & _).
      apply (store_shaped_written w _ _ Hfs).
      apply forallb_insert; [done|]. by apply mark_open_shaped.
  - destruct (find_shaped items tid Hs) as [Hn|(i & m & Hf & Hi & Hm)].
    + by rewrite (cmd_delete_not_found w items tid Hl Hn).
    + apply (store_shaped_written w _ _
               (cmd_delete_effect w items tid i _ Hl (shaped_has_id items Hs) Hf)).
      by apply forallb_list_filter.
  - destruct (find_shaped items (e_id args) Hs) as [Hn|(i & m & Hf & Hi & Hm)].
    + by rewrite (cmd_edit_not_found w items args Hl Hn).
    + destruct (cmd_edit args w) as [r w'] eqn:E.
      assert (Hr : r = Ok tt \/ r <> Ok tt) by (destruct r as [[]| |]; [by left|by right..]).
      destruct Hr as [->|Hr].
      * destruct (cmd_edit_shaped w w' items args i m V Hl Hf Hm E) as (m' & Hfs & Hm').
        apply (store_shaped_written w _ _ Hfs). by apply forallb_insert.
      * simpl. by rewrite (cmd_edit_failure w w' items args i m r Hl Hf E Hr).
  - rewrite (cmd_clear_completed_effect w items Hl (shaped_has_completed items Hs)).
    apply (store_shaped_written w _ (List.filter is_open items)); [done|].
    by apply forallb_list_filter.
  - apply Same, quiet_cmd_list.
  - rewrite (cmd_export_effect w items path Hl). simpl.
    destruct (decide (export_path path = STORE_FILE)) as [Ep|Ep].
    + apply (store_shaped_load _ items); [|done]. apply load_store. simpl.
      rewrite <- Ep. apply lookup_insert_eq.
    + rewrite (store_shaped_fs w); [done|]. simpl. by apply lookup_insert_ne.
Qed.

(** X19: a store that loads as task-shaped records stays one over any
    sequence of invocations other than [import], whether they succeed or
    fail, when the current date is a calendar date. *)
Theorem store_stays_shaped (cs : list command) (w : world) :
  store_shaped w = true ->
  valid_date (today w) = true ->
  forallb (fun c => negb (is_import c)) cs = true ->
  store_shaped (run_all cs w) = true.
Proof.
  revert w. induction cs as [|c cs IH]; intros w Hw V Hc; simpl; [done|].
  simpl in Hc. apply andb_true_iff in Hc as [Hc Hcs].
  apply negb_true_iff in Hc.
  apply IH; [by apply run_keeps_shaped| |done].
  by rewrite (steady_run c w).
Qed.

(** X19 at the sample store, over an addition, a completion under an
    unknown id, an edit, a deletion and a clearing. *)
Lemma store_stays_shaped_witness :
  store_shaped
    (run_all [Add ["Call"; "mum"]%string "HIGH" (Some "tomorrow"%string);
              Done "zz";
              Edit (EditArgs "ab12" (Some ["Buy"; "oat"; "milk"]%string) None None true);
              Delete "ab34";
              ClearCompleted]
             (sample_world (store_with sample_items))) = true.
Proof.
  apply store_stays_shaped; reflexivity.
Defined.

(** ** Searching *)

Lemma keep_matching_pure q t :
  shaped t -> keep_matching (lower q) t = Ok (title_matches q t).
Proof.
  intros H. destruct (task_shaped_inv t H)
    as (m & _ & title & _ & _ & _ & -> & _ & Ht & _).
  unfold keep_matching, title_matches. simpl. by rewrite Ht.
Qed.

Lemma table_row_shaped now t : shaped t -> exists r, table_row now t = Ok r.
Proof.
  intros H. destruct (keep_overdue_shaped now t H) as (b & Hb).
  destruct (task_shaped_inv t H)
    as (m & i & title & p & c & z & -> & Hi & Ht & Hp & Hc & _ & Hd).
  unfold keep_overdue in Hb. unfold table_row. simpl in *.
  rewrite Hi, Hc, Ht, Hp. simpl.
  destruct (dict_get m "due") as [due|]; [|by destruct Hd as [|(? & ? & ? & _)]].
  simpl in *. rewrite Hc in Hb. simpl in Hb. rewrite Hb. simpl. eauto.
Qed.

Lemma map_exc_total {A B} (f : A -> exc B) (P : A -> Prop) (l : list A) :
  (forall x, P x -> exists y, f x = Ok y) -> Forall P l ->
  exists r, map_exc f l = Ok r.
Proof.
  intros Hf. induction 1 as [|x l Hx Hl (r & E)]; simpl; [by eexists|].
  destruct (Hf x Hx) as (y & ->). simpl. rewrite E. simpl. eauto.
Qed.

(** X6: on a store of task-shaped records [search] returns, writes no file
    and prints a table with one row for each record whose title contains
    the query without regard to case, as often as the store holds it, and
    for no other record; with the empty query these are all records.  The
    rows stand in the order of the priority sort. *)
Theorem search_lists_matches (w : world) (items : list json) (q : string) :
  load w = (Ok items, w) ->
  forallb task_shaped items = true ->
  exists (sel : list json) (rows : list row),
    run (Search q) w
    = (Ok tt,
       World (fs w) (saved w) (clock w) (ticks w) (uuids w) (draws w) (today w)
             (out w ++ [Table rows;
                        ItemsLeft (length (List.filter is_open items))]))
    /\ map_exc (table_row (today w)) sel = Ok rows
    /\ Permutation sel (if String.eqb q "" then items
                        else List.filter (title_matches q) items)
    /\ StronglySorted priority_order sel.
Proof.
  intros Hl Hs. pose proof (forallb_shaped items Hs) as Hsh.
  set (kept := if String.eqb q "" then items
               else List.filter (title_matches q) items).
  assert (Hk : filter_stage (today w) items "all" q false = Ok kept).
  { unfold filter_stage, kept. simpl.
    destruct (String.eqb q ""); simpl; [done|].
    rewrite (filter_exc_pure (keep_matching (lower q)) (title_matches q)); [done|].
    eapply Forall_impl; [exact Hsh|]. intros t Ht. by apply keep_matching_pure. }
  assert (Hks : Forall shaped kept).
  { unfold kept. destruct (String.eqb q ""); [done|].
    rewrite Forall_forall in *. intros t Ht.
    apply Hsh. apply list_elem_of_In. apply list_elem_of_In in Ht.
    by apply filter_In in Ht as [Ht _]. }
  destruct (sorted_priority_spec kept Hks) as (sel & Hsel & Hp & Hso).
  assert (Hss : Forall shaped sel).
  { rewrite Forall_forall in *. intros t Ht. apply Hks. by rewrite <- Hp. }
  destruct (map_exc_total (table_row (today w)) shaped sel
              (table_row_shaped (today w)) Hss) as (rows & Hr).
  exists sel, rows. split; [|done].
  simpl. unfold cmd_search, cmd_list. cbn [show query sort reverse overdue].
  unfold bind at 1. rewrite Hl. unfold bind at 1, today_date.
  unfold bind at 1, lift. unfold filtered_sorted. rewrite Hk. simpl ebind.
  unfold sort_stage. simpl String.eqb. cbv iota. rewrite Hsel. simpl ebind.
  cbv iota. unfold bind at 1. rewrite Hr.
  unfold bind at 1, print at 1. unfold bind at 1.
  set (w1 := World _ _ _ _ _ _ _ _).
  rewrite (load_fs w w1 items eq_refl Hl).
  unfold bind at 1.
  rewrite (filter_exc_keep_active items (shaped_has_completed items Hs)).
  unfold print, w1. simpl. by rewrite <- app_assoc.
Qed.

(** X6 at the sample store: "DOG" finds "Walk dog" and nothing else. *)
Lemma search_lists_matches_witness :
  let w := sample_world (store_with sample_items) in
  exists (sel : list json) (rows : list row),
    out (snd (run (Search "DOG") w)) = [Table rows; ItemsLeft 2]
    /\ map_exc (table_row (today w)) sel = Ok rows
    /\ Permutation sel [task "ab34ef56" "Walk dog" "low" None false 1700000020 None].
Proof.
  intros w.
  assert (Hl : load w = (Ok sample_items, w)) by (apply load_store; reflexivity).
  destruct (search_lists_matches w sample_items "DOG" Hl sample_items_shaped)
    as (sel & rows & Hrun & Hrows & Hp & _).
  exists sel, rows. split; [by rewrite Hrun|]. split; [exact Hrows|exact Hp].
Defined.

(** ** What import accepts and refuses *)

(** X20: [import] stores the title of a record as it finds it, so the
    store is task-shaped after the import of one record only if that title
    is a text; this is why the invariant above leaves [import] out. *)
Theorem import_keeps_any_title
    (w : world) (path : string) (items : list json)
    (m : list (string * json)) (v : json) :
  fs w !! path = Some (Doc (JArr [JObj m])) ->
  importable (JObj m) = true ->
  dict_get m "title" = Some v ->
  load w = (Ok items, w) ->
  let r := run (Import path) w in
  fst r = Ok tt
  /\ (exists t, load (snd r) = (Ok (items ++ [t])%list, snd r)
                /\ subscript t "title" = Ok v)
  /\ (store_shaped (snd r) = true -> exists s : string, v = JStr s).
Proof.
  intros Hf Hi Hv Hl r.
  assert (Hd : forallb importable [JObj m] = true) by (cbn [forallb]; by rewrite Hi).
  destruct (import_all_spec [JObj m] items w Hd) as (news & Hrun & Hlen & Hnth).
  destruct (Hnth 0%nat _ eq_refl) as (m0 & z & Em & _ & Hn).
  injection Em as <-.
  destruct news as [|t [|t' news]]; try done. injection Hn as ->.
  subst r. simpl run. rewrite (cmd_import_run w _ path _ items _ Hf Hl Hrun).
  simpl fst. simpl snd. split; [done|].
  set (w' := World _ _ _ _ _ _ _ _).
  assert (Hl' : load w' = (Ok (items ++ [imported_task (uuids w (draws w + 0)) z m])%list, w'))
    by (apply load_store; apply lookup_insert_eq).
  split.
  - eexists. split; [exact Hl'|]. simpl. by rewrite Hv.
  - unfold store_shaped. rewrite Hl'. cbn [fst]. rewrite forallb_app.
    intros [_ Ht]%andb_true_iff. simpl in Ht. rewrite Hv in Ht. simpl in Ht.
    destruct v; try done. by eexists.
Qed.

(** X20 on a record whose title is the number 7. *)
Lemma import_keeps_any_title_witness :
  let data := [JObj [("title", JNum 7)]] in
  let w := sample_world (<["in.json" := Doc (JArr data)]> (store_with sample_items)) in
  let r := run (Import "in.json") w in
  store_shaped w = true
  /\ fst r = Ok tt
  /\ (store_shaped (snd r) = true -> exists s : string, JNum 7 = JStr s).
Proof.
  intros data w r.
  assert (Hl : load w = (Ok sample_items, w)) by (apply load_store; reflexivity).
  destruct (import_keeps_any_title w "in.json" sample_items _ (JNum 7)
              eq_refl eq_refl eq_refl Hl) as (H1 & _ & H3).
  split; [reflexivity|]. split; [exact H1|exact H3].
Defined.

Lemma py_int_no_exit v msg : py_int v <> Exit msg.
Proof. destruct v; simpl; try done. by destruct (int_of_str s). Qed.

Lemma exitless_import_record t : exitless (import_record t).
Proof.
  unfold import_record.
  repeat first
    [ progress intros
    | solve [ auto using py_int_no_exit with effects ]
    | apply exitless_bind
    | match goal with
      | |- exitless (if ?b then _ else _) => destruct b
      end ].
Qed.

Lemma exitless_import_all data items : exitless (import_all data items).
Proof.
  revert items. induction data as [|t data IH]; intros items; simpl.
  - by apply unfailing_exitless.
  - apply exitless_bind; [apply exitless_import_record | intros r; apply IH].
Qed.

(** X21: [import] examines the import file before it reads the store.  A
    missing file and a JSON document that is not an array end it through
    [sys.exit] with their own messages; a file that is not JSON, or not
    text, ends it with the uncaught decoding error, not with a message as
    for the store.  In all four cases nothing at all has changed, and the
    store was not looked at. *)
Theorem import_rejects_bad_file (w : world) (path : string) :
  match fs w !! path with
  | None => run (Import path) w = (Exit import_missing_msg, w)
  | Some NotText => run (Import path) w = (Raise UnicodeDecodeError, w)
  | Some NotJson => run (Import path) w = (Raise JSONDecodeError, w)
  | Some (Doc (JArr data)) =>
      fst (run (Import path) w) <> Exit import_missing_msg
      /\ fst (run (Import path) w) <> Exit import_format_msg
  | Some (Doc _) => run (Import path) w = (Exit import_format_msg, w)
  end.
Proof.
  simpl run.
  destruct (fs w !! path) as [[| |v]|] eqn:E;
    [by unfold cmd_import, bind, file_at, lift; rewrite E..| |
     by unfold cmd_import, bind, file_at, lift; rewrite E].
  destruct v as [| | | |data|];
    try (by unfold cmd_import, bind, file_at, lift; rewrite E).
  set (body := bind load (fun items =>
                 bind (import_all data items) (fun items =>
                   bind (save items) (fun _ => print (Imported (length data)))))).
  assert (X : exits_only (fun msg => msg = corrupt_msg) body).
  { apply exits_only_bind.
    - intros w0 msg. unfold load.
      destruct (fs w0 !! STORE_FILE) as [c|]; [|done].
      destruct c as [| |v]; simpl; [done|by intros [= <-]|by destruct v].
    - intros items. apply exitless_exits_only.
      apply exitless_bind; [apply exitless_import_all|].
      intros all. apply exitless_bind; [apply unfailing_exitless, unfailing_save|].
      intros _. apply unfailing_exitless, unfailing_print. }
  assert (R : cmd_import path w = body w)
    by (unfold cmd_import, body; unfold bind at 1, file_at; by rewrite E).
  rewrite R.
  split; intros H; apply X in H; discriminate H.
Qed.
